(** * Health tracker: storage manager, CSV codec and import/export

    A shallow embedding of [src/core/core-scripts.js]: the quota-aware
    storage manager ([iosStorageManager]), the CSV codec
    ([convertDataToCSV], [parseCSVData], [parseCSVRow]) and the
    import/export orchestration ([exportData], [performDataImport]).

    Modelling conventions.
    - A JavaScript string is a [string]: a sequence of code units, here
      restricted to the 8-bit range.
    - A JavaScript number is an integer ([Z]) or [NaN]; every number the
      codec prints or reads is an integer, and [String(n)] is decimal for
      integers below 10^21 in magnitude.
    - An object is an association list in own-property order; an array is
      a list.
    - A thrown exception is the [Throw] case of [Result].
    - [localStorage] is a finite map from keys to strings; what the
      browser decides (whether a write fails, what [JSON.parse] accepts,
      the clock, the device class) is a [Platform] record. *)

From Stdlib Require Import String Ascii List ZArith Lia Bool.
From Stdlib Require Import DecimalString DecimalZ DecimalPos.
From Stdlib Require Import OrdersEx Sorting.Permutation Sorting.Sorted.
From stdpp Require Import gmap strings.
Import ListNotations.
Local Open Scope string_scope.
Local Open Scope Z_scope.
#[local] Arguments String.append !_ _ : simpl nomatch.
#[local] Arguments Ascii.eqb : simpl never.

(** ** Characters and strings *)

Definition dquote : ascii := Eval cbv in ascii_of_nat 34.
Definition comma : ascii := Eval cbv in ascii_of_nat 44.
Definition newline : ascii := Eval cbv in ascii_of_nat 10.
Definition creturn : ascii := Eval cbv in ascii_of_nat 13.
Definition underscore : ascii := Eval cbv in ascii_of_nat 95.

(** [s.includes(c)] for a one-character needle. *)
Fixpoint includes (s : string) (c : ascii) : bool :=
  match s with
  | EmptyString => false
  | String a rest => Ascii.eqb a c || includes rest c
  end.

(** The global replacement in [escapeCSV]: every double quote is doubled. *)
Fixpoint double_quotes (s : string) : string :=
  match s with
  | EmptyString => EmptyString
  | String a rest =>
      if Ascii.eqb a dquote
      then String dquote (String dquote (double_quotes rest))
      else String a (double_quotes rest)
  end.

(** [parts.join(sep)] *)
Fixpoint join (sep : string) (parts : list string) : string :=
  match parts with
  | [] => EmptyString
  | [p] => p
  | p :: rest => p +:+ sep +:+ join sep rest
  end.

Definition str1 (c : ascii) : string := String c EmptyString.

(** [s.split(c)] for a one-character separator; [cur] is the piece being
    read. *)
Fixpoint split_on (c : ascii) (s : string) (cur : string) : list string :=
  match s with
  | EmptyString => [cur]
  | String a rest =>
      if Ascii.eqb a c then cur :: split_on c rest EmptyString
      else split_on c rest (cur +:+ str1 a)
  end.

(** [csvData.split(/\r?\n/)]: a line feed, or a carriage return
    immediately followed by a line feed, separates two rows. *)
Fixpoint split_lines (s : string) (cur : string) : list string :=
  match s with
  | EmptyString => [cur]
  | String a rest =>
      if Ascii.eqb a newline then cur :: split_lines rest EmptyString
      else
        match rest with
        | String b rest' =>
            if Ascii.eqb a creturn && Ascii.eqb b newline
            then cur :: split_lines rest' EmptyString
            else split_lines rest (cur +:+ str1 a)
        | EmptyString => split_lines rest (cur +:+ str1 a)
        end
  end.

(** White space as [trim] and [parseInt] see it, in the 8-bit range:
    TAB, LF, VT, FF, CR, space and the no-break space. *)
Definition is_space (c : ascii) : bool :=
  let n := nat_of_ascii c in
  ((9 <=? n) && (n <=? 13) || (n =? 32) || (n =? 160))%nat.

(** [!row.trim()]: the row holds white space only. *)
Fixpoint is_blank (s : string) : bool :=
  match s with
  | EmptyString => true
  | String a rest => is_space a && is_blank rest
  end.

Fixpoint skip_spaces (s : string) : string :=
  match s with
  | String a rest => if is_space a then skip_spaces rest else s
  | EmptyString => s
  end.

(** ** Numbers *)

Inductive Number : Type :=
| NaN
| Num (z : Z).

(** The value of a character as a digit in the given radix. *)
Definition digit_value (radix : Z) (c : ascii) : option Z :=
  let n := Z.of_nat (nat_of_ascii c) in
  let d :=
    if (48 <=? n) && (n <=? 57) then Some (n - 48)
    else if (97 <=? n) && (n <=? 122) then Some (n - 87)
    else if (65 <=? n) && (n <=? 90) then Some (n - 55)
    else None in
  match d with
  | Some v => if v <? radix then Some v else None
  | None => None
  end.

(** The longest prefix of digits, read left to right; [acc] is [None]
    until the first digit is seen. *)
Fixpoint read_digits (radix : Z) (s : string) (acc : option Z) : option Z :=
  match s with
  | EmptyString => acc
  | String a rest =>
      match digit_value radix a with
      | Some d =>
          read_digits radix rest
            (Some (match acc with Some v => v * radix + d | None => d end))
      | None => acc
      end
  end.

Definition strip_hex_prefix (s : string) : option string :=
  match s with
  | String z (String x rest) =>
      if Ascii.eqb z "0"%char && (Ascii.eqb x "x"%char || Ascii.eqb x "X"%char)
      then Some rest else None
  | _ => None
  end.

(** [parseInt(s)] with no radix argument. *)
Definition parseInt_string (s : string) : Number :=
  let s1 := skip_spaces s in
  let '(neg, s2) :=
    match s1 with
    | String a rest =>
        if Ascii.eqb a "-"%char then (true, rest)
        else if Ascii.eqb a "+"%char then (false, rest)
        else (false, s1)
    | EmptyString => (false, s1)
    end in
  let digits :=
    match strip_hex_prefix s2 with
    | Some s3 => read_digits 16 s3 None
    | None => read_digits 10 s2 None
    end in
  match digits with
  | Some v => Num (if neg then - v else v)
  | None => NaN
  end.

(** [String(n)] for an integer [n]. *)
Definition Z_to_string (z : Z) : string := NilZero.string_of_int (Z.to_int z).

Definition nat_to_string (n : nat) : string := Z_to_string (Z.of_nat n).

Definition Number_to_string (n : Number) : string :=
  match n with
  | NaN => "NaN"
  | Num z => Z_to_string z
  end.

(** ** Values, objects and exceptions *)

#[local] Set Warnings "-register-all".
Inductive Value : Type :=
| VUndef
| VNull
| VBool (b : bool)
| VNum (n : Number)
| VStr (s : string)
| VArr (items : list Value)
| VObj (props : list (string * Value)).

(** An object with values in [A]: its own properties, in the order
    [Object.keys] lists them. *)
Definition JsObj (A : Type) : Type := list (string * A).

Inductive Exn : Type :=
| SyntaxError
| TypeError
| Error (message : string)
| DOMException (name : string) (code : Z).

Inductive Result (A : Type) : Type :=
| Ok (a : A)
| Throw (e : Exn).
Arguments Ok {A} a.
Arguments Throw {A} e.

Definition bind {A B} (r : Result A) (k : A -> Result B) : Result B :=
  match r with
  | Ok a => k a
  | Throw e => Throw e
  end.

Notation "x <-- r ;; k" := (bind r (fun x => k))
  (at level 100, r at next level, right associativity).

(** Run [f] over a list from left to right; the first exception ends it. *)
Fixpoint mapM {A B} (f : A -> Result B) (l : list A) : Result (list B) :=
  match l with
  | [] => Ok []
  | a :: rest => b <-- f a ;; bs <-- mapM f rest ;; Ok (b :: bs)
  end.

(** The elements of a list with their positions, as [forEach] passes
    them. *)
Fixpoint indexed_from {A} (i : nat) (l : list A) : list (nat * A) :=
  match l with
  | [] => []
  | a :: rest => (i, a) :: indexed_from (S i) rest
  end.
Definition indexed {A} (l : list A) : list (nat * A) := indexed_from 0 l.

(** [String(v)] *)
Fixpoint String_ (v : Value) : string :=
  match v with
  | VUndef => "undefined"
  | VNull => "null"
  | VBool true => "true"
  | VBool false => "false"
  | VNum n => Number_to_string n
  | VStr s => s
  | VArr items =>
      join ","
        (map (fun x => match x with
                       | VUndef | VNull => EmptyString
                       | _ => String_ x
                       end) items)
  | VObj _ => "[object Object]"
  end.

(** What [if (v)] and [v || d] test. *)
Definition truthy (v : Value) : bool :=
  match v with
  | VUndef | VNull | VBool false | VNum NaN | VNum (Num 0) => false
  | VStr s => negb (String.eqb s EmptyString)
  | _ => true
  end.

Fixpoint obj_get {A} (k : string) (o : JsObj A) : option A :=
  match o with
  | [] => None
  | (k', v) :: rest => if String.eqb k k' then Some v else obj_get k rest
  end.

Definition obj_keys {A} (o : JsObj A) : list string := map fst o.

Fixpoint obj_replace {A} (k : string) (v : A) (o : JsObj A) : JsObj A :=
  match o with
  | [] => []
  | (k', v') :: rest =>
      if String.eqb k k' then (k', v) :: rest
      else (k', v') :: obj_replace k v rest
  end.

(** An array index: the canonical decimal form of an integer between 0
    and 2^32 - 2. Such keys are listed first in an object, in numeric
    order. *)
Definition array_index (k : string) : option Z :=
  match read_digits 10 k None with
  | Some n =>
      if String.eqb (Z_to_string n) k && (n <? 4294967295) then Some n
      else None
  | None => None
  end.

Fixpoint obj_insert_index {A} (n : Z) (k : string) (v : A) (o : JsObj A)
  : JsObj A :=
  match o with
  | [] => [(k, v)]
  | (k', v') :: rest =>
      match array_index k' with
      | Some n' =>
          if n' <? n then (k', v') :: obj_insert_index n k v rest
          else (k, v) :: o
      | None => (k, v) :: o
      end
  end.

(** A new own property, or a new value for the one there is: what
    [JSON.parse] does for each member it reads. *)
Definition obj_define {A} (k : string) (v : A) (o : JsObj A) : JsObj A :=
  match obj_get k o with
  | Some _ => obj_replace k v o
  | None =>
      match array_index k with
      | Some n => obj_insert_index n k v o
      | None => (o ++ [(k, v)])%list
      end
  end.

(** [o[k] = v] on an ordinary object. Assigning to [__proto__] creates
    no property. *)
Definition obj_set {A} (k : string) (v : A) (o : JsObj A) : JsObj A :=
  if String.eqb k "__proto__" then o else obj_define k v o.

(** The properties every ordinary object inherits from
    [Object.prototype]; reading one of them on an object that has no own
    property of that name yields a function or an object, never
    [undefined]. *)
Definition object_prototype_names : list string :=
  [ "constructor"; "__defineGetter__"; "__defineSetter__"; "hasOwnProperty";
    "__lookupGetter__"; "__lookupSetter__"; "isPrototypeOf";
    "propertyIsEnumerable"; "toString"; "valueOf"; "__proto__";
    "toLocaleString" ].

Definition inherited (k : string) : bool :=
  existsb (String.eqb k) object_prototype_names.

(** ** The CSV codec: fields and rows *)

(** [escapeCSV], the helper inside [convertDataToCSV]. *)
Definition escapeCSV (value : Value) : string :=
  match value with
  | VNull | VUndef => EmptyString
  | _ =>
      let stringValue := String_ value in
      if includes stringValue comma || includes stringValue dquote
         || includes stringValue newline
      then String dquote (double_quotes stringValue +:+ str1 dquote)
      else stringValue
  end.

(** The loop of [parseCSVRow]; [row] is what is left from position [i]
    on. *)
Fixpoint parseCSVRow_loop (row : string) (insideQuotes : bool)
    (currentValue : string) (result : list string) : list string :=
  match row with
  | EmptyString => (result ++ [currentValue])%list
  | String char rest =>
      if Ascii.eqb char dquote then
        match rest with
        | String next rest' =>
            if Ascii.eqb next dquote
            then parseCSVRow_loop rest' insideQuotes
                   (currentValue +:+ str1 dquote) result
            else parseCSVRow_loop rest (negb insideQuotes) currentValue result
        | EmptyString =>
            parseCSVRow_loop rest (negb insideQuotes) currentValue result
        end
      else if Ascii.eqb char comma && negb insideQuotes then
        parseCSVRow_loop rest insideQuotes EmptyString
          (result ++ [currentValue])%list
      else
        parseCSVRow_loop rest insideQuotes (currentValue +:+ str1 char) result
  end.

Definition parseCSVRow (row : string) : list string :=
  parseCSVRow_loop row false EmptyString [].

(** The twelve columns of an exported file. *)
Definition headers : list string :=
  [ "data_type"; "key"; "value"; "date"; "amount"; "timestamp"; "type";
    "count"; "name"; "color"; "completed"; "order" ].

(** [new Array(headers.length).fill('')] *)
Definition empty_row : list Value := repeat (VStr EmptyString) (length headers).

(** [row[i] = v] on a row. *)
Definition set_col (i : nat) (v : Value) (row : list Value) : list Value :=
  <[i := v]> row.

(** [row.map(escapeCSV).join(',')] *)
Definition csv_line (row : list Value) : string :=
  join (str1 comma) (map escapeCSV row).

(** [addRow], the helper inside [convertDataToCSV]. *)
Definition addRow (dataType key : string) (value : Value) : string :=
  csv_line (set_col 2 value (set_col 1 (VStr key) (set_col 0 (VStr dataType) empty_row))).

(** Does the string hold nothing but double quotes? *)
Fixpoint only_quotes (s : string) : bool :=
  match s with
  | EmptyString => true
  | String a rest => Ascii.eqb a dquote && only_quotes rest
  end.

Definition starts_with_quote (s : string) : bool :=
  match s with
  | String a _ => Ascii.eqb a dquote
  | EmptyString => false
  end.

(** ** The platform *)

(** What the browser decides. [setItem_throws store k v] is the exception
    [localStorage.setItem(k, v)] raises on that store, if any; a write
    that raises leaves the store as it was. *)
Record Platform : Type := {
  isIOS : bool;
  now : string;
  JSON_parse : string -> option Value;
  JSON_stringify : Value -> string;
  setItem_throws : gmap string string -> string -> string -> option Exn
}.

(** ** Parsing: text to snapshot *)

Record TrackerData : Type := {
  goal : Value;
  intake : Value;
  history : JsObj (list Value)
}.

Record WorkoutData : Type := {
  state : JsObj Value;
  count : JsObj Value;
  entries : JsObj (list Value)
}.

(** An element of [importedData.habits.data]. A placeholder has a history
    only; a habit read from a [habit] row has a name and a color too. *)
Record HabitData : Type := {
  name_color : option (Value * Value);
  dates : JsObj Value
}.

Record SettingsData : Type := {
  theme : Value;
  reminder : Value
}.

(** The local [importedData] of [parseCSVData]. *)
Record Imported : Type := {
  version : Value;
  exportDate : Value;
  water : TrackerData;
  protein : TrackerData;
  workout : WorkoutData;
  habits : list HabitData;
  settings : SettingsData
}.

(** What [parseCSVData] returns: the histories are JSON text. *)
Record ImportedData : Type := {
  data_version : Value;
  data_exportDate : Value;
  water_goal : Value;
  water_intake : Value;
  water_history : string;
  protein_goal : Value;
  protein_intake : Value;
  protein_history : string;
  workout_state : string;
  workout_count : string;
  workout_history : string;
  habits_data : string;
  settings_theme : Value;
  settings_reminder : Value
}.

(** A cell that may be missing: [row[i]] past the end of the row, or
    [row[undefined]]. *)
Definition opt_str (o : option string) : Value :=
  match o with
  | Some s => VStr s
  | None => VUndef
  end.

(** [headers.forEach((header, index) => headerMap[header] = index)] *)
Definition build_headerMap (hs : list string) : JsObj nat :=
  fold_left (fun hm '(index, header) => obj_set header index hm)
    (indexed hs) [].

(** [row[headerMap.c]] *)
Definition cell (headerMap : JsObj nat) (row : list string) (c : string)
  : Value :=
  match obj_get c headerMap with
  | Some i => opt_str (row !! i)
  | None => VUndef
  end.

(** [parseInt(v)] *)
Definition parseInt (v : Value) : Number := parseInt_string (String_ v).

(** [v === s] for a string literal [s]. *)
Definition is_str (v : Value) (s : string) : bool :=
  match v with
  | VStr t => String.eqb t s
  | _ => false
  end.

(** [if (!h[date]) h[date] = []; h[date].push(entry)]. A date that names
    an inherited property reads as present, and what is read has no
    [push]. *)
Definition push_entry (date entry : Value) (h : JsObj (list Value))
  : Result (JsObj (list Value)) :=
  let k := String_ date in
  match obj_get k h with
  | Some es => Ok (obj_replace k (es ++ [entry])%list h)
  | None => if inherited k then Throw TypeError else Ok (obj_set k [entry] h)
  end.

(** [{ history: {} }] *)
Definition placeholder : HabitData := {| name_color := None; dates := [] |}.

(** [while (data.length <= idx) data.push({ history: {} })] *)
Definition pad_habits (idx : Number) (data : list HabitData) : list HabitData :=
  match idx with
  | Num i => (data ++ repeat placeholder (Z.to_nat (i + 1 - Z.of_nat (length data))))%list
  | NaN => data
  end.

(** [data[idx]]; reading a property of what is not there is a
    [TypeError]. *)
Definition habit_at (idx : Number) (data : list HabitData)
  : Result (nat * HabitData) :=
  match idx with
  | Num i =>
      if i <? 0 then Throw TypeError
      else match data !! Z.to_nat i with
           | Some h => Ok (Z.to_nat i, h)
           | None => Throw TypeError
           end
  | NaN => Throw TypeError
  end.

Definition set_water (t : TrackerData) (d : Imported) : Imported :=
  {| version := version d; exportDate := exportDate d; water := t;
     protein := protein d; workout := workout d; habits := habits d;
     settings := settings d |}.

Definition set_protein (t : TrackerData) (d : Imported) : Imported :=
  {| version := version d; exportDate := exportDate d; water := water d;
     protein := t; workout := workout d; habits := habits d;
     settings := settings d |}.

Definition set_workout (w : WorkoutData) (d : Imported) : Imported :=
  {| version := version d; exportDate := exportDate d; water := water d;
     protein := protein d; workout := w; habits := habits d;
     settings := settings d |}.

Definition set_habits (h : list HabitData) (d : Imported) : Imported :=
  {| version := version d; exportDate := exportDate d; water := water d;
     protein := protein d; workout := workout d; habits := h;
     settings := settings d |}.

Definition set_settings (s : SettingsData) (d : Imported) : Imported :=
  {| version := version d; exportDate := exportDate d; water := water d;
     protein := protein d; workout := workout d; habits := habits d;
     settings := s |}.

(** [case 'meta'] *)
Definition case_meta (key value : Value) (d : Imported) : Imported :=
  {| version := if is_str key "version" then value else version d;
     exportDate := if is_str key "exportDate" then value else exportDate d;
     water := water d; protein := protein d; workout := workout d;
     habits := habits d; settings := settings d |}.

(** [case 'water'] and [case 'protein'] *)
Definition case_tracker (key value : Value) (t : TrackerData) : TrackerData :=
  {| goal := if is_str key "goal" then value else goal t;
     intake := if is_str key "intake" then value else intake t;
     history := history t |}.

(** [case 'water_history'] and [case 'protein_history'] *)
Definition case_tracker_history (headerMap : JsObj nat) (row : list string)
    (t : TrackerData) : Result TrackerData :=
  let date := cell headerMap row "date" in
  let amount := parseInt (cell headerMap row "amount") in
  let timestamp := cell headerMap row "timestamp" in
  h <-- push_entry date
          (VObj [("amount", VNum amount); ("timestamp", timestamp)])
          (history t) ;;
  Ok {| goal := goal t; intake := intake t; history := h |}.

(** [case 'workout_state'] *)
Definition case_workout_state (headerMap : JsObj nat) (row : list string)
    (w : WorkoutData) : WorkoutData :=
  let workoutType := cell headerMap row "type" in
  let completed := is_str (cell headerMap row "completed") "true" in
  let order := parseInt (cell headerMap row "order") in
  {| state := obj_set (String_ workoutType)
                (VObj [("completed", VBool completed); ("order", VNum order)])
                (state w);
     count := count w; entries := entries w |}.

(** [case 'workout_count'] *)
Definition case_workout_count (headerMap : JsObj nat) (row : list string)
    (w : WorkoutData) : WorkoutData :=
  let countType := cell headerMap row "type" in
  let n := parseInt (cell headerMap row "count") in
  {| state := state w;
     count := obj_set (String_ countType) (VNum n) (count w);
     entries := entries w |}.

(** [case 'workout_history'] *)
Definition case_workout_history (headerMap : JsObj nat) (row : list string)
    (w : WorkoutData) : Result WorkoutData :=
  let workoutDate := cell headerMap row "date" in
  let entryType := cell headerMap row "type" in
  let entryCount := parseInt (cell headerMap row "count") in
  let entryTimestamp := cell headerMap row "timestamp" in
  h <-- push_entry workoutDate
          (VObj [("type", entryType); ("count", VNum entryCount);
                 ("timestamp", entryTimestamp)])
          (entries w) ;;
  Ok {| state := state w; count := count w; entries := h |}.

(** [case 'habit'] *)
Definition case_habit (headerMap : JsObj nat) (row : list string)
    (key : Value) (data : list HabitData) : Result (list HabitData) :=
  let habitIndex := parseInt key in
  let habitName := cell headerMap row "name" in
  let habitColor := cell headerMap row "color" in
  let data := pad_habits habitIndex data in
  found <-- habit_at habitIndex data ;;
  let '(i, old) := found in
  Ok (<[i := {| name_color := Some (habitName, habitColor);
                dates := dates old |}]> data).

(** [case 'habit_history']; [key.split] needs [key] to be a string. *)
Definition case_habit_history (key value : Value) (data : list HabitData)
  : Result (list HabitData) :=
  match key with
  | VStr k =>
      let parts := split_on underscore k EmptyString in
      let habitIdx := opt_str (parts !! 0%nat) in
      let historyDate := opt_str (parts !! 1%nat) in
      let status := value in
      let idx := parseInt habitIdx in
      let data := pad_habits idx data in
      found <-- habit_at idx data ;;
      let '(i, old) := found in
      Ok (<[i := {| name_color := name_color old;
                    dates := obj_set (String_ historyDate) status (dates old) |}]>
            data)
  | _ => Throw TypeError
  end.

(** [case 'settings'] *)
Definition case_settings (key value : Value) (s : SettingsData) : SettingsData :=
  {| theme := if is_str key "theme" then value else theme s;
     reminder := if is_str key "reminder" then value else reminder s |}.

(** The body of the loop over the data rows: the three cells read from
    every row and the [switch] on [dataType]. *)
Definition process_row (headerMap : JsObj nat) (d : Imported)
    (row : list string) : Result Imported :=
  let dataType := cell headerMap row "data_type" in
  let key := cell headerMap row "key" in
  let value := cell headerMap row "value" in
  if is_str dataType "meta" then Ok (case_meta key value d)
  else if is_str dataType "water" then
    Ok (set_water (case_tracker key value (water d)) d)
  else if is_str dataType "water_history" then
    t <-- case_tracker_history headerMap row (water d) ;; Ok (set_water t d)
  else if is_str dataType "protein" then
    Ok (set_protein (case_tracker key value (protein d)) d)
  else if is_str dataType "protein_history" then
    t <-- case_tracker_history headerMap row (protein d) ;; Ok (set_protein t d)
  else if is_str dataType "workout_state" then
    Ok (set_workout (case_workout_state headerMap row (workout d)) d)
  else if is_str dataType "workout_count" then
    Ok (set_workout (case_workout_count headerMap row (workout d)) d)
  else if is_str dataType "workout_history" then
    w <-- case_workout_history headerMap row (workout d) ;; Ok (set_workout w d)
  else if is_str dataType "habit" then
    h <-- case_habit headerMap row key (habits d) ;; Ok (set_habits h d)
  else if is_str dataType "habit_history" then
    h <-- case_habit_history key value (habits d) ;; Ok (set_habits h d)
  else if is_str dataType "settings" then
    Ok (set_settings (case_settings key value (settings d)) d)
  else Ok d.

(** The loop [for (let i = 1; i < rows.length; i++)]: blank rows are
    skipped, every other row is tokenized and dispatched. *)
Fixpoint process_rows (headerMap : JsObj nat) (d : Imported)
    (rows : list string) : Result Imported :=
  match rows with
  | [] => Ok d
  | r :: rest =>
      if is_blank r then process_rows headerMap d rest
      else d' <-- process_row headerMap d (parseCSVRow r) ;;
           process_rows headerMap d' rest
  end.

Definition empty_tracker : TrackerData :=
  {| goal := VNull; intake := VNull; history := [] |}.

(** The initial [importedData]. *)
Definition initial_imported (P : Platform) : Imported :=
  {| version := VStr "3.0";
     exportDate := VStr (now P);
     water := empty_tracker;
     protein := empty_tracker;
     workout := {| state := []; count := []; entries := [] |};
     habits := [];
     settings := {| theme := VNull; reminder := VNull |} |}.

Definition history_value (h : JsObj (list Value)) : Value :=
  VObj (map (fun '(date, es) => (date, VArr es)) h).

Definition habit_value (h : HabitData) : Value :=
  VObj (match name_color h with
        | Some (n, c) => [("name", n); ("color", c)]
        | None => []
        end ++ [("history", VObj (dates h))])%list.

(** The object [parseCSVData] returns. *)
Definition to_import_format (P : Platform) (d : Imported) : ImportedData :=
  {| data_version := version d;
     data_exportDate := exportDate d;
     water_goal := goal (water d);
     water_intake := intake (water d);
     water_history := JSON_stringify P (history_value (history (water d)));
     protein_goal := goal (protein d);
     protein_intake := intake (protein d);
     protein_history := JSON_stringify P (history_value (history (protein d)));
     workout_state := JSON_stringify P (VObj (state (workout d)));
     workout_count := JSON_stringify P (VObj (count (workout d)));
     workout_history := JSON_stringify P (history_value (entries (workout d)));
     habits_data := JSON_stringify P (VArr (map habit_value (habits d)));
     settings_theme := theme (settings d);
     settings_reminder := reminder (settings d) |}.

(** [parseCSVData] up to the conversion of the result: the rows are
    split, the header row gives the column map, the data rows are
    folded into [importedData]. *)
Definition parse_rows (P : Platform) (csvData : string) : Result Imported :=
  let rows := split_lines csvData EmptyString in
  if (length rows <? 2)%nat then Throw (Error "Invalid CSV file format")
  else
    let headerMap := build_headerMap (parseCSVRow (hd EmptyString rows)) in
    process_rows headerMap (initial_imported P) (tl rows).

Definition parseCSVData (P : Platform) (csvData : string) : Result ImportedData :=
  d <-- parse_rows P csvData ;; Ok (to_import_format P d).

(** The [data_type] tags the [switch] of [parseCSVData] has a case for. *)
Definition recognized_kinds : list string :=
  [ "meta"; "water"; "water_history"; "protein"; "protein_history";
    "workout_state"; "workout_count"; "workout_history"; "habit";
    "habit_history"; "settings" ].

(** The [data_type] cell of a row of the file. *)
Definition row_kind (headerMap : JsObj nat) (r : string) : Value :=
  cell headerMap (parseCSVRow r) "data_type".

Definition recognized (kind : Value) : bool :=
  existsb (is_str kind) recognized_kinds.

Definition habit_kind (kind : Value) : bool :=
  is_str kind "habit" || is_str kind "habit_history".

(** The dates the element at [i] carries over: its own if the sequence
    reached that far, none if the element is a fresh placeholder. *)
Definition dates_at (i : nat) (data : list HabitData) : JsObj Value :=
  match data !! i with
  | Some h => dates h
  | None => []
  end.


(** ** The storage manager *)

(** The toasts this part of the program shows, by the message of the
    source: storage cleaned up to make room, error saving data, storage
    full (one wording for iOS, one for the rest), import failed with the
    message of the exception, data exported, error exporting data with
    the exception. *)
Inductive Message : Type :=
| StorageCleanedUp
| SaveError
| StorageFull (ios : bool)
| ImportFailed (message : string)
| ExportSucceeded
| ExportFailed (e : Exn).

(** What the program does to its surroundings: a call of
    [localStorage.setItem] with what it raised, and a toast. *)
Inductive Event : Type :=
| SetItem (key value : string) (thrown : option Exn)
| ShowToast (message : Message).

Record World : Type := {
  storage : gmap string string;
  trace : list Event
}.

Definition emit (e : Event) (w : World) : World :=
  {| storage := storage w; trace := (trace w ++ [e])%list |}.

(** [localStorage.getItem(k)] *)
Definition getItem (store : gmap string string) (k : string) : Value :=
  match store !! k with
  | Some s => VStr s
  | None => VNull
  end.

(** [localStorage.setItem(k, v)] *)
Definition setItem (P : Platform) (k v : string) (w : World)
  : Result unit * World :=
  match setItem_throws P (storage w) k v with
  | Some e => (Throw e, emit (SetItem k v (Some e)) w)
  | None =>
      (Ok tt, {| storage := <[k := v]> (storage w);
                 trace := (trace w ++ [SetItem k v None])%list |})
  end.

(** [getUsage]: the lengths of every key and value, skipping a pair
    whose key or value is empty. *)
Definition getUsage (store : gmap string string) : Z :=
  foldr (fun '(key, value) total =>
           if negb (String.eqb key EmptyString)
              && negb (String.eqb value EmptyString)
           then total + Z.of_nat (String.length key)
                + Z.of_nat (String.length value)
           else total)
        0 (map_to_list store).

Definition maxSize (P : Platform) : Z :=
  if isIOS P then 2 * 1024 * 1024 else 5 * 1024 * 1024.

(** The near-quota threshold in tenths: 0.7 on iOS, 0.9 elsewhere. *)
Definition threshold_tenths (P : Platform) : Z := if isIOS P then 7 else 9.

Definition getRemainingSpace (P : Platform) (store : gmap string string) : Z :=
  maxSize P - getUsage store.

(** [isNearQuota]: [currentUsage > maxSize * threshold]. The product is
    1468006.4 on iOS and 4718592 elsewhere; the floating-point product
    lies strictly between 1468006 and 1468007 in the first case and is
    exactly 4718592 in the second, so for an integer usage the
    comparison is the one on tenths below. *)
Definition isNearQuota (P : Platform) (store : gmap string string) : bool :=
  let currentUsage := getUsage store in
  maxSize P * threshold_tenths P <? currentUsage * 10.

Definition daysToKeep (P : Platform) : nat := if isIOS P then 30%nat else 90%nat.

Definition historyKeys : list string :=
  [ "history_water"; "history_protein"; "workout_history"; "habits_data" ].

(** [keys.sort()]: ascending by code units. *)
Fixpoint insert_sorted (k : string) (l : list string) : list string :=
  match l with
  | [] => [k]
  | x :: rest =>
      if String.leb k x then k :: l else x :: insert_sorted k rest
  end.

Definition sort_keys (l : list string) : list string := foldr insert_sorted [] l.

(** [Object.keys(v)] *)
Definition Object_keys (v : Value) : list string :=
  match v with
  | VObj o => obj_keys o
  | VArr items => map nat_to_string (seq 0 (length items))
  | VStr s => map nat_to_string (seq 0 (String.length s))
  | _ => []
  end.

Definition mem (k : string) (ks : list string) : bool :=
  existsb (String.eqb k) ks.

(** [ks.forEach(k => delete v[k])]. Deleting an element of an array
    leaves a hole, which [JSON.stringify] prints as it prints
    [undefined]; a character of a string cannot be deleted. *)
Definition delete_keys (ks : list string) (v : Value) : Value :=
  match v with
  | VObj o => VObj (List.filter (fun '(k, _) => negb (mem k ks)) o)
  | VArr items =>
      VArr (map (fun '(i, x) => if mem (nat_to_string i) ks then VUndef else x)
                (indexed items))
  | _ => v
  end.

(** The trimming of one date-keyed mapping: the sorted keys, and the
    mapping without the first [length - keep] of them when there are
    more than [keep]. *)
Definition datesToRemove (keep : nat) (v : Value) : list string :=
  let dates := sort_keys (Object_keys v) in
  firstn (length dates - keep) dates.

Definition trim_dates (keep : nat) (v : Value) : option Value :=
  let dates := sort_keys (Object_keys v) in
  if (keep <? length dates)%nat then Some (delete_keys (datesToRemove keep v) v)
  else None.

(** [v.p] for the property names this program reads ([amount],
    [timestamp], [type], [count], [name], [color], [history],
    [completed], [order]): none of them is inherited by an array, a
    string, a number or a boolean. *)
Definition get_prop (p : string) (v : Value) : Result Value :=
  match v with
  | VObj o => Ok (match obj_get p o with Some x => x | None => VUndef end)
  | VNull | VUndef => Throw TypeError
  | _ => Ok VUndef
  end.

(** The habit after the deletions in its history. *)
Definition with_history (habit h : Value) : Value :=
  match habit with
  | VObj o => VObj (obj_replace "history" h o)
  | _ => habit
  end.

(** [history.forEach(habit => ...)] of [cleanupOldData], with the flag
    [cleanedUp] it shares with the other keys. An exception ends the
    loop; the flag keeps what it was set to before. *)
Fixpoint cleanup_habits (keep : nat) (items : list Value) (cleanedUp : bool)
  : bool * Result (list Value) :=
  match items with
  | [] => (cleanedUp, Ok [])
  | habit :: rest =>
      match get_prop "history" habit with
      | Throw e => (cleanedUp, Throw e)
      | Ok h =>
          let '(habit', cleanedUp') :=
            if truthy h then
              match trim_dates keep h with
              | Some h' => (with_history habit h', true)
              | None => (habit, cleanedUp)
              end
            else (habit, cleanedUp) in
          let '(cleanedUp'', r) := cleanup_habits keep rest cleanedUp' in
          (cleanedUp'', rest' <-- r ;; Ok (habit' :: rest'))
      end
  end.

(** [typeof v === 'object' && v !== null] *)
Definition is_object (v : Value) : bool :=
  match v with VArr _ | VObj _ => true | _ => false end.

(** The body of [historyKeys.forEach(key => ...)] in [cleanupOldData]:
    whatever is raised inside is caught and the next key is tried. The
    first branch is taken for [habits_data] holding an array, the
    [standard] one for any other object. *)
Definition cleanup_key (P : Platform) (key : string) (acc : bool * World)
  : bool * World :=
  let '(cleanedUp, w) := acc in
  match getItem (storage w) key with
  | VStr historyData =>
      if String.eqb historyData EmptyString then (cleanedUp, w)
      else
        match JSON_parse P historyData with
        | None => (cleanedUp, w)
        | Some history =>
            let standard :=
              if is_object history then
                match trim_dates (daysToKeep P) history with
                | Some history' =>
                    match setItem P key (JSON_stringify P history') w with
                    | (Ok _, w') => (true, w')
                    | (Throw _, w') => (cleanedUp, w')
                    end
                | None => (cleanedUp, w)
                end
              else (cleanedUp, w) in
            match history with
            | VArr items =>
                if String.eqb key "habits_data" then
                  let '(cleanedUp', r) :=
                    cleanup_habits (daysToKeep P) items cleanedUp in
                  match r with
                  | Ok items' =>
                      if cleanedUp' then
                        (cleanedUp',
                         snd (setItem P key (JSON_stringify P (VArr items')) w))
                      else (cleanedUp', w)
                  | Throw _ => (cleanedUp', w)
                  end
                else standard
            | _ => standard
            end
        end
  | _ => (cleanedUp, w)
  end.

Definition cleanupOldData (P : Platform) (w : World) : bool * World :=
  fold_left (fun acc key => cleanup_key P key acc) historyKeys (false, w).

(** The test of [safeSetItem] on what [setItem] raised: the [name] is
    one of the two quota names, or the [code] is 22. *)
Definition is_quota_error (e : Exn) : bool :=
  match e with
  | DOMException name code =>
      String.eqb name "QuotaExceededError"
      || String.eqb name "NS_ERROR_DOM_QUOTA_REACHED"
      || (code =? 22)
  | _ => false
  end.

Definition showToast (m : Message) (w : World) : World := emit (ShowToast m) w.

Definition handleStorageFull (P : Platform) (w : World) : World :=
  showToast (StorageFull (isIOS P)) w.

Definition safeSetItem (P : Platform) (key value : string) (w : World)
  : bool * World :=
  match setItem P key value w with
  | (Ok _, w1) => (true, w1)
  | (Throw e, w1) =>
      if is_quota_error e then
        let '(cleaned, w2) := cleanupOldData P w1 in
        if cleaned then
          match setItem P key value w2 with
          | (Ok _, w3) => (true, showToast StorageCleanedUp w3)
          | (Throw _, w3) => (false, handleStorageFull P w3)
          end
        else (false, handleStorageFull P w2)
      else (false, showToast SaveError w1)
  end.

(** ** Import *)

(** One guarded write of [performDataImport]:
    [if (v) { if (!safeSetItem(key, v)) throw new Error(...) }]. *)
Definition import_field (P : Platform) (label key : string) (v : Value)
    (w : World) : Result unit * World :=
  if truthy v then
    let '(ok, w') := safeSetItem P key (String_ v) w in
    if ok then (Ok tt, w')
    else (Throw (Error ("Failed to import " +:+ label)), w')
  else (Ok tt, w).

(** One write of the settings: the result of [safeSetItem] is dropped. *)
Definition import_setting (P : Platform) (key : string) (v : Value)
    (w : World) : Result unit * World :=
  if truthy v then (Ok tt, snd (safeSetItem P key (String_ v) w))
  else (Ok tt, w).

(** Statements in sequence: an exception skips what follows. *)
Definition andThen (a b : World -> Result unit * World) (w : World)
  : Result unit * World :=
  match a w with
  | (Ok _, w') => b w'
  | (Throw e, w') => (Throw e, w')
  end.

Notation "a >> b" := (andThen a b) (at level 62, right associativity).

(** The [try] block of [performDataImport]. The backup it takes first
    is a local copy that nothing reads. The objects [workout], [habits]
    and [settings] it tests are the ones [parseCSVData] always builds. *)
Definition import_writes (P : Platform) (d : ImportedData)
  : World -> Result unit * World :=
  import_field P "water goal" "goal_water" (water_goal d) >>
  import_field P "water intake" "intake_water" (water_intake d) >>
  import_field P "water history" "history_water" (VStr (water_history d)) >>
  import_field P "protein goal" "goal_protein" (protein_goal d) >>
  import_field P "protein intake" "intake_protein" (protein_intake d) >>
  import_field P "protein history" "history_protein" (VStr (protein_history d)) >>
  import_field P "workout state" "workout_state" (VStr (workout_state d)) >>
  import_field P "workout count" "workout_count" (VStr (workout_count d)) >>
  import_field P "workout history" "workout_history" (VStr (workout_history d)) >>
  import_field P "habits data" "habits_data" (VStr (habits_data d)) >>
  import_setting P "app_theme" (settings_theme d) >>
  import_setting P "global_reminder" (settings_reminder d).

(** The message of an exception, where the program sets it. *)
Definition message_of (e : Exn) : string :=
  match e with
  | Error m => m
  | _ => EmptyString
  end.

Definition performDataImport (P : Platform) (d : ImportedData) (w : World)
  : bool * World :=
  match import_writes P d w with
  | (Ok _, w') => (true, w')
  | (Throw storageError, w') =>
      (false, showToast (ImportFailed (message_of storageError)) w')
  end.

(** ** Export *)

(** [Object.entries(v)]: own properties of an object, elements of an
    array by index, characters of a string by index; nothing for a
    number or a boolean. *)
Definition Object_entries (v : Value) : Result (list (string * Value)) :=
  match v with
  | VObj o => Ok o
  | VArr items =>
      Ok (map (fun '(i, x) => (nat_to_string i, x)) (indexed items))
  | VStr s =>
      Ok (map (fun '(i, c) => (nat_to_string i, VStr (str1 c)))
              (indexed (list_ascii_of_string s)))
  | VNum _ | VBool _ => Ok []
  | VNull | VUndef => Throw TypeError
  end.

(** [v.forEach(...)]: only an array has the method. *)
Definition forEach_items (v : Value) : Result (list Value) :=
  match v with
  | VArr items => Ok items
  | _ => Throw TypeError
  end.

(** [JSON.parse(localStorage.getItem(k) || fallback)] *)
Definition read_json (P : Platform) (store : gmap string string)
    (k fallback : string) : Result Value :=
  let text :=
    match getItem store k with
    | VStr s => if String.eqb s EmptyString then fallback else s
    | _ => fallback
    end in
  match JSON_parse P text with
  | Some v => Ok v
  | None => Throw SyntaxError
  end.

(** A row with the given cells set, the others empty. *)
Definition make_row (cells : list (nat * Value)) : list Value :=
  fold_left (fun row '(i, v) => set_col i v row) cells empty_row.

(** The key of a history row: the date, an underscore, the position. *)
Definition entry_key (date : string) (index : nat) : string :=
  date +:+ str1 underscore +:+ nat_to_string index.

(** The rows of [history_water] and [history_protein]. *)
Definition tracker_history_rows (tag : string) (history : Value)
  : Result (list string) :=
  dates <-- Object_entries history ;;
  rows <-- mapM (fun '(date, es) =>
             items <-- forEach_items es ;;
             mapM (fun '(index, entry) =>
                     amount <-- get_prop "amount" entry ;;
                     timestamp <-- get_prop "timestamp" entry ;;
                     Ok (csv_line (make_row
                           [(0%nat, VStr tag);
                            (1%nat, VStr (entry_key date index));
                            (3%nat, VStr date);
                            (4%nat, amount);
                            (5%nat, timestamp)])))
                  (indexed items))
           dates ;;
  Ok (concat rows).

Definition workout_state_rows (workoutState : Value) : Result (list string) :=
  types <-- Object_entries workoutState ;;
  mapM (fun '(type, st) =>
          completed <-- get_prop "completed" st ;;
          order <-- get_prop "order" st ;;
          Ok (csv_line (make_row
                [(0%nat, VStr "workout_state"); (1%nat, VStr type);
                 (6%nat, VStr type); (10%nat, completed); (11%nat, order)])))
       types.

Definition workout_count_rows (workoutCount : Value) : Result (list string) :=
  types <-- Object_entries workoutCount ;;
  Ok (map (fun '(type, n) =>
             csv_line (make_row
               [(0%nat, VStr "workout_count"); (1%nat, VStr type);
                (6%nat, VStr type); (7%nat, n)]))
          types).

Definition workout_history_rows (workoutHistory : Value) : Result (list string) :=
  dates <-- Object_entries workoutHistory ;;
  rows <-- mapM (fun '(date, es) =>
             items <-- forEach_items es ;;
             mapM (fun '(index, entry) =>
                     timestamp <-- get_prop "timestamp" entry ;;
                     type <-- get_prop "type" entry ;;
                     n <-- get_prop "count" entry ;;
                     Ok (csv_line (make_row
                           [(0%nat, VStr "workout_history");
                            (1%nat, VStr (entry_key date index));
                            (3%nat, VStr date);
                            (5%nat, timestamp);
                            (6%nat, type);
                            (7%nat, n)])))
                  (indexed items))
           dates ;;
  Ok (concat rows).

(** The row of a habit followed by the rows of its history. *)
Definition habit_rows (habitIndex : nat) (habit : Value) : Result (list string) :=
  name <-- get_prop "name" habit ;;
  color <-- get_prop "color" habit ;;
  let row := csv_line (make_row
               [(0%nat, VStr "habit"); (1%nat, VStr (nat_to_string habitIndex));
                (8%nat, name); (9%nat, color)]) in
  h <-- get_prop "history" habit ;;
  if truthy h then
    days <-- Object_entries h ;;
    Ok (row :: map (fun '(date, status) =>
                      csv_line (make_row
                        [(0%nat, VStr "habit_history");
                         (1%nat, VStr (nat_to_string habitIndex
                                       +:+ str1 underscore +:+ date));
                         (2%nat, status);
                         (3%nat, VStr date)]))
                   days)
  else Ok [row].

Definition habits_rows (habitsData : Value) : Result (list string) :=
  items <-- forEach_items habitsData ;;
  rows <-- mapM (fun '(habitIndex, habit) => habit_rows habitIndex habit)
                (indexed items) ;;
  Ok (concat rows).

(** [convertDataToCSV]: the rows in the order the source pushes them,
    joined by line feeds. An exception anywhere ends the function. *)
Definition convertDataToCSV (P : Platform) (store : gmap string string)
  : Result string :=
  let head :=
    [ join (str1 comma) headers;
      addRow "meta" "version" (VStr "3.0");
      addRow "meta" "exportDate" (VStr (now P));
      addRow "water" "goal" (getItem store "goal_water");
      addRow "water" "intake" (getItem store "intake_water") ] in
  waterHistory <-- read_json P store "history_water" "{}" ;;
  waterRows <-- tracker_history_rows "water_history" waterHistory ;;
  let proteinHead :=
    [ addRow "protein" "goal" (getItem store "goal_protein");
      addRow "protein" "intake" (getItem store "intake_protein") ] in
  proteinHistory <-- read_json P store "history_protein" "{}" ;;
  proteinRows <-- tracker_history_rows "protein_history" proteinHistory ;;
  workoutState <-- read_json P store "workout_state" "{}" ;;
  stateRows <-- workout_state_rows workoutState ;;
  workoutCount <-- read_json P store "workout_count" "{}" ;;
  countRows <-- workout_count_rows workoutCount ;;
  workoutHistory <-- read_json P store "workout_history" "{}" ;;
  historyRows <-- workout_history_rows workoutHistory ;;
  habitsData <-- read_json P store "habits_data" "[]" ;;
  habitRows <-- habits_rows habitsData ;;
  let tail :=
    [ addRow "settings" "theme" (getItem store "app_theme");
      addRow "settings" "reminder" (getItem store "global_reminder") ] in
  Ok (join (str1 newline)
        (head ++ waterRows ++ proteinHead ++ proteinRows ++ stateRows
         ++ countRows ++ historyRows ++ habitRows ++ tail)%list).

(** What [exportData] hands over: the file, or nothing. *)
Record Artifact : Type := {
  fileName : string;
  content : string
}.

(** [exportData]: the text is offered as a file named after the date;
    an exception raised while it is built is caught and reported. *)
Definition exportData (P : Platform) (w : World) : option Artifact * World :=
  match convertDataToCSV P (storage w) with
  | Ok csvString =>
      (Some {| fileName := "health-tracker-export-"
                           +:+ String.substring 0 10 (now P) +:+ ".csv";
               content := csvString |},
       showToast ExportSucceeded w)
  | Throw error => (None, showToast (ExportFailed error) w)
  end.

(** ** A reference platform

    A JSON printer and reader for the values of this development
    (integers for numbers, code units below 256), and a browser whose
    storage holds a fixed number of characters. They give the
    properties below concrete instances to run on. *)

Module RefJSON.

Definition backslash : ascii := Eval cbv in ascii_of_nat 92.

Definition hex_digit (n : nat) : ascii :=
  nth n (list_ascii_of_string "0123456789abcdef") "0"%char.

Definition escape_char (c : ascii) : string :=
  let n := nat_of_ascii c in
  if Ascii.eqb c dquote then String backslash (str1 dquote)
  else if Ascii.eqb c backslash then String backslash (str1 backslash)
  else if (n =? 8)%nat then "\b"
  else if (n =? 12)%nat then "\f"
  else if (n =? 10)%nat then "\n"
  else if (n =? 13)%nat then "\r"
  else if (n =? 9)%nat then "\t"
  else if (n <? 32)%nat then
    "\u00" +:+ String (hex_digit (n / 16)) (str1 (hex_digit (n mod 16)))
  else str1 c.

Fixpoint escape_chars (s : string) : string :=
  match s with
  | EmptyString => EmptyString
  | String c rest => escape_char c +:+ escape_chars rest
  end.

Definition quote (s : string) : string :=
  String dquote (escape_chars s +:+ str1 dquote).

(** [JSON.stringify]: [NaN] prints as [null], a missing array element
    as [null], a property whose value is [undefined] not at all. *)
Fixpoint stringify (v : Value) : string :=
  match v with
  | VUndef => "undefined"
  | VNull => "null"
  | VBool true => "true"
  | VBool false => "false"
  | VNum NaN => "null"
  | VNum (Num z) => Z_to_string z
  | VStr s => quote s
  | VArr items =>
      "[" +:+ join ","
                (map (fun x => match x with
                               | VUndef => "null"
                               | _ => stringify x
                               end) items)
          +:+ "]"
  | VObj props =>
      "{" +:+ join ","
                ((fix members (ps : list (string * Value)) : list string :=
                    match ps with
                    | [] => []
                    | (_, VUndef) :: rest => members rest
                    | (k, x) :: rest =>
                        (quote k +:+ ":" +:+ stringify x) :: members rest
                    end) props)
          +:+ "}"
  end.

Definition is_ws (c : ascii) : bool :=
  let n := nat_of_ascii c in
  ((n =? 32) || (n =? 9) || (n =? 10) || (n =? 13))%nat.

Fixpoint skip_ws (s : string) : string :=
  match s with
  | String c rest => if is_ws c then skip_ws rest else s
  | EmptyString => s
  end.

Fixpoint strip_prefix (p s : string) : option string :=
  match p, s with
  | EmptyString, _ => Some s
  | String a p', String b s' => if Ascii.eqb a b then strip_prefix p' s' else None
  | _, _ => None
  end.

Definition hex4 (a b c d : ascii) : option Z :=
  match digit_value 16 a, digit_value 16 b, digit_value 16 c, digit_value 16 d with
  | Some x, Some y, Some z, Some t => Some (((x * 16 + y) * 16 + z) * 16 + t)
  | _, _, _, _ => None
  end.

(** The characters of a string after its opening quote, up to the
    closing one. *)
Fixpoint read_string (s acc : string) : option (string * string) :=
  match s with
  | EmptyString => None
  | String c rest =>
      if Ascii.eqb c dquote then Some (acc, rest)
      else if Ascii.eqb c backslash then
        match rest with
        | String e rest' =>
            let simple (n : nat) := read_string rest' (acc +:+ str1 (ascii_of_nat n)) in
            if Ascii.eqb e dquote then simple 34%nat
            else if Ascii.eqb e backslash then simple 92%nat
            else if Ascii.eqb e "/"%char then simple 47%nat
            else if Ascii.eqb e "b"%char then simple 8%nat
            else if Ascii.eqb e "f"%char then simple 12%nat
            else if Ascii.eqb e "n"%char then simple 10%nat
            else if Ascii.eqb e "r"%char then simple 13%nat
            else if Ascii.eqb e "t"%char then simple 9%nat
            else if Ascii.eqb e "u"%char then
              match rest' with
              | String h1 (String h2 (String h3 (String h4 rest''))) =>
                  match hex4 h1 h2 h3 h4 with
                  | Some code =>
                      if code <? 256
                      then read_string rest''
                             (acc +:+ str1 (ascii_of_nat (Z.to_nat code)))
                      else None
                  | None => None
                  end
              | _ => None
              end
            else None
        | EmptyString => None
        end
      else if (nat_of_ascii c <? 32)%nat then None
      else read_string rest (acc +:+ str1 c)
  end.

Fixpoint read_int_digits (s : string) (acc : Z) : Z * string :=
  match s with
  | String c rest =>
      match digit_value 10 c with
      | Some d => read_int_digits rest (acc * 10 + d)
      | None => (acc, s)
      end
  | EmptyString => (acc, s)
  end.

(** An integer literal; a fraction or an exponent is outside the
    values modelled. *)
Definition read_number (s : string) : option (Z * string) :=
  let '(neg, s1) :=
    match s with
    | String c rest => if Ascii.eqb c "-"%char then (true, rest) else (false, s)
    | EmptyString => (false, s)
    end in
  match s1 with
  | String c rest =>
      match digit_value 10 c with
      | Some d =>
          let '(n, s2) := if d =? 0 then (0, rest) else read_int_digits rest d in
          match s2 with
          | String x _ =>
              if Ascii.eqb x "."%char || Ascii.eqb x "e"%char || Ascii.eqb x "E"%char
              then None else Some (if neg then - n else n, s2)
          | EmptyString => Some (if neg then - n else n, s2)
          end
      | None => None
      end
  | EmptyString => None
  end.

Fixpoint read_value (fuel : nat) (s : string) : option (Value * string) :=
  match fuel with
  | O => None
  | S fuel' =>
      match skip_ws s with
      | EmptyString => None
      | String c rest =>
          if Ascii.eqb c "{"%char then
            match skip_ws rest with
            | String c' rest' =>
                if Ascii.eqb c' "}"%char then Some (VObj [], rest')
                else read_members fuel' rest []
            | EmptyString => None
            end
          else if Ascii.eqb c "["%char then
            match skip_ws rest with
            | String c' rest' =>
                if Ascii.eqb c' "]"%char then Some (VArr [], rest')
                else read_items fuel' rest []
            | EmptyString => None
            end
          else if Ascii.eqb c dquote then
            match read_string rest EmptyString with
            | Some (str, rest') => Some (VStr str, rest')
            | None => None
            end
          else if Ascii.eqb c "t"%char then
            option_map (fun r => (VBool true, r)) (strip_prefix "rue" rest)
          else if Ascii.eqb c "f"%char then
            option_map (fun r => (VBool false, r)) (strip_prefix "alse" rest)
          else if Ascii.eqb c "n"%char then
            option_map (fun r => (VNull, r)) (strip_prefix "ull" rest)
          else
            option_map (fun '(n, r) => (VNum (Num n), r))
                       (read_number (String c rest))
      end
  end
with read_items (fuel : nat) (s : string) (acc : list Value)
  : option (Value * string) :=
  match fuel with
  | O => None
  | S fuel' =>
      match read_value fuel' s with
      | Some (v, rest) =>
          match skip_ws rest with
          | String c r =>
              if Ascii.eqb c comma then read_items fuel' r (acc ++ [v])%list
              else if Ascii.eqb c "]"%char then Some (VArr (acc ++ [v])%list, r)
              else None
          | EmptyString => None
          end
      | None => None
      end
  end
with read_members (fuel : nat) (s : string) (acc : JsObj Value)
  : option (Value * string) :=
  match fuel with
  | O => None
  | S fuel' =>
      match skip_ws s with
      | String q rest =>
          if Ascii.eqb q dquote then
            match read_string rest EmptyString with
            | Some (k, rest1) =>
                match skip_ws rest1 with
                | String colon rest2 =>
                    if Ascii.eqb colon ":"%char then
                      match read_value fuel' rest2 with
                      | Some (v, rest3) =>
                          let acc' := obj_define k v acc in
                          match skip_ws rest3 with
                          | String c r =>
                              if Ascii.eqb c comma then read_members fuel' r acc'
                              else if Ascii.eqb c "}"%char then Some (VObj acc', r)
                              else None
                          | EmptyString => None
                          end
                      | None => None
                      end
                    else None
                | EmptyString => None
                end
            | None => None
            end
          else None
      | EmptyString => None
      end
  end.

(** [JSON.parse]: one value, then nothing but white space. *)
Definition parse (s : string) : option Value :=
  match read_value (2 * String.length s + 2) s with
  | Some (v, rest) =>
      match skip_ws rest with
      | EmptyString => Some v
      | _ => None
      end
  | None => None
  end.

End RefJSON.

(** The characters a store holds. *)
Definition stored_size (store : gmap string string) : Z :=
  foldr (fun '(k, v) total =>
           total + Z.of_nat (String.length k) + Z.of_nat (String.length v))
        0 (map_to_list store).

(** A browser whose storage holds at most [capacity] characters: a
    write that would exceed it raises [QuotaExceededError], code 22. *)
Definition ref_platform (ios : bool) (capacity : Z) : Platform :=
  {| isIOS := ios;
     now := "2024-03-05T08:30:00.000Z";
     JSON_parse := RefJSON.parse;
     JSON_stringify := RefJSON.stringify;
     setItem_throws := fun store k v =>
       if capacity <? stored_size (<[k := v]> store)
       then Some (DOMException "QuotaExceededError" 22)
       else None |}.

(** A string of [n] copies of one character. *)
Fixpoint repeat_char (c : ascii) (n : nat) : string :=
  match n with
  | O => EmptyString
  | S n' => String c (repeat_char c n')
  end.

(** A store on the standard tier whose usage is the boundary itself:
    one key of one character, one value of 4718591 characters. *)
Definition boundary_store : gmap string string :=
  {[ "k" := repeat_char "x"%char (N.to_nat 4718591) ]}.

(** ** Vocabulary of the properties *)

(** Some write in [evs] raised a quota error. *)
Definition quota_raised (evs : list Event) : Prop :=
  exists k v e, In (SetItem k v (Some e)) evs /\ is_quota_error e = true.

(** From [w] to [w'] the trace only grew, every call of [setItem] was
    for one of [keys], and what is stored under any other key is what
    it was. *)
Definition only_wrote (keys : list string) (w w' : World) : Prop :=
  exists evs,
    trace w' = (trace w ++ evs)%list
    /\ (forall k v r, In (SetItem k v r) evs -> In k keys)
    /\ (forall k, ~ In k keys -> storage w' !! k = storage w !! k).

(** From [w] to [w'] no call of [setItem] was for [k] and the value
    stored under [k] is what it was, unless [k] is a history key and a
    quota error was raised on the way. *)
Definition kept_or_trimmed (k : string) (w w' : World) : Prop :=
  exists evs,
    trace w' = (trace w ++ evs)%list
    /\ ((storage w' !! k = storage w !! k
         /\ forall v r, ~ In (SetItem k v r) evs)
        \/ (In k historyKeys /\ quota_raised evs)).

(** The fields [performDataImport] applies. *)
Inductive Field : Type :=
| WaterGoal | WaterIntake | WaterHistory
| ProteinGoal | ProteinIntake | ProteinHistory
| WorkoutState | WorkoutCount | WorkoutHistory
| HabitsData
| SettingsTheme | SettingsReminder.

Definition field_value (d : ImportedData) (f : Field) : Value :=
  match f with
  | WaterGoal => water_goal d
  | WaterIntake => water_intake d
  | WaterHistory => VStr (water_history d)
  | ProteinGoal => protein_goal d
  | ProteinIntake => protein_intake d
  | ProteinHistory => VStr (protein_history d)
  | WorkoutState => VStr (workout_state d)
  | WorkoutCount => VStr (workout_count d)
  | WorkoutHistory => VStr (workout_history d)
  | HabitsData => VStr (habits_data d)
  | SettingsTheme => settings_theme d
  | SettingsReminder => settings_reminder d
  end.

Definition field_key (f : Field) : string :=
  match f with
  | WaterGoal => "goal_water"
  | WaterIntake => "intake_water"
  | WaterHistory => "history_water"
  | ProteinGoal => "goal_protein"
  | ProteinIntake => "intake_protein"
  | ProteinHistory => "history_protein"
  | WorkoutState => "workout_state"
  | WorkoutCount => "workout_count"
  | WorkoutHistory => "workout_history"
  | HabitsData => "habits_data"
  | SettingsTheme => "app_theme"
  | SettingsReminder => "global_reminder"
  end.

(** A fresh profile: nothing stored, nothing done yet. *)
Definition empty_world : World := {| storage := ∅; trace := [] |}.

(** ** Sample inputs *)

(** A file with a header and one settings row. *)
Definition theme_only_csv : string :=
  "data_type,key,value" +:+ str1 newline +:+ "settings,theme,dark".

(** A file with a header and one goal row. *)
Definition goal_only_csv : string :=
  "data_type,key,value" +:+ str1 newline +:+ "water,goal,2000".

(** A file whose one data row is a habit with index 5. *)
Definition sparse_habit_row : string := "habit,5,,,,,,,Read,#ff0000,,".

Definition sparse_habit_csv : string :=
  join (str1 comma) headers +:+ str1 newline +:+ sparse_habit_row.

(** A file with a row of a kind the parser does not know. *)
Definition unknown_kind_csv : string :=
  "data_type,key,value" +:+ str1 newline +:+ "mood,today,fine"
  +:+ str1 newline +:+ "water,goal,2000".

Definition two_digits (n : nat) : string :=
  if (n <? 10)%nat then "0" +:+ nat_to_string n else nat_to_string n.

(** A water history with one entry on each day of January 2024. *)
Definition january_days : JsObj Value :=
  map (fun day =>
         ("2024-01-" +:+ two_digits day,
          VArr [VObj [("amount", VNum (Num 250));
                      ("timestamp",
                       VStr ("2024-01-" +:+ two_digits day +:+ "T08:00:00Z"))]]))
      (seq 1 31).

Definition january : Value := VObj january_days.

(** A store that holds that history and has no room for more. *)
Definition january_store : gmap string string :=
  {[ "history_water" := RefJSON.stringify january ]}.

Definition full_january : World :=
  {| storage := january_store; trace := [] |}.

(** An import that carries a water goal and nothing else. *)
Definition goal_only : ImportedData :=
  {| data_version := VStr "3.0";
     data_exportDate := VStr "2024-03-05T08:30:00.000Z";
     water_goal := VStr "2000";
     water_intake := VNull;
     water_history := EmptyString;
     protein_goal := VNull;
     protein_intake := VNull;
     protein_history := EmptyString;
     workout_state := EmptyString;
     workout_count := EmptyString;
     workout_history := EmptyString;
     habits_data := EmptyString;
     settings_theme := VNull;
     settings_reminder := VNull |}.

(** A store whose protein history is not JSON. *)
Definition corrupt_store : gmap string string :=
  <["history_protein" := "{oops"]> {[ "goal_water" := "2000" ]}.

(** ** Vocabulary of the cleanup *)

Definition leb_true (a b : string) : Prop := String.leb a b = true.

(** The entries of a date-keyed mapping the cleanup leaves. *)
Definition retained (keep : nat) (h : JsObj Value) : JsObj Value :=
  List.filter (fun '(k, _) => negb (mem k (datesToRemove keep (VObj h)))) h.

(** [kept] is the [n] most recent entries of [h]: entries of [h] in
    their order, [n] of them or all when there are fewer, and every
    date left out is below every date kept. *)
Definition most_recent (n : nat) (kept h : JsObj Value) : Prop :=
  sublist kept h
  /\ length kept = Nat.min n (length h)
  /\ forall k k', In k (obj_keys h) -> ~ In k (obj_keys kept) ->
                  In k' (obj_keys kept) -> String.ltb k k' = true.

(** A habit as the trackers store it: an object whose history is an
    object with one entry per date. *)
Definition habit_history (habit : Value) : option (JsObj Value) :=
  match habit with
  | VObj o =>
      match obj_get "history" o with
      | Some (VObj h) => Some h
      | _ => None
      end
  | _ => None
  end.

Definition well_formed_habit (habit : Value) : Prop :=
  exists h, habit_history habit = Some h /\ NoDup (obj_keys h).

(** The habit after the cleanup. *)
Definition trimmed_habit (keep : nat) (habit : Value) : Value :=
  match habit_history habit with
  | Some h =>
      if (keep <? length h)%nat then with_history habit (VObj (retained keep h))
      else habit
  | None => habit
  end.

(** A browser that accepts every write. *)
Definition roomy_platform (ios : bool) : Platform :=
  {| isIOS := ios;
     now := "2024-03-05T08:30:00.000Z";
     JSON_parse := RefJSON.parse;
     JSON_stringify := RefJSON.stringify;
     setItem_throws := fun _ _ _ => None |}.

(** ** Typed snapshots

    The data model of the specification: what the trackers keep under
    the twelve storage keys, with every field at its declared type. *)

Record HistoryEntry : Type := {
  entry_amount : Z;
  entry_timestamp : string
}.

Record WorkoutStateEntry : Type := {
  ws_completed : bool;
  ws_order : Z
}.

Record WorkoutHistoryEntry : Type := {
  wh_type : string;
  wh_count : Z;
  wh_timestamp : string
}.

Record HabitEntry : Type := {
  habit_name : string;
  habit_color : string;
  habit_days : list (string * string)
}.

Record Snapshot : Type := {
  snap_water_goal : option string;
  snap_water_intake : option string;
  snap_water_history : list (string * list HistoryEntry);
  snap_protein_goal : option string;
  snap_protein_intake : option string;
  snap_protein_history : list (string * list HistoryEntry);
  snap_workout_state : list (string * WorkoutStateEntry);
  snap_workout_count : list (string * Z);
  snap_workout_history : list (string * list WorkoutHistoryEntry);
  snap_habits : list HabitEntry;
  snap_theme : option string;
  snap_reminder : option string
}.

(** The values of a snapshot as [JSON.parse] gives them. *)
Definition entry_value (e : HistoryEntry) : Value :=
  VObj [("amount", VNum (Num (entry_amount e)));
        ("timestamp", VStr (entry_timestamp e))].

Definition tracker_history_value (h : list (string * list HistoryEntry)) : Value :=
  VObj (map (fun '(date, es) => (date, VArr (map entry_value es))) h).

Definition workout_state_entry_value (s : WorkoutStateEntry) : Value :=
  VObj [("completed", VBool (ws_completed s)); ("order", VNum (Num (ws_order s)))].

Definition workout_state_value (m : list (string * WorkoutStateEntry)) : Value :=
  VObj (map (fun '(type, s) => (type, workout_state_entry_value s)) m).

Definition workout_count_value (m : list (string * Z)) : Value :=
  VObj (map (fun '(type, n) => (type, VNum (Num n))) m).

Definition workout_entry_value (e : WorkoutHistoryEntry) : Value :=
  VObj [("type", VStr (wh_type e)); ("count", VNum (Num (wh_count e)));
        ("timestamp", VStr (wh_timestamp e))].

Definition workout_history_value (h : list (string * list WorkoutHistoryEntry))
  : Value :=
  VObj (map (fun '(date, es) => (date, VArr (map workout_entry_value es))) h).

Definition habit_entry_value (hb : HabitEntry) : Value :=
  VObj [("name", VStr (habit_name hb)); ("color", VStr (habit_color hb));
        ("history", VObj (map (fun '(date, status) => (date, VStr status))
                              (habit_days hb)))].

Definition habits_value (l : list HabitEntry) : Value :=
  VArr (map habit_entry_value l).

(** What [getItem] returns for a scalar that may be absent. *)
Definition item_value (o : option string) : Value :=
  match o with
  | Some s => VStr s
  | None => VNull
  end.

(** The store holds the snapshot: the scalars as they are, the
    histories as text that parses to their values. *)
Definition holds (P : Platform) (store : gmap string string) (S : Snapshot)
  : Prop :=
  getItem store "goal_water" = item_value (snap_water_goal S)
  /\ getItem store "intake_water" = item_value (snap_water_intake S)
  /\ read_json P store "history_water" "{}"
     = Ok (tracker_history_value (snap_water_history S))
  /\ getItem store "goal_protein" = item_value (snap_protein_goal S)
  /\ getItem store "intake_protein" = item_value (snap_protein_intake S)
  /\ read_json P store "history_protein" "{}"
     = Ok (tracker_history_value (snap_protein_history S))
  /\ read_json P store "workout_state" "{}"
     = Ok (workout_state_value (snap_workout_state S))
  /\ read_json P store "workout_count" "{}"
     = Ok (workout_count_value (snap_workout_count S))
  /\ read_json P store "workout_history" "{}"
     = Ok (workout_history_value (snap_workout_history S))
  /\ read_json P store "habits_data" "[]" = Ok (habits_value (snap_habits S))
  /\ getItem store "app_theme" = item_value (snap_theme S)
  /\ getItem store "global_reminder" = item_value (snap_reminder S).

(** *** Snapshots the codec carries *)

(** A text the file format carries: no line feed, and not made of
    double quotes only. *)
Definition text_ok (s : string) : bool :=
  negb (includes s newline)
  && (String.eqb s EmptyString || negb (only_quotes s)).

Definition opt_text_ok (o : option string) : bool :=
  match o with
  | Some s => text_ok s
  | None => true
  end.

Definition not_index (k : string) : bool :=
  match array_index k with
  | Some _ => false
  | None => true
  end.

(** A date of a tracker or workout history: it names no inherited
    property and is no array index. *)
Definition date_ok (d : string) : bool :=
  text_ok d && negb (inherited d) && not_index d.

(** A workout type. *)
Definition type_ok (t : string) : bool :=
  text_ok t && negb (String.eqb t "__proto__") && not_index t.

(** A date of a habit history: it holds no underscore. *)
Definition day_ok (d : string) : bool :=
  text_ok d && negb (includes d underscore) && not_index d.

Fixpoint distinct (l : list string) : bool :=
  match l with
  | [] => true
  | k :: rest => negb (mem k rest) && distinct rest
  end.

Definition nonempty {A} (l : list A) : bool :=
  match l with
  | [] => false
  | _ => true
  end.

Definition tracker_history_ok (h : list (string * list HistoryEntry)) : bool :=
  distinct (map fst h)
  && forallb (fun '(date, es) =>
                date_ok date && nonempty es
                && forallb (fun e => text_ok (entry_timestamp e)) es) h.

Definition workout_history_ok (h : list (string * list WorkoutHistoryEntry))
  : bool :=
  distinct (map fst h)
  && forallb (fun '(date, es) =>
                date_ok date && nonempty es
                && forallb (fun e => text_ok (wh_type e)
                                     && text_ok (wh_timestamp e)) es) h.

Definition habit_ok (hb : HabitEntry) : bool :=
  text_ok (habit_name hb) && text_ok (habit_color hb)
  && distinct (map fst (habit_days hb))
  && forallb (fun '(date, status) => day_ok date && text_ok status)
             (habit_days hb).

(** The snapshots the round trip is proved for. *)
Definition valid (S : Snapshot) : bool :=
  opt_text_ok (snap_water_goal S) && opt_text_ok (snap_water_intake S)
  && tracker_history_ok (snap_water_history S)
  && opt_text_ok (snap_protein_goal S) && opt_text_ok (snap_protein_intake S)
  && tracker_history_ok (snap_protein_history S)
  && distinct (map fst (snap_workout_state S))
  && forallb (fun '(type, _) => type_ok type) (snap_workout_state S)
  && distinct (map fst (snap_workout_count S))
  && forallb (fun '(type, _) => type_ok type) (snap_workout_count S)
  && workout_history_ok (snap_workout_history S)
  && forallb habit_ok (snap_habits S)
  && opt_text_ok (snap_theme S) && opt_text_ok (snap_reminder S).

(** A scalar read back from the file: an absent one comes back as the
    empty string. *)
Definition read_back (o : option string) : Value :=
  VStr (match o with Some s => s | None => EmptyString end).

(** What parsing the export of a snapshot gives. *)
Definition reimported (P : Platform) (S : Snapshot) : ImportedData :=
  {| data_version := VStr "3.0";
     data_exportDate := VStr (now P);
     water_goal := read_back (snap_water_goal S);
     water_intake := read_back (snap_water_intake S);
     water_history :=
       JSON_stringify P (tracker_history_value (snap_water_history S));
     protein_goal := read_back (snap_protein_goal S);
     protein_intake := read_back (snap_protein_intake S);
     protein_history :=
       JSON_stringify P (tracker_history_value (snap_protein_history S));
     workout_state := JSON_stringify P (workout_state_value (snap_workout_state S));
     workout_count := JSON_stringify P (workout_count_value (snap_workout_count S));
     workout_history :=
       JSON_stringify P (workout_history_value (snap_workout_history S));
     habits_data := JSON_stringify P (habits_value (snap_habits S));
     settings_theme := read_back (snap_theme S);
     settings_reminder := read_back (snap_reminder S) |}.

(** The value of a decimal numeral read from the left, after [acc]. *)
Fixpoint uint_value (d : Decimal.uint) (acc : Z) : Z :=
  match d with
  | Decimal.Nil => acc
  | Decimal.D0 l => uint_value l (acc * 10 + 0)
  | Decimal.D1 l => uint_value l (acc * 10 + 1)
  | Decimal.D2 l => uint_value l (acc * 10 + 2)
  | Decimal.D3 l => uint_value l (acc * 10 + 3)
  | Decimal.D4 l => uint_value l (acc * 10 + 4)
  | Decimal.D5 l => uint_value l (acc * 10 + 5)
  | Decimal.D6 l => uint_value l (acc * 10 + 6)
  | Decimal.D7 l => uint_value l (acc * 10 + 7)
  | Decimal.D8 l => uint_value l (acc * 10 + 8)
  | Decimal.D9 l => uint_value l (acc * 10 + 9)
  end.

Fixpoint all_chars (p : ascii -> bool) (s : string) : bool :=
  match s with
  | EmptyString => true
  | String c rest => p c && all_chars p rest
  end.

Definition is_digit (c : ascii) : bool :=
  match digit_value 10 c with
  | Some _ => true
  | None => false
  end.

Definition numeric_char (c : ascii) : bool :=
  is_digit c || Ascii.eqb c "-"%char.

(** The text does not go on with the [x] of a hexadecimal prefix. *)
Definition not_x (rest : string) : bool :=
  match rest with
  | String x _ => negb (Ascii.eqb x "x"%char || Ascii.eqb x "X"%char)
  | EmptyString => true
  end.

(** *** The rows of an export, as texts *)

Abbreviation blank := EmptyString (only parsing).

(** The text a cell is written from. *)
Definition cell_text (v : Value) : string :=
  match v with
  | VNull | VUndef => blank
  | _ => String_ v
  end.

Definition special (s : string) : bool :=
  includes s comma || includes s dquote || includes s newline.

(** [escapeCSV] on the text of a cell. *)
Definition escape_text (s : string) : string :=
  if special s then String dquote (double_quotes s +:+ str1 dquote) else s.

(** A row of texts as a line of the file. *)
Definition line_of (texts : list string) : string :=
  join (str1 comma) (map escape_text texts).

(** Does the text end with a carriage return? *)
Fixpoint ends_cr (s : string) : bool :=
  match s with
  | EmptyString => false
  | String c rest =>
      match rest with
      | EmptyString => Ascii.eqb c creturn
      | _ => ends_cr rest
      end
  end.

Definition text_of (o : option string) : string :=
  match o with
  | Some s => s
  | None => blank
  end.

Definition bool_text (b : bool) : string := if b then "true" else "false".

Definition kv_row (tag key value : string) : list string :=
  [tag; key; value; blank; blank; blank; blank; blank; blank; blank; blank;
   blank].

Definition tracker_entry_row (tag date : string) (index : nat)
    (e : HistoryEntry) : list string :=
  [tag; entry_key date index; blank; date; Z_to_string (entry_amount e);
   entry_timestamp e; blank; blank; blank; blank; blank; blank].

Definition tracker_rows (tag : string) (h : list (string * list HistoryEntry))
  : list (list string) :=
  concat (map (fun '(date, es) =>
                 map (fun '(index, e) => tracker_entry_row tag date index e)
                     (indexed es)) h).

Definition workout_state_row (type : string) (s : WorkoutStateEntry)
  : list string :=
  ["workout_state"; type; blank; blank; blank; blank; type; blank; blank;
   blank; bool_text (ws_completed s); Z_to_string (ws_order s)].

Definition workout_count_row (type : string) (n : Z) : list string :=
  ["workout_count"; type; blank; blank; blank; blank; type; Z_to_string n;
   blank; blank; blank; blank].

Definition workout_entry_row (date : string) (index : nat)
    (e : WorkoutHistoryEntry) : list string :=
  ["workout_history"; entry_key date index; blank; date; blank;
   wh_timestamp e; wh_type e; Z_to_string (wh_count e); blank; blank; blank;
   blank].

Definition workout_rows (h : list (string * list WorkoutHistoryEntry))
  : list (list string) :=
  concat (map (fun '(date, es) =>
                 map (fun '(index, e) => workout_entry_row date index e)
                     (indexed es)) h).

Definition habit_row (index : nat) (hb : HabitEntry) : list string :=
  ["habit"; nat_to_string index; blank; blank; blank; blank; blank; blank;
   habit_name hb; habit_color hb; blank; blank].

Definition habit_day_row (index : nat) (date status : string) : list string :=
  ["habit_history"; nat_to_string index +:+ str1 underscore +:+ date; status;
   date; blank; blank; blank; blank; blank; blank; blank; blank].

Definition habit_rows_of (index : nat) (hb : HabitEntry) : list (list string) :=
  habit_row index hb
  :: map (fun '(date, status) => habit_day_row index date status)
         (habit_days hb).

Definition habits_rows_from (start : nat) (l : list HabitEntry)
  : list (list string) :=
  concat (map (fun '(index, hb) => habit_rows_of index hb) (indexed_from start l)).

(** The data rows of the export of a snapshot, in order. *)
Definition snapshot_rows (P : Platform) (S : Snapshot) : list (list string) :=
  ([ kv_row "meta" "version" "3.0";
     kv_row "meta" "exportDate" (now P);
     kv_row "water" "goal" (text_of (snap_water_goal S));
     kv_row "water" "intake" (text_of (snap_water_intake S)) ]
   ++ tracker_rows "water_history" (snap_water_history S)
   ++ [ kv_row "protein" "goal" (text_of (snap_protein_goal S));
        kv_row "protein" "intake" (text_of (snap_protein_intake S)) ]
   ++ tracker_rows "protein_history" (snap_protein_history S)
   ++ map (fun '(type, s) => workout_state_row type s) (snap_workout_state S)
   ++ map (fun '(type, n) => workout_count_row type n) (snap_workout_count S)
   ++ workout_rows (snap_workout_history S)
   ++ habits_rows_from 0 (snap_habits S)
   ++ [ kv_row "settings" "theme" (text_of (snap_theme S));
        kv_row "settings" "reminder" (text_of (snap_reminder S)) ])%list.

(** The export of a snapshot. *)
Definition snapshot_csv (P : Platform) (S : Snapshot) : string :=
  join (str1 newline)
       (join (str1 comma) headers :: map line_of (snapshot_rows P S)).

(** The column map of an exported file. *)
Definition std_headerMap : JsObj nat := Eval vm_compute in build_headerMap headers.

(** A row the tokenizer gives back whole: every text is carried by the
    format, the line is not blank and does not end with a carriage
    return. *)
Definition row_ok (texts : list string) : bool :=
  forallb text_ok texts && nonempty texts
  && negb (is_blank (line_of texts)) && negb (ends_cr (line_of texts)).

(** The history of a tracker as the parser builds it. *)
Definition parsed_history (h : list (string * list HistoryEntry))
  : JsObj (list Value) :=
  map (fun '(date, es) => (date, map entry_value es)) h.

Definition parsed_workout_history (h : list (string * list WorkoutHistoryEntry))
  : JsObj (list Value) :=
  map (fun '(date, es) => (date, map workout_entry_value es)) h.

Definition parsed_habit (hb : HabitEntry) : HabitData :=
  {| name_color := Some (VStr (habit_name hb), VStr (habit_color hb));
     dates := map (fun '(date, status) => (date, VStr status)) (habit_days hb) |}.

(** The rows of a date-keyed history, whatever its entries are. *)
Definition bucket_rows {E} (row : string -> nat -> E -> list string)
    (h : list (string * list E)) : list (list string) :=
  concat (map (fun '(date, es) =>
                 map (fun '(i, e) => row date i e) (indexed es)) h).

Definition buckets_ok {E} (entry_ok : E -> bool) (h : list (string * list E))
  : bool :=
  distinct (map fst h)
  && forallb (fun '(date, es) =>
                date_ok date && nonempty es && forallb entry_ok es) h.

Definition parsed_buckets {E} (enc : E -> Value) (h : list (string * list E))
  : JsObj (list Value) :=
  map (fun '(date, es) => (date, map enc es)) h.

(** ** Sample snapshots *)

Definition put (k : string) (o : option string) (m : gmap string string)
  : gmap string string :=
  match o with
  | Some s => <[k := s]> m
  | None => m
  end.

(** The store in which the trackers keep a snapshot. *)
Definition store_of (S : Snapshot) : gmap string string :=
  put "goal_water" (snap_water_goal S)
    (put "intake_water" (snap_water_intake S)
       (put "goal_protein" (snap_protein_goal S)
          (put "intake_protein" (snap_protein_intake S)
             (put "app_theme" (snap_theme S)
                (put "global_reminder" (snap_reminder S)
                   (<["history_water" :=
                        RefJSON.stringify
                          (tracker_history_value (snap_water_history S))]>
                      (<["history_protein" :=
                           RefJSON.stringify
                             (tracker_history_value (snap_protein_history S))]>
                         (<["workout_state" :=
                              RefJSON.stringify
                                (workout_state_value (snap_workout_state S))]>
                            (<["workout_count" :=
                                 RefJSON.stringify
                                   (workout_count_value (snap_workout_count S))]>
                               (<["workout_history" :=
                                    RefJSON.stringify
                                      (workout_history_value
                                         (snap_workout_history S))]>
                                  {[ "habits_data" :=
                                       RefJSON.stringify
                                         (habits_value (snap_habits S)) ]}
                               )))))))))).

(** A day of use: two glasses of water, a workout, a habit kept. *)
Definition one_day : Snapshot :=
  {| snap_water_goal := Some "2000";
     snap_water_intake := Some "750";
     snap_water_history :=
       [("2024-03-04",
         [ {| entry_amount := 250; entry_timestamp := "08:00" |};
           {| entry_amount := 500; entry_timestamp := "12:30, lunch" |} ])];
     snap_protein_goal := Some "120";
     snap_protein_intake := None;
     snap_protein_history :=
       [("2024-03-04", [ {| entry_amount := 30; entry_timestamp := "09:15" |} ])];
     snap_workout_state :=
       [("pushups", {| ws_completed := true; ws_order := 0 |});
        ("squats", {| ws_completed := false; ws_order := 1 |})];
     snap_workout_count := [("pushups", 20); ("squats", 0)];
     snap_workout_history :=
       [("2024-03-04",
         [ {| wh_type := "pushups"; wh_count := 20; wh_timestamp := "07:45" |} ])];
     snap_habits :=
       [ {| habit_name := "Read, 20 pages"; habit_color := "#ff0000";
            habit_days := [("2024-03-03", "completed"); ("2024-03-04", "missed")] |};
         {| habit_name := "Walk"; habit_color := "#00ff00"; habit_days := [] |} ];
     snap_theme := Some "dark";
     snap_reminder := None |}.

(** A snapshot with a date left without entries and a habit named by a
    double quote. *)
Definition bare_day : Snapshot :=
  {| snap_water_goal := None;
     snap_water_intake := None;
     snap_water_history := [("2024-03-04", [])];
     snap_protein_goal := None;
     snap_protein_intake := None;
     snap_protein_history := [];
     snap_workout_state := [];
     snap_workout_count := [];
     snap_workout_history := [];
     snap_habits :=
       [ {| habit_name := str1 dquote; habit_color := "#ff0000";
            habit_days := [] |} ];
     snap_theme := None;
     snap_reminder := None |}.

(** The fields of the records built so far, read off. *)
Ltac fields :=
  cbn [version exportDate water protein workout habits settings
       goal intake history state count entries theme reminder
       set_water set_protein set_workout set_habits set_settings
       initial_imported empty_tracker].

(** ** Vocabulary of the further properties *)

(** A text the tokenizer gives back from its escaped form: the empty
    text, or one that holds something else than double quotes. *)
Definition field_ok (s : string) : bool :=
  String.eqb s EmptyString || negb (only_quotes s).

(** A sample row of values: a text with a comma, a quote and a line
    feed, a number, [null] and a plain text. *)
Definition sample_cells : list Value :=
  [ VStr ("a," +:+ str1 dquote +:+ "b" +:+ str1 newline +:+ "c");
    VNum (Num 250); VNull; VStr "plain" ].

(** No own property of the object bears a name every object inherits. *)
Definition own_clean {A} (h : JsObj A) : Prop :=
  forall k, inherited k = true -> obj_get k h = None.

Definition histories_clean (d : Imported) : Prop :=
  own_clean (history (water d)) /\ own_clean (history (protein d))
  /\ own_clean (entries (workout d)).

(** The three kinds of rows that append to a date-keyed history. *)
Definition history_kind (kind : Value) : bool :=
  is_str kind "water_history" || is_str kind "protein_history"
  || is_str kind "workout_history".

(** A file with a blank line between its rows and one at its end. *)
Definition spaced_csv : string :=
  "data_type,key,value" +:+ str1 newline +:+ "   " +:+ str1 newline
  +:+ "water,goal,2000" +:+ str1 newline.

(** A file whose first entry is dated by the name of a method. *)
Definition method_date_csv : string :=
  join (str1 comma) headers +:+ str1 newline
  +:+ "water_history,toString_0,,toString,250,08:00,,,,,,".

(** What one stored pair adds to [getUsage]. *)
Definition pair_size (key value : string) : Z :=
  if negb (String.eqb key EmptyString) && negb (String.eqb value EmptyString)
  then Z.of_nat (String.length key) + Z.of_nat (String.length value)
  else 0.

(** What is stored under a history key gives the cleanup nothing to
    trim: nothing or the empty text, a text [JSON.parse] rejects, a
    value that is no object, or an object with no more dates than the
    cleanup keeps. *)
Definition nothing_to_trim (P : Platform) (stored : option string) : Prop :=
  match stored with
  | None => True
  | Some text =>
      text = EmptyString
      \/ JSON_parse P text = None
      \/ (exists v, JSON_parse P text = Some v /\ is_object v = false)
      \/ (exists h, JSON_parse P text = Some (VObj h)
                    /\ (length h <= daysToKeep P)%nat)
  end.

(** The fields kept under a key the cleanup never rewrites and whose
    write is checked: goals, intakes, workout state and workout
    count. *)
Definition scalar_fields : list Field :=
  [ WaterGoal; WaterIntake; ProteinGoal; ProteinIntake; WorkoutState;
    WorkoutCount ].

(** The names [performDataImport] gives the fields in its messages. *)
Definition field_labels : list string :=
  [ "water goal"; "water intake"; "water history"; "protein goal";
    "protein intake"; "protein history"; "workout state"; "workout count";
    "workout history"; "habits data" ].

(** Under [k], [w'] holds what [w] held, or the text of [v] when [v]
    is truthy. *)
Definition old_or_imported (k : string) (v : Value) (w w' : World) : Prop :=
  storage w' !! k = storage w !! k
  \/ (truthy v = true /\ storage w' !! k = Some (String_ v)).

(** An import with a goal and an intake that does not fit beside it. *)
Definition goal_and_intake : ImportedData :=
  {| data_version := VStr "3.0";
     data_exportDate := VStr "2024-03-05T08:30:00.000Z";
     water_goal := VStr "2000";
     water_intake := VStr "750";
     water_history := EmptyString;
     protein_goal := VNull;
     protein_intake := VNull;
     protein_history := EmptyString;
     workout_state := EmptyString;
     workout_count := EmptyString;
     workout_history := EmptyString;
     habits_data := EmptyString;
     settings_theme := VNull;
     settings_reminder := VNull |}.

(** The guarded write of one field on a store that accepts it. *)
Definition apply_field (key : string) (v : Value) (store : gmap string string)
  : gmap string string :=
  if truthy v then <[key := String_ v]> store else store.

(** All the fields. *)
Definition all_fields : list Field :=
  [ WaterGoal; WaterIntake; WaterHistory; ProteinGoal; ProteinIntake;
    ProteinHistory; WorkoutState; WorkoutCount; WorkoutHistory; HabitsData;
    SettingsTheme; SettingsReminder ].

(** A store whose water history keeps a number where the entries of a
    date should be. *)
Definition misshapen_store : gmap string string :=
  {[ "history_water" :=
       RefJSON.stringify (VObj [("2024-03-04", VNum (Num 250))]) ]}.

Definition is_array (v : Value) : bool :=
  match v with VArr _ => true | _ => false end.

(** ** The theme colour of the page *)

(** [s.replace(c, '')] for a one-character pattern: the first [c] goes. *)
Fixpoint remove_first (c : ascii) (s : string) : string :=
  match s with
  | EmptyString => EmptyString
  | String a rest =>
      if Ascii.eqb a c then rest else String a (remove_first c rest)
  end.

(** [parseInt(s, 16)]: white space, a sign, an optional [0x], then the
    longest run of hexadecimal digits. *)
Definition parseInt_16 (s : string) : Number :=
  let s1 := skip_spaces s in
  let '(neg, s2) :=
    match s1 with
    | String a rest =>
        if Ascii.eqb a "-"%char then (true, rest)
        else if Ascii.eqb a "+"%char then (false, rest)
        else (false, s1)
    | EmptyString => (false, s1)
    end in
  let s3 := match strip_hex_prefix s2 with Some s' => s' | None => s2 end in
  match read_digits 16 s3 None with
  | Some v => Num (if neg then - v else v)
  | None => NaN
  end.

(** A brightness: a number of thousandths, or [NaN]. The quotient by
    1000 is not taken, so that the value stays exact; for an integer
    [n], [n / 1000 > 128] holds of the quotient in floating point
    exactly when [n > 128000]. *)
Inductive Brightness : Type :=
| NotANumber
| Thousandths (n : Z).

(** [r * 299 + g * 587 + b * 114]: [NaN] if any channel is. *)
Definition weighted_sum (r g b : Number) : Brightness :=
  match r, g, b with
  | Num r, Num g, Num b => Thousandths (r * 299 + g * 587 + b * 114)
  | _, _, _ => NotANumber
  end.

(** [getColorBrightness]. What is not a string has no [replace]: the
    call raises, and the handler answers 128. *)
Definition getColorBrightness (hexColor : Value) : Brightness :=
  match hexColor with
  | VStr s =>
      let color := remove_first "#"%char s in
      let r := parseInt_16 (String.substring 0 2 color) in
      let g := parseInt_16 (String.substring 2 2 color) in
      let b := parseInt_16 (String.substring 4 2 color) in
      weighted_sum r g b
  | _ => Thousandths 128000
  end.

(** [brightness > 128] *)
Definition above_128 (b : Brightness) : bool :=
  match b with
  | Thousandths n => 128000 <? n
  | NotANumber => false
  end.

(** The two [meta] elements [changeThemeColor] looks for, each with
    its [content] if the element is in the page. *)
Record MetaTags : Type := {
  theme_color_meta : option string;
  status_bar_meta : option string
}.

(** [changeThemeColor]: the theme colour is set, the element being
    created if need be; on iOS the status bar style, if the page has
    the element, follows the brightness of the colour. *)
Definition changeThemeColor (P : Platform) (color : Value) (m : MetaTags)
  : MetaTags :=
  {| theme_color_meta := Some (String_ color);
     status_bar_meta :=
       if isIOS P then
         match status_bar_meta m with
         | Some _ =>
             Some (if above_128 (getColorBrightness color) then "default"
                   else "black-translucent")
         | None => None
         end
       else status_bar_meta m |}.

(** The value of two characters read as one hexadecimal byte. *)
Definition hex_pair (a b : ascii) : option Z :=
  match digit_value 16 a, digit_value 16 b with
  | Some x, Some y => Some (16 * x + y)
  | _, _ => None
  end.

(** ** Choosing a file to import *)

(** The file the user picked; [file_text] is what the reader hands to
    [onload], or nothing when the read fails and [onerror] runs. *)
Record File : Type := {
  file_size : Z;
  file_type : string;
  file_name : string;
  file_text : option string
}.

(** [name.endsWith(suffix)] *)
Definition endsWith (name suffix : string) : bool :=
  let n := String.length name in
  let k := String.length suffix in
  (k <=? n)%nat && String.eqb (String.substring (n - k) k name) suffix.

(** The toasts of [importData], by the message of the source: file too
    large (with the limit in megabytes), invalid file type, error
    importing data (with the exception), data imported, error reading
    file. *)
Inductive ImportNotice : Type :=
| FileTooLarge (megabytes : Z)
| InvalidFileType
| ImportError (e : Exn)
| ImportSucceeded
| ReadFailed.

(** What a run of [importData] leaves: the world, the toast it showed
    itself if any, whether the file input was cleared, whether a reload
    of the page was scheduled. *)
Record ImportRun : Type := {
  run_world : World;
  run_notice : option ImportNotice;
  run_cleared : bool;
  run_reload : bool
}.

(** The object [parseCSVData] returns, as [JSON.stringify] sees it. *)
Definition import_value (d : ImportedData) : Value :=
  VObj [ ("version", data_version d);
         ("exportDate", data_exportDate d);
         ("water", VObj [ ("goal", water_goal d); ("intake", water_intake d);
                          ("history", VStr (water_history d)) ]);
         ("protein", VObj [ ("goal", protein_goal d);
                            ("intake", protein_intake d);
                            ("history", VStr (protein_history d)) ]);
         ("workout", VObj [ ("state", VStr (workout_state d));
                            ("count", VStr (workout_count d));
                            ("history", VStr (workout_history d)) ]);
         ("habits", VObj [ ("data", VStr (habits_data d)) ]);
         ("settings", VObj [ ("theme", settings_theme d);
                             ("reminder", settings_reminder d) ]) ].

Definition too_large_for_storage : Exn :=
  Error "Import file is too large for browser storage. Please try a smaller export file.".

(** The body of [reader.onload]: parse, estimate the size, ask, import.
    The limit [maxStorage * 0.9] is 4718592 off iOS and 1887436.8 on
    it, so for an integer size the comparison is the one on tenths. *)
Definition import_text (P : Platform) (csvData : string) (confirmed : bool)
    (w : World) : ImportRun :=
  match parseCSVData P csvData with
  | Throw e =>
      {| run_world := w; run_notice := Some (ImportError e);
         run_cleared := true; run_reload := false |}
  | Ok importedData =>
      let importSize :=
        Z.of_nat (String.length (JSON_stringify P (import_value importedData))) in
      if maxSize P * 9 <? importSize * 10 then
        {| run_world := w; run_notice := Some (ImportError too_large_for_storage);
           run_cleared := true; run_reload := false |}
      else if confirmed then
        let '(success, w') := performDataImport P importedData w in
        {| run_world := w';
           run_notice := if success then Some ImportSucceeded else None;
           run_cleared := true; run_reload := success |}
      else
        {| run_world := w; run_notice := None;
           run_cleared := true; run_reload := false |}
  end.

(** [importData]: the checks on the file, then the reader. [confirmed]
    is what the user answers when asked. *)
Definition importData (P : Platform) (file : option File) (confirmed : bool)
    (w : World) : ImportRun :=
  match file with
  | None =>
      {| run_world := w; run_notice := None;
         run_cleared := false; run_reload := false |}
  | Some f =>
      if maxSize P <? file_size f then
        {| run_world := w;
           run_notice := Some (FileTooLarge (maxSize P / (1024 * 1024)));
           run_cleared := true; run_reload := false |}
      else if negb (String.eqb (file_type f) "text/csv")
              && negb (endsWith (file_name f) ".csv") then
        {| run_world := w; run_notice := Some InvalidFileType;
           run_cleared := true; run_reload := false |}
      else
        match file_text f with
        | None =>
            {| run_world := w; run_notice := Some ReadFailed;
               run_cleared := true; run_reload := false |}
        | Some csvData => import_text P csvData confirmed w
        end
  end.

(** The file passes the checks [importData] makes before reading it. *)
Definition file_accepted (P : Platform) (f : File) : bool :=
  (file_size f <=? maxSize P)
  && (String.eqb (file_type f) "text/csv" || endsWith (file_name f) ".csv").

(** A file the browser reports no type for, named as an export. *)
Definition goal_file : File :=
  {| file_size := 35; file_type := EmptyString;
     file_name := "health-tracker-export-2024-03-05.csv";
     file_text := Some goal_only_csv |}.

(** ** Dates *)

(** What [getFullYear], [getMonth] and [getDate] give for a date that
    is not invalid: the month counts from 0. *)
Record LocalDate : Type := {
  date_year : Z;
  date_month : nat;
  date_day : nat
}.

(** A [Date] object: [new Date(x)] is invalid when [x] is not a date
    the engine reads. *)
Inductive JsDate : Type :=
| InvalidDate
| ValidDate (d : LocalDate).

(** [s.padStart(2, '0')] *)
Definition padStart2 (s : string) : string :=
  match String.length s with
  | O => "00"
  | S O => "0" +:+ s
  | _ => s
  end.

(** The template [`${year}-${month}-${day}`] of [formatDate]. *)
Definition date_text (d : LocalDate) : string :=
  Z_to_string (date_year d) +:+ "-"
  +:+ padStart2 (nat_to_string (date_month d + 1)) +:+ "-"
  +:+ padStart2 (nat_to_string (date_day d)).

(** [formatDate]: [d] is [new Date(date)], [today] is [new Date()],
    which stands in for a date that is invalid. *)
Definition formatDate (today : LocalDate) (d : JsDate) : string :=
  match d with
  | ValidDate x => date_text x
  | InvalidDate => date_text today
  end.

(** [isSameDay]: [d1] and [d2] are [new Date(date1)] and
    [new Date(date2)]. *)
Definition isSameDay (d1 d2 : JsDate) : bool :=
  match d1, d2 with
  | ValidDate a, ValidDate b =>
      (date_year a =? date_year b) && (date_month a =? date_month b)%nat
      && (date_day a =? date_day b)%nat
  | _, _ => false
  end.

(** What every valid [Date] satisfies: a month from 0 to 11, a day
    from 1 to 31. *)
Definition calendar_ok (d : LocalDate) : bool :=
  (date_month d <? 12)%nat && (1 <=? date_day d)%nat && (date_day d <=? 31)%nat.

Definition four_digit_year (d : LocalDate) : bool :=
  (1000 <=? date_year d) && (date_year d <=? 9999).

(** The order of the calendar. *)
Definition date_compare (a b : LocalDate) : comparison :=
  match date_year a ?= date_year b with
  | Eq =>
      match (date_month a ?= date_month b)%nat with
      | Eq => (date_day a ?= date_day b)%nat
      | c => c
      end
  | c => c
  end.

Definition comparison_eqb (c1 c2 : comparison) : bool :=
  match c1, c2 with
  | Eq, Eq | Lt, Lt | Gt, Gt => true
  | _, _ => false
  end.

(** The two-character texts of the numbers below [n] compare as the
    numbers do. *)
Definition padded_in_order (n : nat) : bool :=
  forallb (fun i =>
             (String.length (padStart2 (nat_to_string i)) =? 2)%nat
             && forallb (fun j =>
                           comparison_eqb
                             (String.compare (padStart2 (nat_to_string i))
                                             (padStart2 (nat_to_string j)))
                             (Nat.compare i j))
                        (seq 0 n))
          (seq 0 n).

(** [count] integers in a row, from [first] on. *)
Fixpoint Z_range (first : Z) (count : nat) : list Z :=
  match count with
  | O => []
  | S n => first :: Z_range (first + 1) n
  end.

(** From [first] on, each of [count] years in a row has a text of four
    characters, and that text comes before the text of the next of
    them. *)
Definition years_in_order (first : Z) (count : nat) : bool :=
  forallb (fun y =>
             (String.length (Z_to_string y) =? 4)%nat
             && ((first + Z.of_nat count <=? y + 1)
                 || String.ltb (Z_to_string y) (Z_to_string (y + 1))))
          (Z_range first count).

(** A table that is no export of the trackers. *)
Definition foreign_csv : string :=
  "name,amount" +:+ str1 newline +:+ "water,2000" +:+ str1 newline
  +:+ "protein,120".

(** The six keys that hold JSON text, with the field each one takes
    from an import. *)
Definition json_fields : list Field :=
  [ WaterHistory; ProteinHistory; WorkoutState; WorkoutCount; WorkoutHistory;
    HabitsData ].

(** * Theorems *)

(** ** Fields: encoding then decoding *)

Lemma append_assoc' (a b c : string) : (a +:+ b) +:+ c = a +:+ (b +:+ c).
Proof. induction a as [|x a IH]; simpl; [reflexivity | now rewrite IH]. Qed.

Lemma append_empty_r (a : string) : a +:+ EmptyString = a.
Proof. induction a as [|x a IH]; simpl; [reflexivity | now rewrite IH]. Qed.

Lemma append_str1 (a : string) (c : ascii) (b : string) :
  (a +:+ str1 c) +:+ b = a +:+ String c b.
Proof. now rewrite append_assoc'. Qed.

(** A run of characters without quotes is copied to the current value:
    commas too, when the tokenizer is inside quotes. *)
Lemma loop_plain (f tail : string) (iq : bool) (cur : string) (res : list string) :
  includes f dquote = false ->
  (iq = true \/ includes f comma = false) ->
  parseCSVRow_loop (f +:+ tail) iq cur res
  = parseCSVRow_loop tail iq (cur +:+ f) res.
Proof.
  revert cur. induction f as [|a f IH]; intros cur Hq Hc; simpl in *.
  - now rewrite append_empty_r.
  - apply orb_false_elim in Hq as [Ha Hq]. rewrite Ha.
    assert (Hcomma : Ascii.eqb a comma && negb iq = false).
    { destruct Hc as [-> | Hc]; [now rewrite andb_false_r|].
      apply orb_false_elim in Hc as [-> _]. reflexivity. }
    rewrite Hcomma. rewrite IH; [now rewrite append_str1 | assumption |].
    destruct Hc as [? | Hc]; [now left | right].
    now apply orb_false_elim in Hc as [_ ?].
Qed.

(** Inside quotes, the doubled body followed by the closing quote gives
    back the body and leaves the quoted state. *)
Lemma loop_body (g tail cur : string) (res : list string) :
  starts_with_quote tail = false ->
  parseCSVRow_loop (double_quotes g +:+ String dquote tail) true cur res
  = parseCSVRow_loop tail false (cur +:+ g) res.
Proof.
  intros Htail. revert cur. induction g as [|a g IH]; intros cur; simpl.
  - rewrite append_empty_r. destruct tail as [|b tail]; [reflexivity|].
    simpl in Htail. now rewrite Htail.
  - destruct (Ascii.eqb a dquote) eqn:Ha; simpl.
    + apply Ascii.eqb_eq in Ha. subst a. rewrite IH. now rewrite append_str1.
    + rewrite Ha, andb_false_r. rewrite IH. now rewrite append_str1.
Qed.

(** The opening quote: the tokenizer pairs it with a quote that follows,
    so the field must hold some other character for the count to come
    out right. *)
Lemma loop_quoted (f tail cur : string) (res : list string) :
  only_quotes f = false ->
  starts_with_quote tail = false ->
  parseCSVRow_loop (String dquote (double_quotes f +:+ String dquote tail))
    false cur res
  = parseCSVRow_loop tail false (cur +:+ f) res.
Proof.
  intros Hf Htail. revert cur.
  induction f as [|a f IH]; intros cur; [discriminate|].
  simpl in Hf. destruct (Ascii.eqb a dquote) eqn:Ha.
  - apply Ascii.eqb_eq in Ha. subst a. simpl in Hf.
    change (parseCSVRow_loop
              (String dquote (double_quotes f +:+ String dquote tail))
              false (cur +:+ str1 dquote) res
            = parseCSVRow_loop tail false (cur +:+ String dquote f) res).
    rewrite IH by assumption. now rewrite append_str1.
  - assert (Hstep :
        parseCSVRow_loop
          (String dquote (double_quotes (String a f) +:+ String dquote tail))
          false cur res
        = parseCSVRow_loop (double_quotes (String a f) +:+ String dquote tail)
            true cur res).
    { simpl. rewrite Ha. simpl. rewrite Ha. reflexivity. }
    rewrite Hstep. now apply loop_body.
Qed.

Lemma includes_only_quotes (s : string) (c : ascii) :
  c <> dquote -> includes s c = true -> only_quotes s = false.
Proof.
  intros Hc. induction s as [|a s IH]; simpl; [discriminate|].
  intros H. destruct (Ascii.eqb a dquote) eqn:Ha; [|reflexivity].
  apply Ascii.eqb_eq in Ha. subst a.
  destruct (Ascii.eqb dquote c) eqn:E.
  - apply Ascii.eqb_eq in E. congruence.
  - simpl in *. now apply IH.
Qed.

(** C3. A string that holds a comma, a double quote and a newline is
    wrapped in double quotes with its quotes doubled by [escapeCSV], and
    [parseCSVRow] reads the encoded field back as the single field it
    came from. *)
Theorem escape_then_parse_row (s : string) :
  includes s comma = true ->
  includes s dquote = true ->
  includes s newline = true ->
  escapeCSV (VStr s) = String dquote (double_quotes s +:+ str1 dquote)
  /\ parseCSVRow (escapeCSV (VStr s)) = [s].
Proof.
  intros Hc Hq Hn.
  assert (He : escapeCSV (VStr s)
               = String dquote (double_quotes s +:+ str1 dquote)).
  { unfold escapeCSV. simpl. now rewrite Hc. }
  split; [exact He|].
  rewrite He. unfold parseCSVRow, str1.
  rewrite loop_quoted.
  - reflexivity.
  - now apply (includes_only_quotes s comma).
  - reflexivity.
Qed.

Lemma escape_then_parse_row_witness :
  let s := String "a" (String comma (String dquote (String newline "b"))) in
  parseCSVRow (escapeCSV (VStr s)) = [s].
Proof.
  intros s. apply (escape_then_parse_row s); reflexivity.
Defined.

(** ** Rows the dispatch has no case for *)

Lemma process_row_unrecognized (hm : JsObj nat) (d : Imported) (row : list string) :
  recognized (cell hm row "data_type") = false ->
  process_row hm d row = Ok d.
Proof.
  unfold recognized, recognized_kinds, process_row. simpl.
  intros H.
  repeat (apply orb_false_elim in H as [E H]; rewrite E; clear E).
  reflexivity.
Qed.

Lemma process_rows_app (hm : JsObj nat) (d : Imported) (rs1 rs2 : list string) :
  process_rows hm d (rs1 ++ rs2)
  = (d1 <-- process_rows hm d rs1 ;; process_rows hm d1 rs2).
Proof.
  revert d. induction rs1 as [|r rs1 IH]; intros d; simpl; [reflexivity|].
  destruct (is_blank r); [apply IH|].
  destruct (process_row hm d (parseCSVRow r)); simpl; [apply IH | reflexivity].
Qed.

Lemma process_rows_skip (hm : JsObj nat) (d : Imported) (before after : list string) (r : string) :
  recognized (row_kind hm r) = false ->
  process_rows hm d (before ++ r :: after) = process_rows hm d (before ++ after).
Proof.
  intros H. rewrite !process_rows_app.
  destruct (process_rows hm d before) as [d1|e]; simpl; [|reflexivity].
  destruct (is_blank r); [reflexivity|].
  now rewrite process_row_unrecognized.
Qed.

(** C9. A data row whose [data_type] cell is none of the recognized
    kinds leaves [importedData] as it was and raises nothing; the file
    parses to what its other rows give. *)
Theorem unrecognized_row_ignored (P : Platform) (csvData header r : string)
    (before after : list string) (d : Imported) :
  let headerMap := build_headerMap (parseCSVRow header) in
  split_lines csvData EmptyString = header :: (before ++ r :: after)%list ->
  recognized (row_kind headerMap r) = false ->
  process_row headerMap d (parseCSVRow r) = Ok d
  /\ parseCSVData P csvData
     = (d' <-- process_rows headerMap (initial_imported P) (before ++ after) ;;
        Ok (to_import_format P d')).
Proof.
  intros hm Hsplit Hkind. split.
  - now apply process_row_unrecognized.
  - unfold parseCSVData, parse_rows. rewrite Hsplit.
    replace (length (header :: before ++ r :: after) <? 2)%nat with false.
    + simpl hd. simpl tl. fold hm. now rewrite process_rows_skip.
    + symmetry. apply Nat.ltb_ge. simpl. rewrite length_app. simpl. lia.
Qed.

Lemma unrecognized_row_ignored_witness :
  let P := roomy_platform false in
  let headerMap := build_headerMap (parseCSVRow "data_type,key,value") in
  process_row headerMap (initial_imported P) (parseCSVRow "mood,today,fine")
  = Ok (initial_imported P)
  /\ parseCSVData P unknown_kind_csv
     = (d' <-- process_rows headerMap (initial_imported P) ["water,goal,2000"] ;;
        Ok (to_import_format P d')).
Proof.
  intros P headerMap.
  apply (unrecognized_row_ignored P unknown_kind_csv "data_type,key,value"
           "mood,today,fine" [] ["water,goal,2000"] (initial_imported P));
    reflexivity.
Defined.

(** ** Habit rows and padding *)

Lemma pad_habits_nat (i : nat) (data : list HabitData) :
  pad_habits (Num (Z.of_nat i)) data
  = (data ++ repeat placeholder (S i - length data))%list.
Proof.
  unfold pad_habits. do 2 f_equal. lia.
Qed.

Lemma pad_habits_length (i : nat) (data : list HabitData) :
  length (pad_habits (Num (Z.of_nat i)) data) = Nat.max (length data) (S i).
Proof.
  rewrite pad_habits_nat, length_app, repeat_length. lia.
Qed.

Lemma repeat_lookup {A} (x : A) (n j : nat) :
  (j < n)%nat -> repeat x n !! j = Some x.
Proof.
  revert j. induction n as [|n IH]; intros j Hj; [lia|].
  destruct j as [|j]; simpl; [reflexivity | apply IH; lia].
Qed.

Lemma pad_habits_lookup (i j : nat) (data : list HabitData) :
  pad_habits (Num (Z.of_nat i)) data !! j
  = if (j <? length data)%nat then data !! j
    else if (j <=? i)%nat then Some placeholder else None.
Proof.
  rewrite pad_habits_nat.
  destruct (j <? length data)%nat eqn:Hj.
  - apply Nat.ltb_lt in Hj. now rewrite lookup_app_l.
  - apply Nat.ltb_ge in Hj. rewrite lookup_app_r by assumption.
    destruct (j <=? i)%nat eqn:Hi.
    + apply Nat.leb_le in Hi. apply repeat_lookup. lia.
    + apply Nat.leb_gt in Hi. apply lookup_ge_None. rewrite repeat_length. lia.
Qed.

Lemma case_habit_nat (hm : JsObj nat) (row : list string) (key : Value)
    (i : nat) (data : list HabitData) :
  parseInt key = Num (Z.of_nat i) ->
  case_habit hm row key data
  = Ok (<[i := {| name_color := Some (cell hm row "name", cell hm row "color");
                  dates := dates_at i data |}]>
          (pad_habits (Num (Z.of_nat i)) data)).
Proof.
  intros Hkey. unfold case_habit. rewrite Hkey. unfold habit_at.
  replace (Z.of_nat i <? 0) with false by (symmetry; apply Z.ltb_ge; lia).
  rewrite Nat2Z.id, pad_habits_lookup. unfold dates_at.
  destruct (i <? length data)%nat eqn:Hi.
  - apply Nat.ltb_lt in Hi. destruct (lookup_lt_is_Some_2 data i Hi) as [h Hh].
    now rewrite Hh.
  - rewrite Nat.leb_refl. simpl.
    apply Nat.ltb_ge in Hi. now rewrite (lookup_ge_None_2 data i Hi).
Qed.

(** Rows of another kind neither read nor write the habit sequence. *)
Lemma process_row_set_habits (hm : JsObj nat) (d : Imported)
    (row : list string) (H : list HabitData) :
  habit_kind (cell hm row "data_type") = false ->
  process_row hm (set_habits H d) row
  = (d' <-- process_row hm d row ;; Ok (set_habits H d')).
Proof.
  unfold habit_kind, process_row. intros Hk.
  apply orb_false_elim in Hk as [Hh Hhh]. rewrite Hh, Hhh.
  repeat match goal with
         | |- context [if ?b then _ else _] => destruct b; [try reflexivity|]
         end; try reflexivity.
  - simpl. destruct (case_tracker_history hm row (water d)); reflexivity.
  - simpl. destruct (case_tracker_history hm row (protein d)); reflexivity.
  - simpl. destruct (case_workout_history hm row (workout d)); reflexivity.
Qed.

Lemma process_rows_set_habits (hm : JsObj nat) (rows : list string)
    (d : Imported) (H : list HabitData) :
  Forall (fun r => is_blank r = true \/ habit_kind (row_kind hm r) = false) rows ->
  process_rows hm (set_habits H d) rows
  = (d' <-- process_rows hm d rows ;; Ok (set_habits H d')).
Proof.
  intros Hrows. revert d. induction Hrows as [|r rows Hr _ IH]; intros d; simpl.
  - reflexivity.
  - destruct (is_blank r) eqn:Hb; [apply IH|].
    destruct Hr as [Hr|Hr]; [congruence|].
    rewrite process_row_set_habits by exact Hr.
    destruct (process_row hm d (parseCSVRow r)); simpl; [apply IH | reflexivity].
Qed.

Lemma process_row_habits (hm : JsObj nat) (d d' : Imported) (row : list string) :
  habit_kind (cell hm row "data_type") = false ->
  process_row hm d row = Ok d' -> habits d' = habits d.
Proof.
  unfold habit_kind, process_row. intros Hk.
  apply orb_false_elim in Hk as [Hh Hhh]. rewrite Hh, Hhh.
  repeat match goal with
         | |- context [if ?b then _ else _] => destruct b
         end;
    try (intros [= <-]; reflexivity).
  - destruct (case_tracker_history hm row (water d)); simpl; [|discriminate].
    now intros [= <-].
  - destruct (case_tracker_history hm row (protein d)); simpl; [|discriminate].
    now intros [= <-].
  - destruct (case_workout_history hm row (workout d)); simpl; [|discriminate].
    now intros [= <-].
Qed.

Lemma process_rows_habits (hm : JsObj nat) (rows : list string) (d d' : Imported) :
  Forall (fun r => is_blank r = true \/ habit_kind (row_kind hm r) = false) rows ->
  process_rows hm d rows = Ok d' -> habits d' = habits d.
Proof.
  intros Hrows. revert d. induction Hrows as [|r rows Hr _ IH]; intros d; simpl.
  - now intros [= <-].
  - destruct (is_blank r) eqn:Hb; [apply IH|].
    destruct Hr as [Hr|Hr]; [congruence|].
    destruct (process_row hm d (parseCSVRow r)) as [d1|] eqn:E; simpl; [|discriminate].
    intros Hrest. rewrite (IH _ Hrest). now apply (process_row_habits hm d d1 _ Hr).
Qed.

(** A row of white space is one field, and that field is no tag. *)
Lemma blank_no_specials (r : string) :
  is_blank r = true -> includes r dquote = false /\ includes r comma = false.
Proof.
  induction r as [|a r IH]; simpl; [auto|].
  intros H. apply andb_prop in H as [Ha Hr]. destruct (IH Hr) as [-> ->].
  split; apply orb_false_intro; try reflexivity; apply Ascii.eqb_neq;
    intros ->; discriminate.
Qed.

Lemma blank_row_fields (r : string) :
  is_blank r = true -> parseCSVRow r = [r].
Proof.
  intros H. destruct (blank_no_specials r H) as [Hq Hc].
  unfold parseCSVRow.
  rewrite <- (append_empty_r r) at 1.
  rewrite loop_plain by auto. reflexivity.
Qed.

Lemma tagged_row_not_blank (hm : JsObj nat) (r tag : string) :
  is_blank tag = false ->
  is_str (row_kind hm r) tag = true -> is_blank r = false.
Proof.
  intros Htag Hk. destruct (is_blank r) eqn:Hb; [|reflexivity].
  unfold row_kind, cell in Hk. rewrite (blank_row_fields r Hb) in Hk.
  destruct (obj_get "data_type" hm) as [i|]; [|discriminate].
  destruct i as [|i]; simpl in Hk; [|discriminate].
  apply String.eqb_eq in Hk. congruence.
Qed.



(** ** Usage and the near-quota test *)

Lemma repeat_char_length (c : ascii) (n : nat) :
  String.length (repeat_char c n) = n.
Proof. induction n as [|n IH]; simpl; [reflexivity | now rewrite IH]. Qed.

Lemma repeat_char_nonempty (c : ascii) (n : nat) :
  n <> O -> String.eqb (repeat_char c n) EmptyString = false.
Proof. destruct n; [congruence | reflexivity]. Qed.

Lemma getUsage_singleton (k v : string) :
  String.eqb k EmptyString = false ->
  String.eqb v EmptyString = false ->
  getUsage {[ k := v ]} = Z.of_nat (String.length k) + Z.of_nat (String.length v).
Proof.
  intros Hk Hv. unfold getUsage. rewrite map_to_list_singleton.
  cbn [foldr]. rewrite Hk, Hv. cbn [negb andb]. lia.
Qed.

Lemma boundary_store_usage : getUsage boundary_store = 4718592.
Proof.
  unfold boundary_store. rewrite getUsage_singleton.
  - rewrite repeat_char_length, N_nat_Z. reflexivity.
  - reflexivity.
  - apply repeat_char_nonempty. lia.
Qed.

(** C4, as stated, fails on the standard tier: a store whose usage is
    exactly 5 MiB times 0.9 is not reported as near the quota. *)
Lemma near_quota_false_at_boundary :
  let P := ref_platform false 0 in
  getUsage boundary_store * 10 = maxSize P * threshold_tenths P
  /\ isNearQuota P boundary_store = false.
Proof.
  unfold isNearQuota. rewrite boundary_store_usage. split; reflexivity.
Qed.

(** C4, amended. [isNearQuota] answers true exactly when the usage
    [getUsage] computes is strictly above quota times threshold: from
    1468007 characters on the constrained tier (the boundary 1468006.4
    is no integer), from 4718593 on the standard tier, where a usage of
    exactly 4718592 still answers false. *)
Theorem near_quota_strictly_above (P : Platform) (store : gmap string string) :
  isNearQuota P store
  = negb (getUsage store * 10 <=? maxSize P * threshold_tenths P)
  /\ isNearQuota P store
     = if isIOS P then 1468007 <=? getUsage store
       else 4718593 <=? getUsage store.
Proof.
  unfold isNearQuota, maxSize, threshold_tenths. split.
  - now rewrite Z.leb_antisym, negb_involutive.
  - destruct (isIOS P).
    + destruct (Z.ltb_spec (2 * 1024 * 1024 * 7) (getUsage store * 10));
        symmetry; [apply Z.leb_le | apply Z.leb_gt]; lia.
    + destruct (Z.ltb_spec (5 * 1024 * 1024 * 9) (getUsage store * 10));
        symmetry; [apply Z.leb_le | apply Z.leb_gt]; lia.
Qed.

(** ** What the storage manager writes *)

Lemma only_wrote_refl (keys : list string) (w : World) : only_wrote keys w w.
Proof.
  exists []. rewrite app_nil_r. split; [reflexivity|].
  split; [intros k v r []|reflexivity].
Qed.

Lemma only_wrote_trans (keys : list string) (w1 w2 w3 : World) :
  only_wrote keys w1 w2 -> only_wrote keys w2 w3 -> only_wrote keys w1 w3.
Proof.
  intros (e1 & H1 & S1 & F1) (e2 & H2 & S2 & F2).
  exists (e1 ++ e2)%list. split; [now rewrite H2, H1, app_assoc|]. split.
  - intros k v r Hin. apply in_app_or in Hin as [Hin|Hin]; eauto.
  - intros k Hk. now rewrite F2, F1.
Qed.

Lemma only_wrote_weaken (keys keys' : list string) (w w' : World) :
  (forall k, In k keys -> In k keys') ->
  only_wrote keys w w' -> only_wrote keys' w w'.
Proof.
  intros Hsub (evs & He & Hs & Hf). exists evs. split; [exact He|]. split.
  - intros k v r Hin. eauto.
  - intros k Hk. apply Hf. auto.
Qed.

Lemma setItem_trace (P : Platform) (k v : string) (w : World) :
  trace (snd (setItem P k v w))
  = (trace w ++ [SetItem k v (setItem_throws P (storage w) k v)])%list.
Proof. unfold setItem. now destruct (setItem_throws P (storage w) k v). Qed.

Lemma setItem_fst (P : Platform) (k v : string) (w : World) :
  fst (setItem P k v w)
  = match setItem_throws P (storage w) k v with
    | Some e => Throw e
    | None => Ok tt
    end.
Proof. unfold setItem. now destruct (setItem_throws P (storage w) k v). Qed.

Lemma setItem_only_wrote (P : Platform) (k v : string) (w : World) :
  only_wrote [k] w (snd (setItem P k v w)).
Proof.
  eexists. split; [apply setItem_trace|]. split.
  - intros k' v' r [[= <- _ _]|[]]. now left.
  - intros k' Hk'. unfold setItem.
    destruct (setItem_throws P (storage w) k v); simpl; [reflexivity|].
    apply lookup_insert_ne. intros ->. apply Hk'. now left.
Qed.

Lemma setItem_ok_stored (P : Platform) (k v : string) (w w' : World) (u : unit) :
  setItem P k v w = (Ok u, w') -> storage w' !! k = Some v.
Proof.
  unfold setItem. destruct (setItem_throws P (storage w) k v); [discriminate|].
  intros [= _ <-]. simpl. apply lookup_insert_eq.
Qed.

Lemma cleanup_key_only_wrote (P : Platform) (key : string) (c : bool) (w : World) :
  only_wrote [key] w (snd (cleanup_key P key (c, w))).
Proof.
  unfold cleanup_key.
  destruct (getItem (storage w) key); try apply only_wrote_refl.
  destruct (String.eqb s EmptyString); [apply only_wrote_refl|].
  destruct (JSON_parse P s) as [history|]; [|apply only_wrote_refl].
  assert (Hstd : only_wrote [key] w
            (snd (if is_object history
                  then match trim_dates (daysToKeep P) history with
                       | Some history' =>
                           match setItem P key (JSON_stringify P history') w with
                           | (Ok _, w') => (true, w')
                           | (Throw _, w') => (c, w')
                           end
                       | None => (c, w)
                       end
                  else (c, w)))).
  { destruct (is_object history); [|apply only_wrote_refl].
    destruct (trim_dates (daysToKeep P) history) as [h'|]; [|apply only_wrote_refl].
    pose proof (setItem_only_wrote P key (JSON_stringify P h') w) as Hs.
    destruct (setItem P key (JSON_stringify P h') w) as [[u|e] w']; exact Hs. }
  destruct history; try exact Hstd.
  destruct (String.eqb key "habits_data"); [|exact Hstd].
  destruct (cleanup_habits (daysToKeep P) items c) as [c' [items'|e]];
    [|apply only_wrote_refl].
  destruct c'; [apply setItem_only_wrote | apply only_wrote_refl].
Qed.

Lemma cleanupOldData_only_wrote (P : Platform) (w : World) :
  only_wrote historyKeys w (snd (cleanupOldData P w)).
Proof.
  unfold cleanupOldData.
  assert (G : forall keys acc,
             (forall k, In k keys -> In k historyKeys) ->
             only_wrote historyKeys (snd acc)
               (snd (fold_left (fun acc key => cleanup_key P key acc) keys acc))).
  { induction keys as [|key keys IH]; intros [c w0] Hin; simpl.
    - apply only_wrote_refl.
    - eapply only_wrote_trans; [|apply IH; intros k Hk; apply Hin; now right].
      eapply only_wrote_weaken; [|apply cleanup_key_only_wrote].
      intros k [<-|[]]. apply Hin. now left. }
  apply (G historyKeys (false, w)). auto.
Qed.

(** C5, amended. [safeSetItem] makes one direct write. If that raises a
    quota error it runs [cleanupOldData], and it writes once more only
    when the cleanup reports that it trimmed something; when the cleanup
    trimmed nothing, or the second write raises too, it shows the
    storage-full toast and answers false. Any other error is answered
    with false and the save-error toast. It answers true only with the
    value stored, and false only after a toast. *)
Theorem safeSetItem_retry_after_cleanup (P : Platform) (key value : string)
    (w : World) :
  let r := safeSetItem P key value w in
  let w1 := snd (setItem P key value w) in
  let c := cleanupOldData P w1 in
  let w3 := snd (setItem P key value (snd c)) in
  match setItem_throws P (storage w) key value with
  | None => r = (true, w1)
  | Some e =>
      if is_quota_error e then
        if fst c then
          match setItem_throws P (storage (snd c)) key value with
          | None => r = (true, showToast StorageCleanedUp w3)
          | Some _ => r = (false, handleStorageFull P w3)
          end
        else r = (false, handleStorageFull P (snd c))
      else r = (false, showToast SaveError w1)
  end
  /\ if fst r then storage (snd r) !! key = Some value
     else exists m, last (trace (snd r)) = Some (ShowToast m)
                    /\ (m = StorageFull (isIOS P) \/ m = SaveError).
Proof.
  intros r w1 c w3. subst r w1 c w3. unfold safeSetItem.
  destruct (setItem P key value w) as [[u|e] w1] eqn:E1.
  - pose proof (setItem_fst P key value w) as Hf. rewrite E1 in Hf. simpl in Hf.
    destruct (setItem_throws P (storage w) key value); [discriminate|].
    simpl. split; [reflexivity|]. eapply setItem_ok_stored, E1.
  - pose proof (setItem_fst P key value w) as Hf. rewrite E1 in Hf. simpl in Hf.
    destruct (setItem_throws P (storage w) key value) as [e'|]; [|discriminate].
    injection Hf as <-. simpl snd.
    destruct (is_quota_error e).
    + destruct (cleanupOldData P w1) as [cleaned w2]. simpl fst. simpl snd.
      destruct cleaned.
      * destruct (setItem P key value w2) as [[u|e2] w3] eqn:E3.
        -- pose proof (setItem_fst P key value w2) as Hf3. rewrite E3 in Hf3.
           simpl in Hf3.
           destruct (setItem_throws P (storage w2) key value); [discriminate|].
           simpl. split; [reflexivity|]. eapply setItem_ok_stored, E3.
        -- pose proof (setItem_fst P key value w2) as Hf3. rewrite E3 in Hf3.
           simpl in Hf3.
           destruct (setItem_throws P (storage w2) key value); [|discriminate].
           simpl. split; [reflexivity|].
           exists (StorageFull (isIOS P)). split; [apply last_snoc | now left].
      * simpl. split; [reflexivity|].
        exists (StorageFull (isIOS P)). split; [apply last_snoc | now left].
    + simpl. split; [reflexivity|].
      exists SaveError. split; [apply last_snoc | now right].
Qed.

(** C5, as stated, fails: on a browser with no room left and nothing to
    trim, the write is tried once and never again. *)
Lemma no_retry_when_nothing_trimmed :
  safeSetItem (ref_platform false 0) "goal_water" "2000" empty_world
  = (false,
     {| storage := ∅;
        trace := [ SetItem "goal_water" "2000"
                     (Some (DOMException "QuotaExceededError" 22));
                   ShowToast (StorageFull false) ] |}).
Proof. vm_compute. reflexivity. Qed.

(** ** Import: which keys a run touches *)

Lemma showToast_only_wrote (keys : list string) (m : Message) (w : World) :
  only_wrote keys w (showToast m w).
Proof.
  exists [ShowToast m]. split; [reflexivity|]. split.
  - intros k v r [H|[]]. discriminate.
  - reflexivity.
Qed.

Lemma safeSetItem_only_wrote (P : Platform) (key value : string) (w : World) :
  only_wrote (key :: historyKeys) w (snd (safeSetItem P key value w)).
Proof.
  assert (Hset : forall w0, only_wrote (key :: historyKeys) w0
                              (snd (setItem P key value w0))).
  { intros w0. eapply only_wrote_weaken; [|apply setItem_only_wrote].
    intros k [<-|[]]. now left. }
  unfold safeSetItem. pose proof (Hset w) as H1.
  destruct (setItem P key value w) as [[u|e] w1]; simpl in H1; [exact H1|].
  destruct (is_quota_error e).
  - pose proof (cleanupOldData_only_wrote P w1) as H2.
    apply (only_wrote_weaken _ (key :: historyKeys)) in H2; [|intros; now right].
    destruct (cleanupOldData P w1) as [cleaned w2]. simpl in H2.
    destruct cleaned.
    + pose proof (Hset w2) as H3.
      destruct (setItem P key value w2) as [[u|e2] w3]; simpl in H3;
        (eapply only_wrote_trans; [exact H1|]);
        (eapply only_wrote_trans; [exact H2|]);
        (eapply only_wrote_trans; [exact H3|]);
        apply showToast_only_wrote.
    + eapply only_wrote_trans; [exact H1|].
      eapply only_wrote_trans; [exact H2|]. apply showToast_only_wrote.
  - eapply only_wrote_trans; [exact H1|]. apply showToast_only_wrote.
Qed.

Lemma only_wrote_extends (keys : list string) (w w' : World) :
  only_wrote keys w w' -> exists evs, trace w' = (trace w ++ evs)%list.
Proof. intros (evs & H & _). now exists evs. Qed.

(** After a quota error the trace starts with the write that raised it. *)
Lemma safeSetItem_quota_trace (P : Platform) (key value : string) (w : World)
    (e : Exn) :
  setItem_throws P (storage w) key value = Some e ->
  is_quota_error e = true ->
  exists evs, trace (snd (safeSetItem P key value w))
              = (trace w ++ SetItem key value (Some e) :: evs)%list.
Proof.
  intros He Hq. unfold safeSetItem, setItem. rewrite He, Hq.
  set (w1 := emit (SetItem key value (Some e)) w).
  assert (Hrest : forall w', (exists evs, trace w' = (trace w1 ++ evs)%list) ->
            exists evs, trace w' = (trace w ++ SetItem key value (Some e) :: evs)%list).
  { intros w' [evs H]. exists evs. rewrite H. unfold w1. simpl.
    now rewrite <- app_assoc. }
  apply Hrest.
  pose proof (cleanupOldData_only_wrote P w1) as H2.
  destruct (cleanupOldData P w1) as [cleaned w2]. simpl in H2.
  apply (only_wrote_extends (key :: historyKeys)).
  apply (only_wrote_weaken _ (key :: historyKeys)) in H2; [|intros; now right].
  eapply only_wrote_trans; [exact H2|].
  destruct cleaned; [|apply showToast_only_wrote].
  pose proof (setItem_only_wrote P key value w2) as H3.
  apply (only_wrote_weaken _ (key :: historyKeys)) in H3;
    [|intros k [<-|[]]; now left].
  fold (setItem P key value w2).
  destruct (setItem P key value w2) as [[u|e2] w3]; simpl in H3;
    (eapply only_wrote_trans; [exact H3|]); apply showToast_only_wrote.
Qed.

(** Without a quota error only the key itself is written. *)
Lemma safeSetItem_direct (P : Platform) (key value : string) (w : World) :
  match setItem_throws P (storage w) key value with
  | Some e => is_quota_error e = false
  | None => True
  end ->
  only_wrote [key] w (snd (safeSetItem P key value w)).
Proof.
  intros H. unfold safeSetItem.
  pose proof (setItem_only_wrote P key value w) as H1.
  pose proof (setItem_fst P key value w) as Hf.
  destruct (setItem P key value w) as [[u|e] w1]; simpl in *; [exact H1|].
  destruct (setItem_throws P (storage w) key value); [|discriminate].
  injection Hf as <-. rewrite H.
  eapply only_wrote_trans; [exact H1|]. apply showToast_only_wrote.
Qed.

Lemma kept_refl (k : string) (w : World) : kept_or_trimmed k w w.
Proof.
  exists []. rewrite app_nil_r. split; [reflexivity|]. left.
  split; [reflexivity | intros v r []].
Qed.

Lemma quota_raised_app_l (e1 e2 : list Event) :
  quota_raised e1 -> quota_raised (e1 ++ e2).
Proof.
  intros (k & v & e & Hin & Hq). exists k, v, e. split; [|exact Hq].
  apply in_or_app. now left.
Qed.

Lemma quota_raised_app_r (e1 e2 : list Event) :
  quota_raised e2 -> quota_raised (e1 ++ e2).
Proof.
  intros (k & v & e & Hin & Hq). exists k, v, e. split; [|exact Hq].
  apply in_or_app. now right.
Qed.

Lemma kept_trans (k : string) (w1 w2 w3 : World) :
  kept_or_trimmed k w1 w2 -> kept_or_trimmed k w2 w3 -> kept_or_trimmed k w1 w3.
Proof.
  intros (e1 & H1 & C1) (e2 & H2 & C2).
  exists (e1 ++ e2)%list. split; [now rewrite H2, H1, app_assoc|].
  destruct C1 as [[S1 N1]|[Hin Q1]].
  - destruct C2 as [[S2 N2]|[Hin Q2]].
    + left. split; [now rewrite S2, S1|].
      intros v r Hin. apply in_app_or in Hin as [Hin|Hin];
        [now apply (N1 v r) | now apply (N2 v r)].
    + right. split; [exact Hin | now apply quota_raised_app_r].
  - right. split; [exact Hin | now apply quota_raised_app_l].
Qed.

Lemma only_wrote_kept (keys : list string) (k : string) (w w' : World) :
  only_wrote keys w w' -> ~ In k keys -> kept_or_trimmed k w w'.
Proof.
  intros (evs & He & Hs & Hf) Hk. exists evs. split; [exact He|]. left.
  split; [now apply Hf|]. intros v r Hin. apply Hk. eapply Hs, Hin.
Qed.

Lemma safeSetItem_kept (P : Platform) (key value k : string) (w : World) :
  k <> key -> kept_or_trimmed k w (snd (safeSetItem P key value w)).
Proof.
  intros Hne.
  destruct (setItem_throws P (storage w) key value) as [e|] eqn:He.
  - destruct (is_quota_error e) eqn:Hq.
    + destruct (in_dec string_dec k historyKeys) as [Hin|Hnin].
      * destruct (safeSetItem_quota_trace P key value w e He Hq) as [evs Ht].
        eexists. split; [exact Ht|]. right. split; [exact Hin|].
        exists key, value, e. split; [now left | exact Hq].
      * eapply only_wrote_kept; [apply safeSetItem_only_wrote|].
        intros [->|Hin]; [congruence | contradiction].
    + eapply only_wrote_kept.
      * apply safeSetItem_direct. now rewrite He.
      * intros [->|[]]. congruence.
  - eapply only_wrote_kept.
    + apply safeSetItem_direct. now rewrite He.
    + intros [->|[]]. congruence.
Qed.

Lemma import_field_kept (P : Platform) (label key k : string) (v : Value)
    (w : World) :
  k <> key \/ truthy v = false ->
  kept_or_trimmed k w (snd (import_field P label key v w)).
Proof.
  intros H. unfold import_field.
  destruct (truthy v) eqn:Hv; [|apply kept_refl].
  destruct H as [Hne|Hf]; [|discriminate].
  pose proof (safeSetItem_kept P key (String_ v) k w Hne) as Hk.
  destruct (safeSetItem P key (String_ v) w) as [[|] w']; exact Hk.
Qed.

Lemma import_setting_kept (P : Platform) (key k : string) (v : Value)
    (w : World) :
  k <> key \/ truthy v = false ->
  kept_or_trimmed k w (snd (import_setting P key v w)).
Proof.
  intros H. unfold import_setting.
  destruct (truthy v) eqn:Hv; [|apply kept_refl].
  destruct H as [Hne|Hf]; [|discriminate].
  now apply safeSetItem_kept.
Qed.

Lemma andThen_kept (k : string) (a b : World -> Result unit * World) (w : World) :
  (forall w0, kept_or_trimmed k w0 (snd (a w0))) ->
  (forall w0, kept_or_trimmed k w0 (snd (b w0))) ->
  kept_or_trimmed k w (snd ((a >> b) w)).
Proof.
  intros Ha Hb. unfold andThen. pose proof (Ha w) as H1.
  destruct (a w) as [[u|e] w1]; simpl in *; [|exact H1].
  eapply kept_trans; [exact H1 | apply Hb].
Qed.

Lemma import_writes_kept (P : Platform) (d : ImportedData) (f : Field) (w : World) :
  truthy (field_value d f) = false ->
  kept_or_trimmed (field_key f) w (snd (import_writes P d w)).
Proof.
  intros Hf. revert w. unfold import_writes.
  repeat (intros w; apply andThen_kept; clear w;
          [intros w; apply import_field_kept;
             destruct f; simpl in *; solve [now right | left; discriminate]
          |]).
  intros w; apply andThen_kept; clear w; intros w;
    apply import_setting_kept;
    destruct f; simpl in *; solve [now right | left; discriminate].
Qed.




(** C7. The write of a setting that fails raises nothing: the file
    below parses, its six histories are stored, the write of the theme
    finds the store full, and the import still answers true with no
    import-failed toast. The write of the water goal that fails in the
    same way ends the import with the toast naming the field. *)
Theorem theme_write_failure_not_raised :
  let quota := DOMException "QuotaExceededError" 22 in
  (exists d,
     parseCSVData (ref_platform false 92) theme_only_csv = Ok d
     /\ settings_theme d = VStr "dark"
     /\ performDataImport (ref_platform false 92) d empty_world
        = (true,
           {| storage :=
                list_to_map
                  [ ("history_water", "{}"); ("history_protein", "{}");
                    ("workout_state", "{}"); ("workout_count", "{}");
                    ("workout_history", "{}"); ("habits_data", "[]") ];
              trace :=
                [ SetItem "history_water" "{}" None;
                  SetItem "history_protein" "{}" None;
                  SetItem "workout_state" "{}" None;
                  SetItem "workout_count" "{}" None;
                  SetItem "workout_history" "{}" None;
                  SetItem "habits_data" "[]" None;
                  SetItem "app_theme" "dark" (Some quota);
                  ShowToast (StorageFull false) ] |}))
  /\ (exists d,
        parseCSVData (ref_platform false 0) goal_only_csv = Ok d
        /\ water_goal d = VStr "2000"
        /\ performDataImport (ref_platform false 0) d empty_world
           = (false,
              {| storage := ∅;
                 trace :=
                   [ SetItem "goal_water" "2000" (Some quota);
                     ShowToast (StorageFull false);
                     ShowToast (ImportFailed "Failed to import water goal") ] |})).
Proof.
  split; eexists; (split; [vm_compute; reflexivity|]);
    split; try reflexivity; vm_compute; reflexivity.
Qed.

(** ** Export and a history that does not parse *)

Lemma getItem_insert_ne (store : gmap string string) (k k' v : string) :
  k <> k' -> getItem (<[k := v]> store) k' = getItem store k'.
Proof. intros H. unfold getItem. now rewrite lookup_insert_ne. Qed.

Lemma read_json_insert_ne (P : Platform) (store : gmap string string)
    (k k' v fallback : string) :
  k <> k' ->
  read_json P (<[k := v]> store) k' fallback = read_json P store k' fallback.
Proof. intros H. unfold read_json. now rewrite getItem_insert_ne. Qed.

Lemma read_json_fallback (P : Platform) (store : gmap string string)
    (k fallback : string) :
  store !! k = None \/ store !! k = Some EmptyString ->
  String.eqb fallback EmptyString = false ->
  read_json P store k fallback
  = read_json P (<[k := fallback]> store) k fallback.
Proof.
  intros H Hf. unfold read_json, getItem. rewrite lookup_insert_eq, Hf.
  destruct H as [-> | ->]; reflexivity.
Qed.

Lemma read_json_corrupt (P : Platform) (store : gmap string string)
    (k fallback text : string) :
  store !! k = Some text -> text <> EmptyString -> JSON_parse P text = None ->
  read_json P store k fallback = Throw SyntaxError.
Proof.
  intros Hk Hne Hp. unfold read_json, getItem. rewrite Hk.
  apply String.eqb_neq in Hne. now rewrite Hne, Hp.
Qed.

(** C2, as stated, fails: with a protein history that is not JSON the
    export hands over no file at all, only the error toast. *)
Lemma export_aborts_on_corrupt_history :
  let P := ref_platform false 1000 in
  let w := {| storage := corrupt_store; trace := [] |} in
  storage w !! "history_protein" = Some "{oops"
  /\ JSON_parse P "{oops" = None
  /\ exportData P w
     = (None, {| storage := corrupt_store;
                 trace := [ShowToast (ExportFailed SyntaxError)] |}).
Proof. vm_compute. repeat split; reflexivity. Qed.

(** C2, amended. A protein history that is stored but does not parse
    makes [convertDataToCSV] raise; [exportData] catches the exception,
    shows the export-error toast and hands over no file. Only a history
    that is absent or empty degrades to the empty mapping: the export is
    then the one of a store that holds the text of the empty object. *)
Theorem export_corrupt_history_aborts (P : Platform) (w : World) (text : string) :
  storage w !! "history_protein" = Some text ->
  text <> EmptyString ->
  JSON_parse P text = None ->
  (exists e, convertDataToCSV P (storage w) = Throw e
             /\ exportData P w = (None, showToast (ExportFailed e) w))
  /\ (forall store : gmap string string,
        store !! "history_protein" = None
        \/ store !! "history_protein" = Some EmptyString ->
        convertDataToCSV P store
        = convertDataToCSV P (<["history_protein" := "{}"]> store)).
Proof.
  intros Hk Hne Hp. split.
  - assert (Hthrow : exists e, convertDataToCSV P (storage w) = Throw e).
    { unfold convertDataToCSV.
      destruct (read_json P (storage w) "history_water" "{}") as [wh|e];
        simpl; [|now exists e].
      destruct (tracker_history_rows "water_history" wh) as [rows|e];
        simpl; [|now exists e].
      rewrite (read_json_corrupt P (storage w) _ _ text Hk Hne Hp).
      now exists SyntaxError. }
    destruct Hthrow as [e He]. exists e. split; [exact He|].
    unfold exportData. now rewrite He.
  - intros store Hs. unfold convertDataToCSV.
    rewrite <- (read_json_fallback P store "history_protein" "{}" Hs eq_refl).
    rewrite !read_json_insert_ne by discriminate.
    rewrite !getItem_insert_ne by discriminate.
    reflexivity.
Qed.

Lemma export_corrupt_history_aborts_witness :
  let P := ref_platform false 1000 in
  let w := {| storage := corrupt_store; trace := [] |} in
  exists e, convertDataToCSV P (storage w) = Throw e
            /\ exportData P w = (None, showToast (ExportFailed e) w).
Proof.
  intros P w.
  apply (export_corrupt_history_aborts P w "{oops");
    [reflexivity | discriminate | reflexivity].
Defined.

(** ** Sorting dates *)

Lemma compare_as_OT (a b : string) :
  String.compare a b = String_as_OT.compare a b.
Proof.
  revert b. induction a as [|x a IH]; destruct b as [|y b]; reflexivity.
Qed.

Lemma leb_cases (a b : string) :
  String.leb a b = true <-> a = b \/ String.ltb a b = true.
Proof.
  unfold String.leb, String.ltb.
  destruct (String.compare a b) eqn:E; split; intros H; try discriminate; auto.
  - left. now apply String.compare_eq_iff.
  - destruct H as [->|H]; [|discriminate].
    rewrite compare_as_OT in E.
    exfalso.
    apply (@StrictOrder_Irreflexive _ _ String_as_OT.lt_strorder b).
    destruct (String_as_OT.compare_spec b b) as [_|H|H]; try discriminate; exact H.
Qed.

Lemma ltb_trans (a b c : string) :
  String.ltb a b = true -> String.ltb b c = true -> String.ltb a c = true.
Proof.
  unfold String.ltb.
  rewrite (compare_as_OT a b), (compare_as_OT b c), (compare_as_OT a c).
  intros H1 H2.
  destruct (String_as_OT.compare a b) eqn:E1; simpl in H1; try discriminate H1.
  destruct (String_as_OT.compare b c) eqn:E2; simpl in H2; try discriminate H2.
  pose proof (@StrictOrder_Transitive _ _ String_as_OT.lt_strorder a b c E1 E2)
    as H.
  unfold String_as_OT.lt in H. now rewrite H.
Qed.

Lemma ltb_irrefl (a : string) : String.ltb a a = false.
Proof.
  unfold String.ltb. rewrite compare_as_OT.
  destruct (String_as_OT.compare a a) eqn:E; try reflexivity.
  exfalso. apply (@StrictOrder_Irreflexive _ _ String_as_OT.lt_strorder a).
  exact E.
Qed.

Lemma leb_trans (a b c : string) :
  String.leb a b = true -> String.leb b c = true -> String.leb a c = true.
Proof.
  rewrite !leb_cases. intros [->|H1] [->|H2]; auto.
  right. eapply ltb_trans; eassumption.
Qed.

Lemma leb_false_ltb (a b : string) :
  String.leb a b = false -> String.ltb b a = true.
Proof.
  unfold String.leb, String.ltb. rewrite (String.compare_antisym b a).
  destruct (String.compare a b); simpl; congruence.
Qed.

Lemma insert_sorted_perm (k : string) (l : list string) :
  Permutation (insert_sorted k l) (k :: l).
Proof.
  induction l as [|x l IH]; simpl; [reflexivity|].
  destruct (String.leb k x); [reflexivity|].
  rewrite IH. apply perm_swap.
Qed.

Lemma sort_keys_perm (l : list string) : Permutation (sort_keys l) l.
Proof.
  induction l as [|x l IH]; simpl; [reflexivity|].
  rewrite insert_sorted_perm. now constructor.
Qed.

Lemma sort_keys_length (l : list string) : length (sort_keys l) = length l.
Proof. apply Permutation_length, sort_keys_perm. Qed.

Lemma insert_sorted_sorted (k : string) (l : list string) :
  StronglySorted leb_true l -> StronglySorted leb_true (insert_sorted k l).
Proof.
  induction 1 as [|x l Hs IH Hx]; simpl.
  - repeat constructor.
  - destruct (String.leb k x) eqn:E.
    + constructor; [now constructor|]. constructor; [exact E|].
      eapply Forall_impl; [exact Hx|]. intros y Hy. eapply leb_trans; eassumption.
    + constructor; [exact IH|].
      rewrite List.Forall_forall. intros y Hy.
      apply (Permutation_in _ (insert_sorted_perm k l)) in Hy.
      destruct Hy as [<-|Hy].
      * apply leb_cases. right. now apply leb_false_ltb.
      * rewrite List.Forall_forall in Hx. now apply Hx.
Qed.

Lemma sort_keys_sorted (l : list string) : StronglySorted leb_true (sort_keys l).
Proof.
  induction l as [|x l IH]; simpl; [constructor | now apply insert_sorted_sorted].
Qed.

(** ** The entries the cleanup keeps *)

Lemma mem_In (k : string) (ks : list string) : mem k ks = true <-> In k ks.
Proof.
  unfold mem. rewrite existsb_exists. split.
  - intros (x & Hx & E). apply String.eqb_eq in E. now subst.
  - intros H. exists k. split; [exact H | apply String.eqb_refl].
Qed.

Lemma filter_sublist {A} (f : A -> bool) (l : list A) :
  sublist (List.filter f l) l.
Proof.
  induction l as [|x l IH]; simpl; [constructor|].
  destruct (f x); now constructor.
Qed.

Lemma filter_keys (f : string -> bool) (h : JsObj Value) :
  obj_keys (List.filter (fun '(k, _) => f k) h) = List.filter f (obj_keys h).
Proof.
  induction h as [|[k v] h IH]; simpl; [reflexivity|].
  destruct (f k); simpl; now rewrite IH.
Qed.

Lemma filter_length_perm {A} (f : A -> bool) (l l' : list A) :
  Permutation l l' -> length (List.filter f l) = length (List.filter f l').
Proof.
  induction 1 as [|x l l' _ IH|x y l|l1 l2 l3 _ IH1 _ IH2]; simpl.
  - reflexivity.
  - destruct (f x); simpl; now rewrite IH.
  - destruct (f x), (f y); reflexivity.
  - now rewrite IH1.
Qed.

Lemma filter_none {A} (f : A -> bool) (l : list A) :
  (forall x, In x l -> f x = false) -> List.filter f l = [].
Proof.
  induction l as [|x l IH]; simpl; intros H; [reflexivity|].
  rewrite (H x) by now left. apply IH. intros y Hy. apply H. now right.
Qed.

Lemma filter_all {A} (f : A -> bool) (l : list A) :
  (forall x, In x l -> f x = true) -> List.filter f l = l.
Proof.
  induction l as [|x l IH]; simpl; intros H; [reflexivity|].
  rewrite (H x) by now left. f_equal. apply IH. intros y Hy. apply H. now right.
Qed.

Lemma sorted_app_le (l1 l2 : list string) :
  StronglySorted leb_true (l1 ++ l2) ->
  forall x y, In x l1 -> In y l2 -> String.leb x y = true.
Proof.
  induction l1 as [|a l1 IH]; simpl; intros Hs x y Hx Hy; [contradiction|].
  apply StronglySorted_inv in Hs as [Hs Ha].
  destruct Hx as [<-|Hx]; [|now apply IH].
  rewrite List.Forall_forall in Ha. apply Ha. apply in_or_app. now right.
Qed.

Section Retained.
Variables (keep : nat) (h : JsObj Value).
Hypothesis Hnodup : NoDup (obj_keys h).

Let sorted := sort_keys (obj_keys h).
Let removed := firstn (length sorted - keep) sorted.
Let rest := skipn (length sorted - keep) sorted.

Lemma removed_is : datesToRemove keep (VObj h) = removed.
Proof. reflexivity. Qed.

Lemma sorted_split : sorted = (removed ++ rest)%list.
Proof. unfold removed, rest. now rewrite firstn_skipn. Qed.

Lemma sorted_nodup : List.NoDup sorted.
Proof.
  apply (Permutation_NoDup (l := obj_keys h)).
  - symmetry. apply sort_keys_perm.
  - now apply NoDup_ListNoDup.
Qed.

Lemma rest_not_removed (k : string) : In k rest -> ~ In k removed.
Proof.
  intros Hr Hm. pose proof sorted_nodup as Hnd. rewrite sorted_split in Hnd.
  apply List.NoDup_app_remove_l in Hnd as Hnd'.
  revert Hnd. clear -Hr Hm. induction removed as [|a l IH]; [contradiction|].
  simpl. intros Hnd. apply List.NoDup_cons_iff in Hnd as [Ha Hnd].
  destruct Hm as [->|Hm]; [|now apply IH].
  apply Ha. apply in_or_app. now right.
Qed.

Lemma retained_keys (k : string) :
  In k (obj_keys (retained keep h)) <-> In k (obj_keys h) /\ ~ In k removed.
Proof.
  unfold retained. rewrite removed_is.
  rewrite (filter_keys (fun k => negb (mem k removed))).
  rewrite filter_In, negb_true_iff. split; intros [H1 H2]; split; auto.
  - intros Hm. apply mem_In in Hm. congruence.
  - destruct (mem k removed) eqn:E; [|reflexivity].
    apply mem_In in E. contradiction.
Qed.

Lemma retained_length :
  length (retained keep h) = Nat.min keep (length h).
Proof.
  assert (Hlen : length (retained keep h)
                 = length (List.filter (fun k => negb (mem k removed)) sorted)).
  { transitivity (length (obj_keys (retained keep h)));
      [unfold obj_keys; now rewrite length_map|].
    unfold retained. rewrite removed_is.
    rewrite (filter_keys (fun k => negb (mem k removed))).
    apply filter_length_perm. symmetry. apply sort_keys_perm. }
  rewrite Hlen, sorted_split at 1. rewrite List.filter_app, length_app.
  rewrite filter_none, filter_all.
  - simpl. unfold rest. rewrite length_skipn. unfold sorted.
    rewrite sort_keys_length. unfold obj_keys. rewrite length_map. lia.
  - intros k Hk. apply negb_true_iff.
    destruct (mem k removed) eqn:E; [|reflexivity].
    apply mem_In in E. now apply rest_not_removed in Hk.
  - intros k Hk. apply negb_false_iff. now apply mem_In.
Qed.

Lemma retained_most_recent : most_recent keep (retained keep h) h.
Proof.
  split; [apply filter_sublist|]. split; [apply retained_length|].
  intros k k' Hk Hnk Hk'.
  apply retained_keys in Hk' as [Hk'h Hk'r].
  assert (Hkr : In k removed).
  { destruct (in_dec string_dec k removed) as [H|H]; [exact H|].
    exfalso. apply Hnk. apply retained_keys. now split. }
  assert (Hk'rest : In k' rest).
  { assert (Hs : In k' sorted).
    { apply (Permutation_in k' (Permutation_sym (sort_keys_perm (obj_keys h)))).
      exact Hk'h. }
    rewrite sorted_split in Hs. apply in_app_or in Hs as [Hs|Hs];
      [contradiction | exact Hs]. }
  pose proof (sort_keys_sorted (obj_keys h)) as Hs. fold sorted in Hs.
  rewrite sorted_split in Hs.
  pose proof (sorted_app_le _ _ Hs k k' Hkr Hk'rest) as Hle.
  apply leb_cases in Hle as [->|Hlt]; [contradiction | exact Hlt].
Qed.
End Retained.

(** ** The cleanup, key by key *)

Lemma trim_dates_obj (keep : nat) (h : JsObj Value) :
  trim_dates keep (VObj h)
  = if (keep <? length h)%nat then Some (VObj (retained keep h)) else None.
Proof.
  unfold trim_dates. simpl Object_keys. rewrite sort_keys_length.
  unfold obj_keys at 1. rewrite length_map. reflexivity.
Qed.

Lemma setItem_accepted (P : Platform) (k v : string) (w : World) :
  setItem_throws P (storage w) k v = None ->
  setItem P k v w
  = (Ok tt, {| storage := <[k := v]> (storage w);
               trace := (trace w ++ [SetItem k v None])%list |}).
Proof. intros H. unfold setItem. now rewrite H. Qed.

Lemma cleanup_key_standard (P : Platform) (key text : string) (c : bool)
    (w : World) (h : JsObj Value) :
  storage w !! key = Some text ->
  text <> EmptyString ->
  JSON_parse P text = Some (VObj h) ->
  (forall v, setItem_throws P (storage w) key v = None) ->
  storage (snd (cleanup_key P key (c, w))) !! key
  = Some (if (daysToKeep P <? length h)%nat
          then JSON_stringify P (VObj (retained (daysToKeep P) h))
          else text).
Proof.
  intros Hk Hne Hp Hacc. unfold cleanup_key, getItem. rewrite Hk.
  apply String.eqb_neq in Hne. rewrite Hne, Hp. simpl is_object. cbv iota.
  rewrite trim_dates_obj.
  destruct (daysToKeep P <? length h)%nat; [|exact Hk].
  rewrite setItem_accepted by apply Hacc. simpl. apply lookup_insert_eq.
Qed.

Lemma cleanup_habits_flag (keep : nat) (items : list Value) :
  fst (cleanup_habits keep items true) = true.
Proof.
  induction items as [|habit rest IH]; simpl; [reflexivity|].
  destruct (get_prop "history" habit) as [hv|e]; [|reflexivity].
  assert (E : (if truthy hv
               then match trim_dates keep hv with
                    | Some h' => (with_history habit h', true)
                    | None => (habit, true)
                    end
               else (habit, true))
              = (fst (if truthy hv
                      then match trim_dates keep hv with
                           | Some h' => (with_history habit h', true)
                           | None => (habit, true)
                           end
                      else (habit, true)), true)).
  { destruct (truthy hv); [|reflexivity]. now destruct (trim_dates keep hv). }
  rewrite E. destruct (cleanup_habits keep rest true) as [c r]. simpl in *.
  exact IH.
Qed.

Lemma cleanup_habits_well_formed (keep : nat) (items : list Value) (c : bool) :
  Forall well_formed_habit items ->
  exists c',
    cleanup_habits keep items c = (c', Ok (map (trimmed_habit keep) items))
    /\ (c' = false -> map (trimmed_habit keep) items = items).
Proof.
  intros Hwf. revert c.
  induction Hwf as [|habit rest (h & Hh & _) _ IH]; intros c; simpl.
  - exists c. auto.
  - unfold trimmed_habit at 1 3. rewrite Hh.
    unfold habit_history in Hh.
    destruct habit as [| | | | | |o]; try discriminate.
    simpl get_prop.
    destruct (obj_get "history" o) as [[| | | | | |h0]|] eqn:Eo; try discriminate.
    injection Hh as ->. simpl truthy. cbv iota.
    rewrite trim_dates_obj.
    destruct (keep <? length h)%nat.
    + destruct (IH true) as (c' & Hc & _).
      pose proof (cleanup_habits_flag keep rest) as Hflag.
      rewrite Hc in *. simpl in Hflag. subst c'.
      exists true. split; [reflexivity | discriminate].
    + destruct (IH c) as (c' & Hc & Hid). rewrite Hc.
      exists c'. split; [reflexivity|]. intros Hf. now rewrite Hid.
Qed.

Lemma cleanup_key_habits (P : Platform) (text : string) (c : bool)
    (w : World) (items : list Value) :
  storage w !! "habits_data" = Some text ->
  text <> EmptyString ->
  JSON_parse P text = Some (VArr items) ->
  Forall well_formed_habit items ->
  (forall v, setItem_throws P (storage w) "habits_data" v = None) ->
  let items' := map (trimmed_habit (daysToKeep P)) items in
  let stored := storage (snd (cleanup_key P "habits_data" (c, w))) !! "habits_data" in
  (stored = Some text /\ items' = items)
  \/ stored = Some (JSON_stringify P (VArr items')).
Proof.
  intros Hk Hne Hp Hwf Hacc items' stored. subst stored.
  unfold cleanup_key, getItem. rewrite Hk.
  apply String.eqb_neq in Hne. rewrite Hne, Hp. simpl String.eqb. cbv iota.
  destruct (cleanup_habits_well_formed (daysToKeep P) items c Hwf)
    as (c' & Hc & Hid).
  rewrite Hc. destruct c'.
  - right. rewrite setItem_accepted by apply Hacc. simpl. apply lookup_insert_eq.
  - left. split; [exact Hk | now apply Hid].
Qed.

Lemma fold_cleanup_only_wrote (P : Platform) (keys : list string)
    (acc : bool * World) :
  only_wrote keys (snd acc)
    (snd (fold_left (fun acc key => cleanup_key P key acc) keys acc)).
Proof.
  revert acc. induction keys as [|key keys IH]; intros [c w0]; simpl.
  - apply only_wrote_refl.
  - eapply only_wrote_trans.
    + eapply only_wrote_weaken; [|apply cleanup_key_only_wrote].
      intros k [<-|[]]. now left.
    + eapply only_wrote_weaken; [|apply IH]. intros k Hk. now right.
Qed.

(** What the whole cleanup leaves under one of its keys is what the
    step for that key leaves, and that step still finds the value the
    cleanup started with. *)
Lemma cleanup_at_key (P : Platform) (before after : list string) (key : string)
    (w : World) :
  historyKeys = (before ++ key :: after)%list ->
  ~ In key before -> ~ In key after ->
  exists c0 w0,
    storage w0 !! key = storage w !! key
    /\ storage (snd (cleanupOldData P w)) !! key
       = storage (snd (cleanup_key P key (c0, w0))) !! key.
Proof.
  intros Hkeys Hb Ha. unfold cleanupOldData. rewrite Hkeys.
  rewrite fold_left_app. simpl.
  pose proof (fold_cleanup_only_wrote P before (false, w)) as H1.
  destruct (fold_left (fun acc key => cleanup_key P key acc) before (false, w))
    as [c0 w0]. simpl in H1.
  exists c0, w0. destruct H1 as (_ & _ & _ & F1).
  split; [now apply F1|].
  pose proof (fold_cleanup_only_wrote P after (cleanup_key P key (c0, w0)))
    as (_ & _ & _ & F2).
  now apply F2.
Qed.

Lemma obj_get_replace {A} (k : string) (v v0 : A) (o : JsObj A) :
  obj_get k o = Some v0 -> obj_get k (obj_replace k v o) = Some v.
Proof.
  induction o as [|[k' x] o IH]; simpl; [discriminate|].
  destruct (String.eqb k k') eqn:E; simpl; rewrite E; [reflexivity | exact IH].
Qed.

Lemma trimmed_habit_history (keep : nat) (habit : Value) (h : JsObj Value) :
  habit_history habit = Some h ->
  NoDup (obj_keys h) ->
  exists kept,
    habit_history (trimmed_habit keep habit) = Some kept
    /\ most_recent keep kept h.
Proof.
  intros Hh Hnd. unfold trimmed_habit. rewrite Hh.
  destruct (keep <? length h)%nat eqn:E.
  - exists (retained keep h). split; [|now apply retained_most_recent].
    unfold habit_history in *. destruct habit as [| | | | | |o]; try discriminate.
    simpl. destruct (obj_get "history" o) as [x|] eqn:Eo; [|discriminate].
    now rewrite (obj_get_replace _ _ x).
  - exists h. split; [exact Hh|]. apply Nat.ltb_ge in E.
    split; [reflexivity|]. split; [lia|]. intros k k' Hk Hnk. contradiction.
Qed.



(** ** Printing and reading integers *)

Lemma read_digits_uint (d : Decimal.uint) (acc : Z) :
  read_digits 10 (NilEmpty.string_of_uint d) (Some acc)
  = Some (uint_value d acc).
Proof.
  revert acc. induction d; intros acc; simpl; try reflexivity; apply IHd.
Qed.

Lemma of_uint_acc_value (d : Decimal.uint) (acc : positive) :
  Z.pos (Pos.of_uint_acc d acc) = uint_value d (Z.pos acc).
Proof.
  revert acc. induction d; intros acc; simpl; try reflexivity;
    rewrite IHd; f_equal; lia.
Qed.

Lemma of_uint_value (d : Decimal.uint) : Z.of_N (Pos.of_uint d) = uint_value d 0.
Proof.
  induction d; simpl; try reflexivity; try exact IHd;
    apply of_uint_acc_value.
Qed.

Lemma to_uint_value (p : positive) : uint_value (Pos.to_uint p) 0 = Z.pos p.
Proof. now rewrite <- of_uint_value, DecimalPos.Unsigned.of_to. Qed.

Lemma read_digits_cons (radix : Z) (a : ascii) (rest : string) (acc : option Z) :
  read_digits radix (String a rest) acc
  = match digit_value radix a with
    | Some d =>
        read_digits radix rest
          (Some (match acc with Some v => v * radix + d | None => d end))
    | None => acc
    end.
Proof. reflexivity. Qed.

Lemma digit_char_facts (c : ascii) (k : Z) :
  digit_value 10 c = Some k ->
  is_space c = false /\ Ascii.eqb c "-" = false /\ Ascii.eqb c "+" = false.
Proof.
  destruct c as [[] [] [] [] [] [] [] []]; vm_compute; intros H;
    try discriminate; auto.
Qed.

Lemma strip_hex_prefix_not_x (c : ascii) (rest : string) :
  not_x rest = true -> strip_hex_prefix (String c rest) = None.
Proof.
  destruct rest as [|x rest']; [reflexivity|]. simpl.
  intros H. apply negb_true_iff in H. now rewrite H, andb_false_r.
Qed.

(** A text that starts with a decimal digit is read in radix 10. *)
Lemma parseInt_digit_first (c : ascii) (rest : string) (k : Z) :
  digit_value 10 c = Some k ->
  not_x rest = true ->
  parseInt_string (String c rest)
  = match read_digits 10 rest (Some k) with
    | Some v => Num v
    | None => NaN
    end.
Proof.
  intros Hk Hx. destruct (digit_char_facts c k Hk) as (Hs & Hm & Hp).
  unfold parseInt_string. cbn [skip_spaces]. rewrite Hs, Hm, Hp.
  rewrite (strip_hex_prefix_not_x c rest Hx), read_digits_cons, Hk.
  reflexivity.
Qed.

Lemma parseInt_minus_digit (c : ascii) (rest : string) (k : Z) :
  digit_value 10 c = Some k ->
  not_x rest = true ->
  parseInt_string (String "-" (String c rest))
  = match read_digits 10 rest (Some k) with
    | Some v => Num (- v)
    | None => NaN
    end.
Proof.
  intros Hk Hx. unfold parseInt_string.
  replace (skip_spaces (String "-" (String c rest)))
    with (String "-" (String c rest)) by reflexivity.
  cbv beta iota. rewrite Ascii.eqb_refl.
  rewrite (strip_hex_prefix_not_x c rest Hx), read_digits_cons, Hk.
  reflexivity.
Qed.

Lemma string_of_uint_not_x (d : Decimal.uint) :
  not_x (NilEmpty.string_of_uint d) = true.
Proof. destruct d; reflexivity. Qed.

Lemma parseInt_uint (d : Decimal.uint) :
  d <> Decimal.Nil ->
  parseInt_string (NilEmpty.string_of_uint d) = Num (uint_value d 0).
Proof.
  intros Hd.
  destruct d as [|l|l|l|l|l|l|l|l|l|l]; try congruence;
    cbn [NilEmpty.string_of_uint];
    (erewrite parseInt_digit_first;
     [ rewrite read_digits_uint; reflexivity
     | reflexivity
     | apply string_of_uint_not_x ]).
Qed.

Lemma parseInt_uint_neg (d : Decimal.uint) :
  d <> Decimal.Nil ->
  parseInt_string (String "-" (NilEmpty.string_of_uint d))
  = Num (- uint_value d 0).
Proof.
  intros Hd.
  destruct d as [|l|l|l|l|l|l|l|l|l|l]; try congruence;
    cbn [NilEmpty.string_of_uint];
    (erewrite parseInt_minus_digit;
     [ rewrite read_digits_uint; reflexivity
     | reflexivity
     | apply string_of_uint_not_x ]).
Qed.

Lemma string_of_uint_nonnil (d : Decimal.uint) :
  d <> Decimal.Nil -> NilZero.string_of_uint d = NilEmpty.string_of_uint d.
Proof. destruct d; intros H; [congruence | reflexivity ..]. Qed.

(** Reading the decimal form of an integer gives the integer back. *)
Lemma parseInt_Z_to_string (z : Z) : parseInt_string (Z_to_string z) = Num z.
Proof.
  unfold Z_to_string. destruct z as [|p|p]; simpl.
  - reflexivity.
  - rewrite string_of_uint_nonnil by apply Unsigned.to_uint_nonnil.
    rewrite parseInt_uint by apply Unsigned.to_uint_nonnil.
    now rewrite to_uint_value.
  - rewrite string_of_uint_nonnil by apply Unsigned.to_uint_nonnil.
    rewrite parseInt_uint_neg by apply Unsigned.to_uint_nonnil.
    now rewrite to_uint_value.
Qed.

Lemma parseInt_nat_to_string (n : nat) :
  parseInt_string (nat_to_string n) = Num (Z.of_nat n).
Proof. apply parseInt_Z_to_string. Qed.

Lemma string_of_uint_digits (d : Decimal.uint) :
  all_chars is_digit (NilEmpty.string_of_uint d) = true.
Proof. induction d; simpl; try reflexivity; exact IHd. Qed.

Lemma all_chars_weaken (p q : ascii -> bool) (s : string) :
  (forall c, p c = true -> q c = true) ->
  all_chars p s = true -> all_chars q s = true.
Proof.
  intros Hpq. induction s as [|c s IH]; simpl; [reflexivity|].
  intros H. apply andb_prop in H as [Hc Hs]. now rewrite (Hpq c Hc), IH.
Qed.

Lemma Z_to_string_chars (z : Z) : all_chars numeric_char (Z_to_string z) = true.
Proof.
  assert (Hd : forall d, all_chars numeric_char (NilZero.string_of_uint d) = true).
  { intros d. destruct d; try reflexivity;
      apply (all_chars_weaken is_digit); try apply (string_of_uint_digits (_ d));
      intros c Hc; unfold numeric_char; now rewrite Hc. }
  unfold Z_to_string. destruct z; simpl; try reflexivity; apply Hd.
Qed.

Lemma nat_to_string_chars (n : nat) : all_chars is_digit (nat_to_string n) = true.
Proof.
  unfold nat_to_string, Z_to_string. destruct (Z.of_nat n) eqn:E; simpl.
  - reflexivity.
  - rewrite string_of_uint_nonnil by apply Unsigned.to_uint_nonnil.
    apply string_of_uint_digits.
  - lia.
Qed.

Lemma Z_to_string_nonempty (z : Z) :
  exists c rest, Z_to_string z = String c rest /\ numeric_char c = true.
Proof.
  pose proof (Z_to_string_chars z) as H.
  assert (Hne : Z_to_string z <> EmptyString).
  { unfold Z_to_string. destruct z as [|p|p]; simpl; try discriminate.
    rewrite string_of_uint_nonnil by apply Unsigned.to_uint_nonnil.
    pose proof (Unsigned.to_uint_nonnil p) as Hp.
    destruct (Pos.to_uint p); try congruence; discriminate. }
  destruct (Z_to_string z) as [|c rest]; [congruence|].
  simpl in H. apply andb_prop in H as [Hc _]. eauto.
Qed.

Lemma all_chars_includes (p : ascii -> bool) (s : string) (c : ascii) :
  all_chars p s = true -> p c = false -> includes s c = false.
Proof.
  intros Hs Hc. induction s as [|a s IH]; simpl in *; [reflexivity|].
  apply andb_prop in Hs as [Ha Hs]. rewrite (IH Hs), orb_false_r.
  apply Ascii.eqb_neq. intros ->. congruence.
Qed.

(** ** Lines: tokenizing what was joined *)

Lemma escapeCSV_text (v : Value) : escapeCSV v = escape_text (cell_text v).
Proof. destruct v; reflexivity. Qed.

Lemma csv_line_texts (row : list Value) :
  csv_line row = line_of (map cell_text row).
Proof.
  unfold csv_line, line_of. f_equal. rewrite map_map.
  apply map_ext. intros v. apply escapeCSV_text.
Qed.

Lemma join_cons (sep p : string) (q : string) (rest : list string) :
  join sep (p :: q :: rest) = p +:+ sep +:+ join sep (q :: rest).
Proof. reflexivity. Qed.

Lemma text_ok_parts (s : string) :
  text_ok s = true ->
  includes s newline = false /\ (special s = true -> only_quotes s = false).
Proof.
  unfold text_ok. intros H. apply andb_prop in H as [Hn Hq].
  apply negb_true_iff in Hn. split; [exact Hn|].
  intros Hs. apply orb_prop in Hq as [Hq|Hq].
  - apply String.eqb_eq in Hq. subst s. discriminate.
  - now apply negb_true_iff.
Qed.

Lemma special_false (s : string) :
  special s = false -> includes s dquote = false /\ includes s comma = false.
Proof.
  unfold special. intros H.
  apply orb_false_elim in H as [H _]. apply orb_false_elim in H as [Hc Hq].
  auto.
Qed.

(** One text, then whatever follows a comma or the end of the row. *)
Lemma loop_text (t tail cur : string) (res : list string) :
  text_ok t = true ->
  starts_with_quote tail = false ->
  parseCSVRow_loop (escape_text t +:+ tail) false cur res
  = parseCSVRow_loop tail false (cur +:+ t) res.
Proof.
  intros Ht Htail. destruct (text_ok_parts t Ht) as [_ Hq].
  unfold escape_text. destruct (special t) eqn:Hs.
  - change (String dquote (double_quotes t +:+ str1 dquote) +:+ tail)
      with (String dquote ((double_quotes t +:+ str1 dquote) +:+ tail)).
    rewrite append_str1. apply loop_quoted; auto.
  - destruct (special_false t Hs) as [Hd Hc]. apply loop_plain; auto.
Qed.

Lemma loop_row (texts : list string) (res : list string) :
  texts <> [] ->
  forallb text_ok texts = true ->
  parseCSVRow_loop (line_of texts) false EmptyString res = (res ++ texts)%list.
Proof.
  revert res. induction texts as [|t texts IH]; intros res Hne Hok; [congruence|].
  simpl in Hok. apply andb_prop in Hok as [Ht Hok].
  destruct texts as [|t' texts].
  - unfold line_of. simpl. rewrite <- (append_empty_r (escape_text t)).
    rewrite loop_text by auto. reflexivity.
  - unfold line_of. simpl map. rewrite join_cons.
    rewrite loop_text by auto.
    change (str1 comma +:+ join (str1 comma) (escape_text t' :: map escape_text texts))
      with (String comma (line_of (t' :: texts))).
    cbn [parseCSVRow_loop]. change (Ascii.eqb comma dquote) with false.
    change (Ascii.eqb comma comma && negb false) with true. cbv iota.
    rewrite IH by (auto; discriminate).
    now rewrite <- app_assoc.
Qed.

Lemma parse_line_of (texts : list string) :
  texts <> [] -> forallb text_ok texts = true ->
  parseCSVRow (line_of texts) = texts.
Proof. intros Hne Hok. unfold parseCSVRow. now rewrite loop_row. Qed.

(** ** Rows: splitting what was joined *)

Lemma ends_cr_cons (a b : ascii) (s : string) :
  ends_cr (String a (String b s)) = ends_cr (String b s).
Proof. reflexivity. Qed.

Lemma split_lines_line (l rest cur : string) :
  includes l newline = false ->
  ends_cr l = false ->
  split_lines (l +:+ String newline rest) cur
  = (cur +:+ l) :: split_lines rest EmptyString.
Proof.
  revert cur. induction l as [|a l IH]; intros cur Hn He.
  - simpl. now rewrite append_empty_r.
  - simpl in Hn. apply orb_false_elim in Hn as [Ha Hn].
    cbn [String.append split_lines]. rewrite Ha.
    destruct l as [|b l].
    + simpl in He. cbn [String.append]. rewrite He. simpl.
      reflexivity.
    + cbn [String.append].
      assert (Hb : Ascii.eqb b newline = false).
      { simpl in Hn. now apply orb_false_elim in Hn as [Hb _]. }
      rewrite Hb, andb_false_r.
      change (String b (l +:+ String newline rest))
        with (String b l +:+ String newline rest).
      rewrite IH by auto. now rewrite append_str1.
Qed.

Lemma split_lines_last (l cur : string) :
  includes l newline = false -> split_lines l cur = [cur +:+ l].
Proof.
  revert cur. induction l as [|a l IH]; intros cur Hn.
  - simpl. now rewrite append_empty_r.
  - simpl in Hn. apply orb_false_elim in Hn as [Ha Hn].
    cbn [split_lines]. rewrite Ha.
    destruct l as [|b l].
    + reflexivity.
    + assert (Hb : Ascii.eqb b newline = false).
      { simpl in Hn. now apply orb_false_elim in Hn as [Hb _]. }
      rewrite Hb, andb_false_r. rewrite IH by auto. now rewrite append_str1.
Qed.

Lemma split_lines_join (lines : list string) :
  lines <> [] ->
  Forall (fun l => includes l newline = false /\ ends_cr l = false) lines ->
  split_lines (join (str1 newline) lines) EmptyString = lines.
Proof.
  induction lines as [|l lines IH]; intros Hne Hok; [congruence|].
  apply Forall_cons in Hok as [[Hn He] Hok].
  destruct lines as [|l' lines].
  - simpl. now rewrite split_lines_last.
  - rewrite join_cons.
    change (str1 newline +:+ join (str1 newline) (l' :: lines))
      with (String newline (join (str1 newline) (l' :: lines))).
    rewrite split_lines_line by auto. simpl String.append.
    f_equal. apply IH; [discriminate | exact Hok].
Qed.

Lemma includes_app (a b : string) (c : ascii) :
  includes (a +:+ b) c = includes a c || includes b c.
Proof.
  induction a as [|x a IH]; simpl; [reflexivity|]. now rewrite IH, orb_assoc.
Qed.

Lemma includes_double_quotes (s : string) (c : ascii) :
  Ascii.eqb dquote c = false ->
  includes (double_quotes s) c = includes s c.
Proof.
  intros Hc. induction s as [|a s IH]; simpl; [reflexivity|].
  destruct (Ascii.eqb a dquote) eqn:E; simpl.
  - apply Ascii.eqb_eq in E. subst a. now rewrite Hc, IH.
  - now rewrite IH.
Qed.

Lemma includes_escape_text (s : string) :
  includes (escape_text s) newline = includes s newline.
Proof.
  unfold escape_text. destruct (special s); [|reflexivity].
  simpl. rewrite includes_app, includes_double_quotes by reflexivity.
  simpl. now rewrite orb_false_r.
Qed.

Lemma includes_line_of (texts : list string) :
  forallb text_ok texts = true -> includes (line_of texts) newline = false.
Proof.
  induction texts as [|t texts IH]; intros Hok; [reflexivity|].
  simpl in Hok. apply andb_prop in Hok as [Ht Hok].
  destruct (text_ok_parts t Ht) as [Hn _].
  destruct texts as [|t' texts].
  - unfold line_of. simpl. now rewrite includes_escape_text.
  - unfold line_of. simpl map. rewrite join_cons, !includes_app.
    rewrite includes_escape_text, Hn. simpl.
    apply (IH Hok).
Qed.

Lemma row_ok_parts (texts : list string) :
  row_ok texts = true ->
  forallb text_ok texts = true /\ texts <> []
  /\ is_blank (line_of texts) = false /\ ends_cr (line_of texts) = false.
Proof.
  unfold row_ok. intros H.
  apply andb_prop in H as [H He]. apply andb_prop in H as [H Hb].
  apply andb_prop in H as [Hok Hne].
  apply negb_true_iff in He, Hb.
  repeat split; auto. destruct texts; [discriminate | congruence].
Qed.

(** A row of the export goes through the loop of [parseCSVData] as the
    texts it was written from. *)
Lemma process_rows_line (hm : JsObj nat) (d : Imported) (texts : list string)
    (rest : list string) :
  row_ok texts = true ->
  process_rows hm d (line_of texts :: rest)
  = (d' <-- process_row hm d texts ;; process_rows hm d' rest).
Proof.
  intros H. destruct (row_ok_parts texts H) as (Hok & Hne & Hb & _).
  simpl. now rewrite Hb, parse_line_of.
Qed.

Lemma split_snapshot_lines (header : string) (rows : list (list string)) :
  includes header newline = false -> ends_cr header = false ->
  forallb row_ok rows = true ->
  split_lines (join (str1 newline) (header :: map line_of rows)) EmptyString
  = header :: map line_of rows.
Proof.
  intros Hn He Hrows. apply split_lines_join; [discriminate|].
  constructor; [auto|].
  apply Forall_map. rewrite forallb_forall in Hrows.
  apply List.Forall_forall. intros r Hr.
  destruct (row_ok_parts r (Hrows r Hr)) as (Hok & _ & _ & Hcr).
  split; [now apply includes_line_of | exact Hcr].
Qed.

(** ** Serializing a typed snapshot *)

Lemma mapM_ok {A B} (f : A -> Result B) (g : A -> B) (l : list A) :
  (forall x, In x l -> f x = Ok (g x)) -> mapM f l = Ok (map g l).
Proof.
  induction l as [|a l IH]; intros H; simpl; [reflexivity|].
  rewrite (H a) by now left. simpl. rewrite IH; [reflexivity|].
  intros x Hx. apply H. now right.
Qed.

Lemma indexed_from_map {A B} (f : A -> B) (l : list A) (i : nat) :
  indexed_from i (map f l) = map (fun '(j, x) => (j, f x)) (indexed_from i l).
Proof.
  revert i. induction l as [|a l IH]; intros i; simpl; [reflexivity|].
  now rewrite IH.
Qed.

Lemma addRow_texts (tag key : string) (v : Value) :
  addRow tag key v = line_of (kv_row tag key (cell_text v)).
Proof. unfold addRow. rewrite csv_line_texts. reflexivity. Qed.

Lemma cell_text_item (o : option string) :
  cell_text (item_value o) = text_of o.
Proof. destruct o; reflexivity. Qed.

Lemma mapM_map_ok {A B C} (f : B -> Result C) (enc : A -> B) (g : A -> C)
    (l : list A) :
  (forall x, In x l -> f (enc x) = Ok (g x)) ->
  mapM f (map enc l) = Ok (map g l).
Proof.
  induction l as [|a l IH]; intros H; simpl; [reflexivity|].
  rewrite (H a) by now left. simpl. rewrite IH; [reflexivity|].
  intros x Hx. apply H. now right.
Qed.

Lemma mapM_indexed_ok {A C} (f : nat * Value -> Result C) (enc : A -> Value)
    (g : nat * A -> C) (l : list A) :
  (forall i x, f (i, enc x) = Ok (g (i, x))) ->
  mapM f (indexed (map enc l)) = Ok (map g (indexed l)).
Proof.
  intros H. unfold indexed. rewrite indexed_from_map.
  apply mapM_map_ok. intros [i x] _. apply H.
Qed.

Lemma tracker_history_rows_typed (tag : string)
    (h : list (string * list HistoryEntry)) :
  tracker_history_rows tag (tracker_history_value h)
  = Ok (map line_of (tracker_rows tag h)).
Proof.
  unfold tracker_history_rows, tracker_history_value, tracker_rows.
  cbn [Object_entries bind].
  rewrite (mapM_map_ok _ _
             (fun '(date, es) =>
                map (fun '(index, e) => line_of (tracker_entry_row tag date index e))
                    (indexed es))).
  - cbn [bind]. f_equal. rewrite concat_map, !map_map. f_equal.
    apply map_ext. intros [date es]. rewrite map_map.
    apply map_ext. intros [i e]. reflexivity.
  - intros [date es] _. cbn [forEach_items bind].
    apply (mapM_indexed_ok _ entry_value
             (fun '(index, e) => line_of (tracker_entry_row tag date index e))).
    intros i e. simpl. now rewrite csv_line_texts.
Qed.

Lemma workout_state_rows_typed (m : list (string * WorkoutStateEntry)) :
  workout_state_rows (workout_state_value m)
  = Ok (map line_of (map (fun '(type, s) => workout_state_row type s) m)).
Proof.
  unfold workout_state_rows, workout_state_value. cbn [Object_entries bind].
  rewrite map_map.
  apply mapM_map_ok. intros [type [c o]] _.
  simpl. rewrite csv_line_texts. destruct c; reflexivity.
Qed.

Lemma workout_count_rows_typed (m : list (string * Z)) :
  workout_count_rows (workout_count_value m)
  = Ok (map line_of (map (fun '(type, n) => workout_count_row type n) m)).
Proof.
  unfold workout_count_rows, workout_count_value. cbn [Object_entries bind].
  f_equal. rewrite !map_map. apply map_ext. intros [type n].
  now rewrite csv_line_texts.
Qed.

Lemma workout_history_rows_typed (h : list (string * list WorkoutHistoryEntry)) :
  workout_history_rows (workout_history_value h)
  = Ok (map line_of (workout_rows h)).
Proof.
  unfold workout_history_rows, workout_history_value, workout_rows.
  cbn [Object_entries bind].
  rewrite (mapM_map_ok _ _
             (fun '(date, es) =>
                map (fun '(index, e) => line_of (workout_entry_row date index e))
                    (indexed es))).
  - cbn [bind]. f_equal. rewrite concat_map, !map_map. f_equal.
    apply map_ext. intros [date es]. rewrite map_map.
    apply map_ext. intros [i e]. reflexivity.
  - intros [date es] _. cbn [forEach_items bind].
    apply (mapM_indexed_ok _ workout_entry_value
             (fun '(index, e) => line_of (workout_entry_row date index e))).
    intros i e. simpl. now rewrite csv_line_texts.
Qed.

Lemma habit_rows_typed (i : nat) (hb : HabitEntry) :
  habit_rows i (habit_entry_value hb) = Ok (map line_of (habit_rows_of i hb)).
Proof.
  unfold habit_rows, habit_entry_value, habit_rows_of. simpl.
  f_equal. rewrite csv_line_texts. simpl. f_equal.
  rewrite !map_map. apply map_ext. intros [date status].
  now rewrite csv_line_texts.
Qed.

Lemma habits_rows_typed (l : list HabitEntry) :
  habits_rows (habits_value l) = Ok (map line_of (habits_rows_from 0 l)).
Proof.
  unfold habits_rows, habits_value, habits_rows_from. cbn [forEach_items bind].
  rewrite (mapM_indexed_ok _ habit_entry_value
             (fun '(index, hb) => map line_of (habit_rows_of index hb))).
  - cbn [bind]. f_equal. rewrite concat_map, !map_map. f_equal.
    apply map_ext. intros [i hb]. reflexivity.
  - intros i hb. apply habit_rows_typed.
Qed.

(** The export of a store that holds a typed snapshot is the text
    written row by row from the snapshot. *)
Lemma convertDataToCSV_typed (P : Platform) (store : gmap string string)
    (S : Snapshot) :
  holds P store S -> convertDataToCSV P store = Ok (snapshot_csv P S).
Proof.
  intros (Hwg & Hwi & Hwh & Hpg & Hpi & Hph & Hws & Hwc & Hwo & Hh & Ht & Hr).
  unfold convertDataToCSV.
  rewrite Hwh, Hph, Hws, Hwc, Hwo, Hh. cbn [bind].
  rewrite !tracker_history_rows_typed, workout_state_rows_typed,
    workout_count_rows_typed, workout_history_rows_typed, habits_rows_typed.
  cbn [bind]. rewrite Hwg, Hwi, Hpg, Hpi, Ht, Hr.
  rewrite !addRow_texts, !cell_text_item.
  unfold snapshot_csv, snapshot_rows. do 2 f_equal.
  rewrite !map_app. reflexivity.
Qed.

(** ** Rows of an export are well formed *)

Lemma ends_cr_app (a : string) (c : ascii) (b : string) :
  ends_cr (a +:+ String c b) = ends_cr (String c b).
Proof.
  induction a as [|x a IH]; [reflexivity|].
  cbn [String.append]. destruct a as [|y a]; [reflexivity|].
  cbn [String.append] in *. exact IH.
Qed.

Lemma last_cons_default {A} (l : list A) (a d : A) :
  List.last (a :: l) d = List.last l a.
Proof.
  revert a d. induction l as [|b l IH]; intros a d; [reflexivity|].
  change (List.last (a :: b :: l) d) with (List.last (b :: l) d).
  rewrite IH. symmetry. apply IH.
Qed.

Lemma ends_cr_line_of (t : string) (texts : list string) :
  ends_cr (line_of (t :: texts))
  = ends_cr (escape_text (List.last texts t)).
Proof.
  revert t. induction texts as [|t' texts IH]; intros t; [reflexivity|].
  rewrite last_cons_default, <- IH.
  unfold line_of. cbn [map]. rewrite join_cons.
  set (L := join (str1 comma) (escape_text t' :: map escape_text texts)).
  change (str1 comma +:+ L) with (String comma L).
  rewrite ends_cr_app. destruct L; reflexivity.
Qed.

Lemma is_blank_starts (c : ascii) (s tail : string) :
  is_space c = false -> is_blank (String c s +:+ tail) = false.
Proof. intros H. simpl. now rewrite H. Qed.

(** A row that starts with a tag and ends as the export ends its rows. *)
Lemma row_ok_tagged (tag : string) (c : ascii) (s t : string)
    (texts : list string) :
  escape_text tag = String c s ->
  is_space c = false ->
  forallb text_ok (tag :: t :: texts) = true ->
  ends_cr (escape_text (List.last (t :: texts) tag)) = false ->
  row_ok (tag :: t :: texts) = true.
Proof.
  intros Htag Hc Hok He. unfold row_ok. rewrite Hok. cbn [nonempty andb].
  rewrite ends_cr_line_of, He. cbn [negb andb].
  unfold line_of. cbn [map]. rewrite join_cons, Htag.
  now rewrite is_blank_starts.
Qed.

Lemma text_ok_blank : text_ok blank = true.
Proof. reflexivity. Qed.

Lemma all_chars_app (p : ascii -> bool) (a b : string) :
  all_chars p (a +:+ b) = all_chars p a && all_chars p b.
Proof.
  induction a as [|x a IH]; simpl; [reflexivity|]. now rewrite IH, andb_assoc.
Qed.

Lemma only_quotes_app (a b : string) :
  only_quotes (a +:+ b) = only_quotes a && only_quotes b.
Proof.
  induction a as [|x a IH]; simpl; [reflexivity|]. now rewrite IH, andb_assoc.
Qed.

Lemma numeric_text_ok (s : string) :
  all_chars numeric_char s = true -> text_ok s = true.
Proof.
  intros H. unfold text_ok.
  rewrite (all_chars_includes numeric_char s newline H eq_refl). simpl.
  destruct s as [|c s]; [reflexivity|].
  simpl in *. apply andb_prop in H as [Hc _].
  replace (Ascii.eqb c dquote) with false; [reflexivity|].
  symmetry. apply Ascii.eqb_neq. intros ->. discriminate.
Qed.

Lemma Z_to_string_ok (z : Z) : text_ok (Z_to_string z) = true.
Proof. apply numeric_text_ok, Z_to_string_chars. Qed.

Lemma numeric_special (s : string) :
  all_chars numeric_char s = true -> special s = false.
Proof.
  intros H. unfold special.
  rewrite (all_chars_includes numeric_char s comma H eq_refl).
  rewrite (all_chars_includes numeric_char s dquote H eq_refl).
  now rewrite (all_chars_includes numeric_char s newline H eq_refl).
Qed.

Lemma numeric_ends_cr (s : string) :
  all_chars numeric_char s = true -> ends_cr s = false.
Proof.
  induction s as [|c s IH]; [reflexivity|]. simpl. intros H.
  apply andb_prop in H as [Hc Hs]. destruct s as [|c' s].
  - apply Ascii.eqb_neq. intros ->. discriminate.
  - now apply IH.
Qed.

Lemma digits_numeric (s : string) :
  all_chars is_digit s = true -> all_chars numeric_char s = true.
Proof.
  apply all_chars_weaken. intros c Hc. unfold numeric_char. now rewrite Hc.
Qed.

Lemma nat_to_string_ok (n : nat) : text_ok (nat_to_string n) = true.
Proof. apply numeric_text_ok, digits_numeric, nat_to_string_chars. Qed.

Lemma text_ok_app_underscore (a b : string) :
  includes a newline = false -> includes b newline = false ->
  text_ok (a +:+ str1 underscore +:+ b) = true.
Proof.
  intros Ha Hb. unfold text_ok.
  rewrite !includes_app, Ha, Hb. simpl.
  rewrite !only_quotes_app. simpl.
  now rewrite andb_false_r, orb_true_r.
Qed.

Lemma text_ok_newline (s : string) : text_ok s = true -> includes s newline = false.
Proof. intros H. now destruct (text_ok_parts s H). Qed.

Lemma entry_key_ok (date : string) (i : nat) :
  text_ok date = true -> text_ok (entry_key date i) = true.
Proof.
  intros H. apply text_ok_app_underscore; [now apply text_ok_newline|].
  apply text_ok_newline, nat_to_string_ok.
Qed.

Lemma bool_text_ok (b : bool) : text_ok (bool_text b) = true.
Proof. now destruct b. Qed.

(** ** Reading the rows back: the tracker histories *)

Lemma obj_get_app_none {A} (k : string) (o : JsObj A) (k' : string) (v : A) :
  obj_get k o = None ->
  obj_get k (o ++ [(k', v)])%list = if String.eqb k k' then Some v else None.
Proof.
  induction o as [|[k0 v0] o IH]; simpl; [reflexivity|].
  destruct (String.eqb k k0); [discriminate | exact IH].
Qed.

Lemma obj_replace_last {A} (k : string) (v v' : A) (o : JsObj A) :
  obj_get k o = None ->
  obj_replace k v' (o ++ [(k, v)])%list = (o ++ [(k, v')])%list.
Proof.
  induction o as [|[k0 v0] o IH]; simpl.
  - now rewrite String.eqb_refl.
  - destruct (String.eqb k k0); [discriminate|]. intros H. now rewrite IH.
Qed.

Lemma obj_define_new {A} (k : string) (v : A) (o : JsObj A) :
  obj_get k o = None -> not_index k = true ->
  obj_define k v o = (o ++ [(k, v)])%list.
Proof.
  intros Hg Hi. unfold obj_define. rewrite Hg.
  unfold not_index in Hi. now destruct (array_index k).
Qed.

Lemma obj_set_new {A} (k : string) (v : A) (o : JsObj A) :
  String.eqb k "__proto__" = false ->
  obj_get k o = None -> not_index k = true ->
  obj_set k v o = (o ++ [(k, v)])%list.
Proof. intros Hp Hg Hi. unfold obj_set. rewrite Hp. now apply obj_define_new. Qed.

Lemma inherited_proto (k : string) :
  inherited k = false -> String.eqb k "__proto__" = false.
Proof.
  unfold inherited, object_prototype_names. cbn [existsb].
  intros H. repeat (apply orb_false_elim in H as [? H]). assumption.
Qed.

Lemma date_ok_parts (d : string) :
  date_ok d = true ->
  text_ok d = true /\ inherited d = false /\ not_index d = true.
Proof.
  unfold date_ok. intros H. apply andb_prop in H as [H Hi].
  apply andb_prop in H as [Ht Hn]. apply negb_true_iff in Hn. auto.
Qed.

Lemma push_entry_new (date : string) (e : Value) (base : JsObj (list Value)) :
  date_ok date = true -> obj_get date base = None ->
  push_entry (VStr date) e base = Ok (base ++ [(date, [e])])%list.
Proof.
  intros Hd Hg. destruct (date_ok_parts date Hd) as (_ & Hi & Hn).
  unfold push_entry. cbn [String_]. rewrite Hg, Hi.
  now rewrite obj_set_new by (auto using inherited_proto).
Qed.

Lemma push_entry_more (date : string) (e : Value) (acc : list Value)
    (base : JsObj (list Value)) :
  obj_get date base = None ->
  push_entry (VStr date) e (base ++ [(date, acc)])%list
  = Ok (base ++ [(date, acc ++ [e])])%list.
Proof.
  intros Hg. unfold push_entry. cbn [String_].
  rewrite (obj_get_app_none _ _ _ _ Hg), String.eqb_refl.
  now rewrite obj_replace_last.
Qed.

(** ** Reading the rows back: one tracker *)

Lemma std_headerMap_headers :
  build_headerMap (parseCSVRow (join (str1 comma) headers)) = std_headerMap.
Proof. vm_compute. reflexivity. Qed.

Lemma distinct_cons (k : string) (l : list string) :
  distinct (k :: l) = true -> ~ In k l /\ distinct l = true.
Proof.
  simpl. intros H. apply andb_prop in H as [Hk Hl]. split; [|exact Hl].
  apply negb_true_iff in Hk. intros Hin. apply mem_In in Hin. congruence.
Qed.

Lemma obj_get_none_app {A} (k k' : string) (v : A) (o : JsObj A) :
  obj_get k o = None -> k <> k' -> obj_get k (o ++ [(k', v)])%list = None.
Proof.
  intros Hg Hne. rewrite (obj_get_app_none _ _ _ _ Hg).
  apply String.eqb_neq in Hne. now rewrite Hne.
Qed.

(** The three histories are read back by the same loop: a row per
    entry, the first row of a date opening its bucket, the next ones
    appending to it. *)
Section Buckets.
Context {E : Type}.
Variables (enc : E -> Value) (entry_ok : E -> bool)
          (row : string -> nat -> E -> list string).
Variables (get : Imported -> JsObj (list Value))
          (set : JsObj (list Value) -> Imported -> Imported).
Hypothesis Hrow_ok : forall date i e,
    text_ok date = true -> entry_ok e = true -> row_ok (row date i e) = true.
Hypothesis Hrow : forall d date i e,
    process_row std_headerMap d (row date i e)
    = (h <-- push_entry (VStr date) (enc e) (get d) ;; Ok (set h d)).
Hypothesis Hget : forall h d, get (set h d) = h.
Hypothesis Hset : forall h h' d, set h' (set h d) = set h' d.
Hypothesis Hid : forall d, set (get d) d = d.

Lemma bucket_more (date : string) (base : JsObj (list Value)) (es : list E) :
  forall (k : nat) (acc : list Value) (d : Imported) (rest : list string),
    obj_get date base = None ->
    get d = (base ++ [(date, acc)])%list ->
    text_ok date = true ->
    forallb entry_ok es = true ->
    process_rows std_headerMap d
      (map line_of (map (fun '(i, e) => row date i e) (indexed_from k es))
       ++ rest)
    = process_rows std_headerMap
        (set (base ++ [(date, acc ++ map enc es)])%list d) rest.
Proof.
  induction es as [|e es IH]; intros k acc d rest Hg Hh Hd Hes.
  - cbn [indexed_from map app]. now rewrite app_nil_r, <- Hh, Hid.
  - cbn [forallb] in Hes. apply andb_prop in Hes as [He Hes].
    cbn [indexed_from map app].
    rewrite process_rows_line by now apply Hrow_ok.
    rewrite Hrow, Hh, push_entry_more by exact Hg. cbn [bind].
    rewrite (IH (S k) (acc ++ [enc e])%list); auto.
    now rewrite Hset, <- app_assoc.
Qed.

Lemma bucket (date : string) (es : list E) (d : Imported)
    (rest : list string) :
  date_ok date = true ->
  nonempty es = true ->
  forallb entry_ok es = true ->
  obj_get date (get d) = None ->
  process_rows std_headerMap d
    (map line_of (map (fun '(i, e) => row date i e) (indexed es)) ++ rest)
  = process_rows std_headerMap
      (set (get d ++ [(date, map enc es)])%list d) rest.
Proof.
  intros Hd Hne Hes Hg. destruct es as [|e es]; [discriminate|].
  destruct (date_ok_parts date Hd) as (Hdt & _ & _).
  cbn [forallb] in Hes. apply andb_prop in Hes as [He Hes].
  unfold indexed. cbn [indexed_from map app].
  rewrite process_rows_line by now apply Hrow_ok.
  rewrite Hrow, push_entry_new by auto. cbn [bind].
  rewrite (bucket_more date (get d) es 1 [enc e]); auto.
  now rewrite Hset.
Qed.

Lemma buckets (h : list (string * list E)) :
  forall (d : Imported) (rest : list string),
    buckets_ok entry_ok h = true ->
    (forall date, In date (map fst h) -> obj_get date (get d) = None) ->
    process_rows std_headerMap d (map line_of (bucket_rows row h) ++ rest)
    = process_rows std_headerMap (set (get d ++ parsed_buckets enc h)%list d) rest.
Proof.
  induction h as [|[date es] h IH]; intros d rest Hok Hfresh.
  - cbn [bucket_rows map concat app parsed_buckets].
    now rewrite app_nil_r, Hid.
  - unfold buckets_ok in Hok. apply andb_prop in Hok as [Hdist Hall].
    cbn [map fst] in Hdist. apply distinct_cons in Hdist as [Hnin Hdist].
    cbn [forallb] in Hall. apply andb_prop in Hall as [Hhead Hall].
    apply andb_prop in Hhead as [Hhead Hes].
    apply andb_prop in Hhead as [Hd Hne].
    unfold bucket_rows. cbn [map concat]. rewrite map_app, <- app_assoc.
    rewrite bucket; auto; [|apply Hfresh; now left].
    fold (bucket_rows row h).
    rewrite IH.
    + rewrite Hset, Hget. cbn [parsed_buckets map]. now rewrite <- app_assoc.
    + unfold buckets_ok. now rewrite Hdist, Hall.
    + intros date' Hin. rewrite Hget.
      apply obj_get_none_app; [apply Hfresh; now right|].
      intros ->. contradiction.
Qed.
End Buckets.

(** ** Reading the rows back: workout states and counts *)

Lemma type_ok_parts (t : string) :
  type_ok t = true ->
  text_ok t = true /\ String.eqb t "__proto__" = false /\ not_index t = true.
Proof.
  unfold type_ok. intros H. apply andb_prop in H as [H Hi].
  apply andb_prop in H as [Ht Hn]. apply negb_true_iff in Hn. auto.
Qed.

Section KeyedRows.
Context {E : Type}.
Variables (enc : E -> Value) (row : string -> E -> list string).
Variables (get : Imported -> JsObj Value)
          (set : JsObj Value -> Imported -> Imported).
Hypothesis Hrow_ok : forall k e, text_ok k = true -> row_ok (row k e) = true.
Hypothesis Hrow : forall d k e,
    process_row std_headerMap d (row k e)
    = Ok (set (obj_set k (enc e) (get d)) d).
Hypothesis Hget : forall o d, get (set o d) = o.
Hypothesis Hset : forall o o' d, set o' (set o d) = set o' d.
Hypothesis Hid : forall d, set (get d) d = d.

Lemma keyed_rows (m : list (string * E)) :
  forall (d : Imported) (rest : list string),
    distinct (map fst m) = true ->
    forallb (fun '(k, _) => type_ok k) m = true ->
    (forall k, In k (map fst m) -> obj_get k (get d) = None) ->
    process_rows std_headerMap d
      (map line_of (map (fun '(k, e) => row k e) m) ++ rest)
    = process_rows std_headerMap
        (set (get d ++ map (fun '(k, e) => (k, enc e)) m)%list d) rest.
Proof.
  induction m as [|[k e] m IH]; intros d rest Hdist Hok Hfresh.
  - cbn [map app]. now rewrite app_nil_r, Hid.
  - cbn [map fst] in Hdist. apply distinct_cons in Hdist as [Hnin Hdist].
    cbn [forallb] in Hok. apply andb_prop in Hok as [Hk Hok].
    destruct (type_ok_parts k Hk) as (Ht & Hp & Hi).
    cbn [map app].
    rewrite process_rows_line by now apply Hrow_ok.
    rewrite Hrow. cbn [bind].
    rewrite obj_set_new by (auto; apply Hfresh; now left).
    rewrite IH; auto.
    + rewrite Hset, Hget. now rewrite <- app_assoc.
    + intros k' Hin. rewrite Hget.
      apply obj_get_none_app; [apply Hfresh; now right|].
      intros ->. contradiction.
Qed.
End KeyedRows.

(** ** The rows of each kind *)

Lemma row_ok_tracker_entry (tag : string) (c : ascii) (s : string)
    (date : string) (i : nat) (e : HistoryEntry) :
  text_ok tag = true -> escape_text tag = String c s -> is_space c = false ->
  text_ok date = true -> text_ok (entry_timestamp e) = true ->
  row_ok (tracker_entry_row tag date i e) = true.
Proof.
  intros Htag Hline Hc Hd Ht.
  eapply row_ok_tagged; [exact Hline | exact Hc | | reflexivity].
  cbn [forallb]. now rewrite Htag, Hd, Ht, entry_key_ok, Z_to_string_ok by auto.
Qed.

Lemma row_ok_workout_entry (date : string) (i : nat) (e : WorkoutHistoryEntry) :
  text_ok date = true ->
  text_ok (wh_type e) && text_ok (wh_timestamp e) = true ->
  row_ok (workout_entry_row date i e) = true.
Proof.
  intros Hd He. apply andb_prop in He as [Hty Hts].
  eapply row_ok_tagged; [reflexivity | reflexivity | | reflexivity].
  cbn [forallb].
  now rewrite Hd, Hty, Hts, entry_key_ok, Z_to_string_ok by auto.
Qed.

Lemma row_ok_workout_state (type : string) (s : WorkoutStateEntry) :
  text_ok type = true -> row_ok (workout_state_row type s) = true.
Proof.
  intros Ht. eapply row_ok_tagged; [reflexivity | reflexivity | |].
  - cbn [forallb]. now rewrite Ht, bool_text_ok, Z_to_string_ok.
  - cbn [List.last]. unfold escape_text.
    rewrite numeric_special by apply Z_to_string_chars.
    apply numeric_ends_cr, Z_to_string_chars.
Qed.

Lemma row_ok_workout_count (type : string) (n : Z) :
  text_ok type = true -> row_ok (workout_count_row type n) = true.
Proof.
  intros Ht. eapply row_ok_tagged; [reflexivity | reflexivity | | reflexivity].
  cbn [forallb]. now rewrite Ht, Z_to_string_ok.
Qed.

Lemma row_ok_kv (tag key value : string) (c : ascii) (s : string) :
  text_ok tag = true -> escape_text tag = String c s -> is_space c = false ->
  text_ok key = true -> text_ok value = true ->
  row_ok (kv_row tag key value) = true.
Proof.
  intros Htag Hline Hc Hk Hv.
  eapply row_ok_tagged; [exact Hline | exact Hc | | reflexivity].
  cbn [forallb]. now rewrite Htag, Hk, Hv.
Qed.

Lemma row_ok_habit (i : nat) (hb : HabitEntry) :
  text_ok (habit_name hb) = true -> text_ok (habit_color hb) = true ->
  row_ok (habit_row i hb) = true.
Proof.
  intros Hn Hc. eapply row_ok_tagged; [reflexivity | reflexivity | | reflexivity].
  cbn [forallb]. now rewrite Hn, Hc, nat_to_string_ok.
Qed.

Lemma row_ok_habit_day (i : nat) (date status : string) :
  text_ok date = true -> text_ok status = true ->
  row_ok (habit_day_row i date status) = true.
Proof.
  intros Hd Hs. eapply row_ok_tagged; [reflexivity | reflexivity | | reflexivity].
  cbn [forallb]. rewrite Hd, Hs.
  rewrite text_ok_app_underscore; [reflexivity | |now apply text_ok_newline].
  apply text_ok_newline, nat_to_string_ok.
Qed.

(** What the dispatch does with a row of each kind. *)
Lemma process_row_water_entry (d : Imported) (date : string) (i : nat)
    (e : HistoryEntry) :
  process_row std_headerMap d (tracker_entry_row "water_history" date i e)
  = (h <-- push_entry (VStr date) (entry_value e) (history (water d)) ;;
     Ok (set_water {| goal := goal (water d); intake := intake (water d);
                      history := h |} d)).
Proof.
  change (process_row std_headerMap d (tracker_entry_row "water_history" date i e))
    with (t <-- (h <-- push_entry (VStr date)
                         (VObj [("amount",
                                 VNum (parseInt_string
                                         (Z_to_string (entry_amount e))));
                                ("timestamp", VStr (entry_timestamp e))])
                         (history (water d)) ;;
                 Ok {| goal := goal (water d); intake := intake (water d);
                       history := h |}) ;;
          Ok (set_water t d)).
  rewrite parseInt_Z_to_string. fold (entry_value e).
  now destruct (push_entry (VStr date) (entry_value e) (history (water d))).
Qed.

Lemma process_row_protein_entry (d : Imported) (date : string) (i : nat)
    (e : HistoryEntry) :
  process_row std_headerMap d (tracker_entry_row "protein_history" date i e)
  = (h <-- push_entry (VStr date) (entry_value e) (history (protein d)) ;;
     Ok (set_protein {| goal := goal (protein d); intake := intake (protein d);
                        history := h |} d)).
Proof.
  change (process_row std_headerMap d
            (tracker_entry_row "protein_history" date i e))
    with (t <-- (h <-- push_entry (VStr date)
                         (VObj [("amount",
                                 VNum (parseInt_string
                                         (Z_to_string (entry_amount e))));
                                ("timestamp", VStr (entry_timestamp e))])
                         (history (protein d)) ;;
                 Ok {| goal := goal (protein d); intake := intake (protein d);
                       history := h |}) ;;
          Ok (set_protein t d)).
  rewrite parseInt_Z_to_string. fold (entry_value e).
  now destruct (push_entry (VStr date) (entry_value e) (history (protein d))).
Qed.

Lemma process_row_workout_entry (d : Imported) (date : string) (i : nat)
    (e : WorkoutHistoryEntry) :
  process_row std_headerMap d (workout_entry_row date i e)
  = (h <-- push_entry (VStr date) (workout_entry_value e) (entries (workout d)) ;;
     Ok (set_workout {| state := state (workout d); count := count (workout d);
                        entries := h |} d)).
Proof.
  change (process_row std_headerMap d (workout_entry_row date i e))
    with (w <-- (h <-- push_entry (VStr date)
                         (VObj [("type", VStr (wh_type e));
                                ("count",
                                 VNum (parseInt_string
                                         (Z_to_string (wh_count e))));
                                ("timestamp", VStr (wh_timestamp e))])
                         (entries (workout d)) ;;
                 Ok {| state := state (workout d); count := count (workout d);
                       entries := h |}) ;;
          Ok (set_workout w d)).
  rewrite parseInt_Z_to_string. fold (workout_entry_value e).
  now destruct (push_entry (VStr date) (workout_entry_value e)
                  (entries (workout d))).
Qed.

Lemma process_row_workout_state (d : Imported) (type : string)
    (s : WorkoutStateEntry) :
  process_row std_headerMap d (workout_state_row type s)
  = Ok (set_workout {| state := obj_set type (workout_state_entry_value s)
                                  (state (workout d));
                       count := count (workout d);
                       entries := entries (workout d) |} d).
Proof.
  change (process_row std_headerMap d (workout_state_row type s))
    with (Ok (set_workout
                {| state :=
                     obj_set type
                       (VObj [("completed",
                               VBool (is_str (VStr (bool_text (ws_completed s)))
                                             "true"));
                              ("order",
                               VNum (parseInt_string (Z_to_string (ws_order s))))])
                       (state (workout d));
                   count := count (workout d);
                   entries := entries (workout d) |} d)).
  rewrite parseInt_Z_to_string. destruct s as [[] o]; reflexivity.
Qed.

Lemma process_row_workout_count (d : Imported) (type : string) (n : Z) :
  process_row std_headerMap d (workout_count_row type n)
  = Ok (set_workout {| state := state (workout d);
                       count := obj_set type (VNum (Num n)) (count (workout d));
                       entries := entries (workout d) |} d).
Proof.
  change (process_row std_headerMap d (workout_count_row type n))
    with (Ok (set_workout
                {| state := state (workout d);
                   count := obj_set type
                              (VNum (parseInt_string (Z_to_string n)))
                              (count (workout d));
                   entries := entries (workout d) |} d)).
  now rewrite parseInt_Z_to_string.
Qed.

(** ** Reading the rows back: habits *)

Lemma split_on_none (c : ascii) (s cur : string) :
  includes s c = false -> split_on c s cur = [cur +:+ s].
Proof.
  revert cur. induction s as [|a s IH]; intros cur H; simpl in *.
  - now rewrite append_empty_r.
  - apply orb_false_elim in H as [Ha Hs]. rewrite Ha, IH by exact Hs.
    now rewrite append_str1.
Qed.

Lemma split_on_first (c : ascii) (a b cur : string) :
  includes a c = false ->
  split_on c (a +:+ String c b) cur = (cur +:+ a) :: split_on c b EmptyString.
Proof.
  revert cur. induction a as [|x a IH]; intros cur H; simpl in *.
  - now rewrite Ascii.eqb_refl, append_empty_r.
  - apply orb_false_elim in H as [Hx Ha]. rewrite Hx, IH by exact Ha.
    now rewrite append_str1.
Qed.

Lemma nat_to_string_no_underscore (n : nat) :
  includes (nat_to_string n) underscore = false.
Proof.
  apply (all_chars_includes is_digit); [apply nat_to_string_chars | reflexivity].
Qed.

Lemma habit_key_parts (i : nat) (date : string) :
  includes date underscore = false ->
  split_on underscore (nat_to_string i +:+ str1 underscore +:+ date) EmptyString
  = [nat_to_string i; date].
Proof.
  intros H. change (str1 underscore +:+ date) with (String underscore date).
  rewrite split_on_first by apply nat_to_string_no_underscore.
  now rewrite split_on_none.
Qed.

Lemma day_ok_parts (d : string) :
  day_ok d = true ->
  text_ok d = true /\ includes d underscore = false /\ not_index d = true.
Proof.
  unfold day_ok. intros H. apply andb_prop in H as [H Hi].
  apply andb_prop in H as [Ht Hn]. apply negb_true_iff in Hn. auto.
Qed.

Lemma no_underscore_not_proto (d : string) :
  includes d underscore = false -> String.eqb d "__proto__" = false.
Proof.
  intros H. apply String.eqb_neq. intros ->. discriminate.
Qed.

Lemma insert_last {A} (front : list A) (x y : A) :
  <[length front := y]> (front ++ [x])%list = (front ++ [y])%list.
Proof.
  induction front as [|a front IH]; simpl; [reflexivity | now rewrite IH].
Qed.

Lemma lookup_last {A} (front : list A) (x : A) :
  (front ++ [x])%list !! length front = Some x.
Proof. induction front as [|a front IH]; simpl; [reflexivity | exact IH]. Qed.

Lemma process_row_habit (d : Imported) (hb : HabitEntry) :
  process_row std_headerMap d (habit_row (length (habits d)) hb)
  = Ok (set_habits
          (habits d ++ [{| name_color := Some (VStr (habit_name hb),
                                               VStr (habit_color hb));
                           dates := [] |}])%list d).
Proof.
  set (i := length (habits d)).
  change (process_row std_headerMap d (habit_row i hb))
    with (h <-- case_habit std_headerMap (habit_row i hb)
                  (VStr (nat_to_string i)) (habits d) ;;
          Ok (set_habits h d)).
  rewrite (case_habit_nat _ _ _ i) by apply parseInt_nat_to_string.
  cbn [bind]. do 2 f_equal.
  rewrite pad_habits_nat. unfold dates_at, i.
  rewrite (lookup_ge_None_2 (habits d) (length (habits d))) by lia.
  replace (S (length (habits d)) - length (habits d))%nat with 1%nat by lia.
  cbn [repeat]. now rewrite insert_last.
Qed.

Lemma process_row_habit_day (d : Imported) (front : list HabitData)
    (cur : HabitData) (date status : string) :
  habits d = (front ++ [cur])%list ->
  includes date underscore = false ->
  process_row std_headerMap d (habit_day_row (length front) date status)
  = Ok (set_habits
          (front ++ [{| name_color := name_color cur;
                        dates := obj_set date (VStr status) (dates cur) |}])%list
          d).
Proof.
  intros Hh Hd. set (i := length front).
  change (process_row std_headerMap d (habit_day_row i date status))
    with (h <-- case_habit_history
                  (VStr (nat_to_string i +:+ str1 underscore +:+ date))
                  (VStr status) (habits d) ;;
          Ok (set_habits h d)).
  unfold case_habit_history. rewrite habit_key_parts by exact Hd.
  cbn [lookup list_lookup opt_str]. unfold parseInt. cbn [String_].
  rewrite parseInt_nat_to_string, pad_habits_nat, Hh.
  replace (S i - length (front ++ [cur]))%nat with 0%nat
    by (rewrite length_app; simpl; unfold i; lia).
  cbn [repeat]. rewrite app_nil_r. unfold habit_at.
  replace (Z.of_nat i <? 0) with false by (symmetry; apply Z.ltb_ge; lia).
  rewrite Nat2Z.id. unfold i. rewrite lookup_last. cbn [bind].
  now rewrite insert_last.
Qed.

Lemma habit_day_rows (front : list HabitData) (days : list (string * string)) :
  forall (cur : HabitData) (d : Imported) (rest : list string),
    habits d = (front ++ [cur])%list ->
    distinct (map fst days) = true ->
    forallb (fun '(date, status) => day_ok date && text_ok status) days = true ->
    (forall date, In date (map fst days) -> obj_get date (dates cur) = None) ->
    process_rows std_headerMap d
      (map line_of (map (fun '(date, status) =>
                           habit_day_row (length front) date status) days)
       ++ rest)
    = process_rows std_headerMap
        (set_habits
           (front ++ [{| name_color := name_color cur;
                         dates := (dates cur
                                   ++ map (fun '(date, status) =>
                                             (date, VStr status)) days)%list |}])%list
           d) rest.
Proof.
  induction days as [|[date status] days IH]; intros cur d rest Hh Hdist Hok Hfresh.
  - cbn [map app]. rewrite app_nil_r.
    replace {| name_color := name_color cur; dates := dates cur |} with cur
      by now destruct cur.
    rewrite <- Hh. now destruct d.
  - cbn [map fst] in Hdist. apply distinct_cons in Hdist as [Hnin Hdist].
    cbn [forallb] in Hok. apply andb_prop in Hok as [Hhead Hok].
    apply andb_prop in Hhead as [Hday Hst].
    destruct (day_ok_parts date Hday) as (Ht & Hu & Hi).
    cbn [map app].
    rewrite process_rows_line by now apply row_ok_habit_day.
    rewrite (process_row_habit_day d front cur) by auto. cbn [bind].
    rewrite obj_set_new
      by (auto using no_underscore_not_proto; apply Hfresh; now left).
    rewrite (IH {| name_color := name_color cur;
                   dates := (dates cur ++ [(date, VStr status)])%list |});
      auto.
    + cbn [name_color dates]. now rewrite <- app_assoc.
    + intros date' Hin. cbn [dates].
      apply obj_get_none_app; [apply Hfresh; now right|].
      intros ->. contradiction.
Qed.

Lemma habit_ok_parts (hb : HabitEntry) :
  habit_ok hb = true ->
  text_ok (habit_name hb) = true /\ text_ok (habit_color hb) = true
  /\ distinct (map fst (habit_days hb)) = true
  /\ forallb (fun '(date, status) => day_ok date && text_ok status)
             (habit_days hb) = true.
Proof.
  unfold habit_ok. intros H. apply andb_prop in H as [H Hd].
  apply andb_prop in H as [H Hdist]. apply andb_prop in H as [Hn Hc]. auto.
Qed.

Lemma habit_block (hb : HabitEntry) (d : Imported) (rest : list string) :
  habit_ok hb = true ->
  process_rows std_headerMap d
    (map line_of (habit_rows_of (length (habits d)) hb) ++ rest)
  = process_rows std_headerMap
      (set_habits (habits d ++ [parsed_habit hb])%list d) rest.
Proof.
  intros Hok. destruct (habit_ok_parts hb Hok) as (Hn & Hc & Hdist & Hdays).
  unfold habit_rows_of. cbn [map app].
  rewrite process_rows_line by now apply row_ok_habit.
  rewrite process_row_habit. cbn [bind].
  rewrite (habit_day_rows (habits d) (habit_days hb)
             {| name_color := Some (VStr (habit_name hb), VStr (habit_color hb));
                dates := [] |}); auto.
Qed.

Lemma habit_blocks (l : list HabitEntry) :
  forall (d : Imported) (rest : list string),
    forallb habit_ok l = true ->
    process_rows std_headerMap d
      (map line_of (habits_rows_from (length (habits d)) l) ++ rest)
    = process_rows std_headerMap
        (set_habits (habits d ++ map parsed_habit l)%list d) rest.
Proof.
  induction l as [|hb l IH]; intros d rest Hok.
  - cbn [habits_rows_from indexed_from map concat app]. rewrite app_nil_r.
    now destruct d.
  - cbn [forallb] in Hok. apply andb_prop in Hok as [Hhb Hok].
    unfold habits_rows_from. cbn [indexed_from map concat].
    rewrite map_app, <- app_assoc. rewrite habit_block by exact Hhb.
    replace (S (length (habits d)))
      with (length (habits (set_habits (habits d ++ [parsed_habit hb])%list d)))
      by (cbn [habits set_habits]; rewrite length_app; simpl; lia).
    fold (habits_rows_from
            (length (habits (set_habits (habits d ++ [parsed_habit hb])%list d)))
            l).
    rewrite IH by exact Hok.
    cbn [habits set_habits map]. now rewrite <- app_assoc.
Qed.

(** ** Reading the rows back: the whole file *)

Lemma water_rows (h : list (string * list HistoryEntry)) (d : Imported)
    (rest : list string) :
  tracker_history_ok h = true ->
  history (water d) = [] ->
  process_rows std_headerMap d
    (map line_of (tracker_rows "water_history" h) ++ rest)
  = process_rows std_headerMap
      (set_water {| goal := goal (water d); intake := intake (water d);
                    history := parsed_history h |} d) rest.
Proof.
  intros Hok Hempty.
  rewrite <- (app_nil_l (parsed_history h)), <- Hempty.
  apply (buckets entry_value (fun e => text_ok (entry_timestamp e))
           (tracker_entry_row "water_history")
           (fun d => history (water d))
           (fun h d => set_water {| goal := goal (water d);
                                    intake := intake (water d);
                                    history := h |} d)).
  - intros date i e Hd He.
    now eapply (row_ok_tracker_entry "water_history"); [reflexivity ..| |].
  - apply process_row_water_entry.
  - reflexivity.
  - reflexivity.
  - now intros [v e [g i hh] p w hb s].
  - exact Hok.
  - intros date _. now rewrite Hempty.
Qed.

Lemma protein_rows (h : list (string * list HistoryEntry)) (d : Imported)
    (rest : list string) :
  tracker_history_ok h = true ->
  history (protein d) = [] ->
  process_rows std_headerMap d
    (map line_of (tracker_rows "protein_history" h) ++ rest)
  = process_rows std_headerMap
      (set_protein {| goal := goal (protein d); intake := intake (protein d);
                      history := parsed_history h |} d) rest.
Proof.
  intros Hok Hempty.
  rewrite <- (app_nil_l (parsed_history h)), <- Hempty.
  apply (buckets entry_value (fun e => text_ok (entry_timestamp e))
           (tracker_entry_row "protein_history")
           (fun d => history (protein d))
           (fun h d => set_protein {| goal := goal (protein d);
                                      intake := intake (protein d);
                                      history := h |} d)).
  - intros date i e Hd He.
    now eapply (row_ok_tracker_entry "protein_history"); [reflexivity ..| |].
  - apply process_row_protein_entry.
  - reflexivity.
  - reflexivity.
  - now intros [v e w [g i hh] wo hb s].
  - exact Hok.
  - intros date _. now rewrite Hempty.
Qed.

Lemma workout_history_rows_read (h : list (string * list WorkoutHistoryEntry))
    (d : Imported) (rest : list string) :
  workout_history_ok h = true ->
  entries (workout d) = [] ->
  process_rows std_headerMap d (map line_of (workout_rows h) ++ rest)
  = process_rows std_headerMap
      (set_workout {| state := state (workout d); count := count (workout d);
                      entries := parsed_workout_history h |} d) rest.
Proof.
  intros Hok Hempty.
  rewrite <- (app_nil_l (parsed_workout_history h)), <- Hempty.
  apply (buckets workout_entry_value
           (fun e => text_ok (wh_type e) && text_ok (wh_timestamp e))
           workout_entry_row
           (fun d => entries (workout d))
           (fun h d => set_workout {| state := state (workout d);
                                      count := count (workout d);
                                      entries := h |} d)).
  - intros date i e Hd He. now apply row_ok_workout_entry.
  - apply process_row_workout_entry.
  - reflexivity.
  - reflexivity.
  - now intros [v e w p [st c en] hb s].
  - exact Hok.
  - intros date _. now rewrite Hempty.
Qed.

Lemma workout_state_rows_read (m : list (string * WorkoutStateEntry))
    (d : Imported) (rest : list string) :
  distinct (map fst m) = true ->
  forallb (fun '(type, _) => type_ok type) m = true ->
  state (workout d) = [] ->
  process_rows std_headerMap d
    (map line_of (map (fun '(type, s) => workout_state_row type s) m) ++ rest)
  = process_rows std_headerMap
      (set_workout
         {| state := map (fun '(type, s) => (type, workout_state_entry_value s)) m;
            count := count (workout d);
            entries := entries (workout d) |} d) rest.
Proof.
  intros Hdist Hok Hempty.
  rewrite <- (app_nil_l
                (map (fun '(type, s) => (type, workout_state_entry_value s)) m)),
    <- Hempty.
  apply (keyed_rows workout_state_entry_value workout_state_row
           (fun d => state (workout d))
           (fun o d => set_workout {| state := o; count := count (workout d);
                                      entries := entries (workout d) |} d));
    auto.
  - intros k e Hk. now apply row_ok_workout_state.
  - apply process_row_workout_state.
  - now intros [v e w p [st c en] hb s].
  - intros k _. now rewrite Hempty.
Qed.

Lemma workout_count_rows_read (m : list (string * Z)) (d : Imported)
    (rest : list string) :
  distinct (map fst m) = true ->
  forallb (fun '(type, _) => type_ok type) m = true ->
  count (workout d) = [] ->
  process_rows std_headerMap d
    (map line_of (map (fun '(type, n) => workout_count_row type n) m) ++ rest)
  = process_rows std_headerMap
      (set_workout
         {| state := state (workout d);
            count := map (fun '(type, n) => (type, VNum (Num n))) m;
            entries := entries (workout d) |} d) rest.
Proof.
  intros Hdist Hok Hempty.
  rewrite <- (app_nil_l (map (fun '(type, n) => (type, VNum (Num n))) m)),
    <- Hempty.
  apply (keyed_rows (fun n => VNum (Num n)) workout_count_row
           (fun d => count (workout d))
           (fun o d => set_workout {| state := state (workout d); count := o;
                                      entries := entries (workout d) |} d));
    auto.
  - intros k e Hk. now apply row_ok_workout_count.
  - apply process_row_workout_count.
  - now intros [v e w p [st c en] hb s].
  - intros k _. now rewrite Hempty.
Qed.

Lemma kv_row_read (tag key value : string) (c : ascii) (s : string)
    (d : Imported) (rest : list string) :
  text_ok tag = true -> escape_text tag = String c s -> is_space c = false ->
  text_ok key = true -> text_ok value = true ->
  process_rows std_headerMap d (line_of (kv_row tag key value) :: rest)
  = (d' <-- process_row std_headerMap d (kv_row tag key value) ;;
     process_rows std_headerMap d' rest).
Proof.
  intros. apply process_rows_line. now apply (row_ok_kv tag key value c s).
Qed.

Lemma opt_text_ok_text_of (o : option string) :
  opt_text_ok o = true -> text_ok (text_of o) = true.
Proof. destruct o; [auto | reflexivity]. Qed.

(** ** Every exported row is read back whole *)

Lemma indexed_from_In {A} (l : list A) :
  forall (k i : nat) (x : A), In (i, x) (indexed_from k l) -> In x l.
Proof.
  induction l as [|a l IH]; intros k i x H; simpl in *; [contradiction|].
  destruct H as [H|H]; [left; congruence | right; eauto].
Qed.

Lemma bucket_rows_ok {E} (entry_ok : E -> bool)
    (row : string -> nat -> E -> list string) (h : list (string * list E)) :
  (forall date i e,
      text_ok date = true -> entry_ok e = true -> row_ok (row date i e) = true) ->
  buckets_ok entry_ok h = true ->
  forallb row_ok (bucket_rows row h) = true.
Proof.
  intros Hrow Hok. unfold buckets_ok in Hok. apply andb_prop in Hok as [_ Hall].
  rewrite forallb_forall in Hall. apply forallb_forall. intros r Hr.
  unfold bucket_rows in Hr. apply in_concat in Hr as (rows & Hrows & Hr).
  apply in_map_iff in Hrows as ([date es] & <- & Hin).
  apply in_map_iff in Hr as ([i e] & <- & Hie).
  specialize (Hall _ Hin). cbv beta iota in Hall.
  apply andb_prop in Hall as [Hhead Hes]. apply andb_prop in Hhead as [Hd _].
  destruct (date_ok_parts date Hd) as (Hdt & _ & _).
  rewrite forallb_forall in Hes.
  apply Hrow; [exact Hdt|]. apply Hes. eapply indexed_from_In, Hie.
Qed.

Lemma keyed_rows_ok {E} (row : string -> E -> list string)
    (m : list (string * E)) :
  (forall k e, text_ok k = true -> row_ok (row k e) = true) ->
  forallb (fun '(k, _) => type_ok k) m = true ->
  forallb row_ok (map (fun '(k, e) => row k e) m) = true.
Proof.
  intros Hrow Hok. rewrite forallb_forall in Hok. apply forallb_forall.
  intros r Hr. apply in_map_iff in Hr as ([k e] & <- & Hin).
  specialize (Hok _ Hin). cbv beta iota in Hok.
  destruct (type_ok_parts k Hok) as (Ht & _ & _). now apply Hrow.
Qed.

Lemma habit_rows_of_ok (i : nat) (hb : HabitEntry) :
  habit_ok hb = true -> forallb row_ok (habit_rows_of i hb) = true.
Proof.
  intros Hok. destruct (habit_ok_parts hb Hok) as (Hn & Hc & _ & Hdays).
  unfold habit_rows_of. cbn [forallb]. rewrite row_ok_habit by auto.
  rewrite forallb_forall in Hdays. apply forallb_forall. intros r Hr.
  apply in_map_iff in Hr as ([date status] & <- & Hin).
  specialize (Hdays _ Hin). cbv beta iota in Hdays.
  apply andb_prop in Hdays as [Hd Hs].
  destruct (day_ok_parts date Hd) as (Hdt & _ & _).
  now apply row_ok_habit_day.
Qed.

Lemma habits_rows_ok (l : list HabitEntry) :
  forall start,
    forallb habit_ok l = true ->
    forallb row_ok (habits_rows_from start l) = true.
Proof.
  induction l as [|hb l IH]; intros start Hok; [reflexivity|].
  cbn [forallb] in Hok. apply andb_prop in Hok as [Hhb Hok].
  unfold habits_rows_from. cbn [indexed_from map concat].
  rewrite forallb_app, habit_rows_of_ok by exact Hhb.
  apply (IH (S start) Hok).
Qed.

Lemma tracker_rows_ok (tag : string) (c : ascii) (s : string)
    (h : list (string * list HistoryEntry)) :
  text_ok tag = true -> escape_text tag = String c s -> is_space c = false ->
  tracker_history_ok h = true ->
  forallb row_ok (tracker_rows tag h) = true.
Proof.
  intros Htag Hline Hc Hok.
  apply (bucket_rows_ok (fun e => text_ok (entry_timestamp e))
           (tracker_entry_row tag)); [|exact Hok].
  intros date i e Hd He. now apply (row_ok_tracker_entry tag c s).
Qed.

Lemma workout_rows_ok (h : list (string * list WorkoutHistoryEntry)) :
  workout_history_ok h = true -> forallb row_ok (workout_rows h) = true.
Proof.
  intros Hok.
  apply (bucket_rows_ok
           (fun e => text_ok (wh_type e) && text_ok (wh_timestamp e))
           workout_entry_row); [|exact Hok].
  intros date i e Hd He. now apply row_ok_workout_entry.
Qed.

Lemma valid_parts (S : Snapshot) :
  valid S = true ->
  opt_text_ok (snap_water_goal S) = true
  /\ opt_text_ok (snap_water_intake S) = true
  /\ tracker_history_ok (snap_water_history S) = true
  /\ opt_text_ok (snap_protein_goal S) = true
  /\ opt_text_ok (snap_protein_intake S) = true
  /\ tracker_history_ok (snap_protein_history S) = true
  /\ distinct (map fst (snap_workout_state S)) = true
  /\ forallb (fun '(type, _) => type_ok type) (snap_workout_state S) = true
  /\ distinct (map fst (snap_workout_count S)) = true
  /\ forallb (fun '(type, _) => type_ok type) (snap_workout_count S) = true
  /\ workout_history_ok (snap_workout_history S) = true
  /\ forallb habit_ok (snap_habits S) = true
  /\ opt_text_ok (snap_theme S) = true
  /\ opt_text_ok (snap_reminder S) = true.
Proof.
  unfold valid. intros H.
  repeat (apply andb_prop in H as [H ?]). repeat split; assumption.
Qed.

Lemma snapshot_rows_ok (P : Platform) (S : Snapshot) :
  valid S = true -> text_ok (now P) = true ->
  forallb row_ok (snapshot_rows P S) = true.
Proof.
  intros HS Hnow.
  destruct (valid_parts S HS)
    as (Hwg & Hwi & Hwh & Hpg & Hpi & Hph & Hsd & Hst & Hcd & Hct & Hwo & Hhb
        & Hth & Hre).
  apply opt_text_ok_text_of in Hwg, Hwi, Hpg, Hpi, Hth, Hre.
  unfold snapshot_rows. rewrite !forallb_app. cbn [forallb].
  rewrite !(row_ok_kv "meta" _ _ "m" "eta") by auto.
  rewrite !(row_ok_kv "water" _ _ "w" "ater") by auto.
  rewrite !(row_ok_kv "protein" _ _ "p" "rotein") by auto.
  rewrite !(row_ok_kv "settings" _ _ "s" "ettings") by auto.
  rewrite (tracker_rows_ok "water_history" "w" "ater_history") by auto.
  rewrite (tracker_rows_ok "protein_history" "p" "rotein_history") by auto.
  rewrite (keyed_rows_ok workout_state_row)
    by (auto; intros; now apply row_ok_workout_state).
  rewrite (keyed_rows_ok workout_count_row)
    by (auto; intros; now apply row_ok_workout_count).
  rewrite workout_rows_ok, habits_rows_ok by auto.
  reflexivity.
Qed.

(** ** The scalar rows *)

Lemma process_row_version (d : Imported) (value : string) :
  process_row std_headerMap d (kv_row "meta" "version" value)
  = Ok {| version := VStr value; exportDate := exportDate d; water := water d;
          protein := protein d; workout := workout d; habits := habits d;
          settings := settings d |}.
Proof. reflexivity. Qed.

Lemma process_row_exportDate (d : Imported) (value : string) :
  process_row std_headerMap d (kv_row "meta" "exportDate" value)
  = Ok {| version := version d; exportDate := VStr value; water := water d;
          protein := protein d; workout := workout d; habits := habits d;
          settings := settings d |}.
Proof. reflexivity. Qed.

Lemma process_row_water_goal (d : Imported) (value : string) :
  process_row std_headerMap d (kv_row "water" "goal" value)
  = Ok (set_water {| goal := VStr value; intake := intake (water d);
                     history := history (water d) |} d).
Proof. reflexivity. Qed.

Lemma process_row_water_intake (d : Imported) (value : string) :
  process_row std_headerMap d (kv_row "water" "intake" value)
  = Ok (set_water {| goal := goal (water d); intake := VStr value;
                     history := history (water d) |} d).
Proof. reflexivity. Qed.

Lemma process_row_protein_goal (d : Imported) (value : string) :
  process_row std_headerMap d (kv_row "protein" "goal" value)
  = Ok (set_protein {| goal := VStr value; intake := intake (protein d);
                       history := history (protein d) |} d).
Proof. reflexivity. Qed.

Lemma process_row_protein_intake (d : Imported) (value : string) :
  process_row std_headerMap d (kv_row "protein" "intake" value)
  = Ok (set_protein {| goal := goal (protein d); intake := VStr value;
                       history := history (protein d) |} d).
Proof. reflexivity. Qed.

Lemma process_row_theme (d : Imported) (value : string) :
  process_row std_headerMap d (kv_row "settings" "theme" value)
  = Ok (set_settings {| theme := VStr value; reminder := reminder (settings d) |}
          d).
Proof. reflexivity. Qed.

Lemma process_row_reminder (d : Imported) (value : string) :
  process_row std_headerMap d (kv_row "settings" "reminder" value)
  = Ok (set_settings {| theme := theme (settings d); reminder := VStr value |}
          d).
Proof. reflexivity. Qed.

Lemma habit_blocks_first (l : list HabitEntry) (d : Imported)
    (rest : list string) :
  forallb habit_ok l = true ->
  habits d = [] ->
  process_rows std_headerMap d (map line_of (habits_rows_from 0 l) ++ rest)
  = process_rows std_headerMap (set_habits (map parsed_habit l) d) rest.
Proof.
  intros Hok Hempty. pose proof (habit_blocks l d rest Hok) as B.
  rewrite Hempty in B. exact B.
Qed.

Lemma history_value_parsed (h : list (string * list HistoryEntry)) :
  history_value (parsed_history h) = tracker_history_value h.
Proof.
  unfold history_value, parsed_history, tracker_history_value.
  rewrite map_map. f_equal. apply map_ext. now intros [date es].
Qed.

Lemma history_value_parsed_workout
    (h : list (string * list WorkoutHistoryEntry)) :
  history_value (parsed_workout_history h) = workout_history_value h.
Proof.
  unfold history_value, parsed_workout_history, workout_history_value.
  rewrite map_map. f_equal. apply map_ext. now intros [date es].
Qed.

Lemma habits_value_parsed (l : list HabitEntry) :
  VArr (map habit_value (map parsed_habit l)) = habits_value l.
Proof.
  unfold habits_value. rewrite map_map. f_equal.
Qed.

Lemma read_back_text_of (o : option string) : VStr (text_of o) = read_back o.
Proof. now destruct o. Qed.

(** Parsing the export of a snapshot the format carries. *)
Lemma parse_snapshot_csv (P : Platform) (S : Snapshot) :
  valid S = true -> text_ok (now P) = true ->
  parseCSVData P (snapshot_csv P S) = Ok (reimported P S).
Proof.
  intros HS Hnow.
  pose proof (snapshot_rows_ok P S HS Hnow) as Hrows.
  destruct (valid_parts S HS)
    as (Hwg & Hwi & Hwh & Hpg & Hpi & Hph & Hsd & Hst & Hcd & Hct & Hwo & Hhb
        & Hth & Hre).
  apply opt_text_ok_text_of in Hwg, Hwi, Hpg, Hpi, Hth, Hre.
  unfold parseCSVData, parse_rows, snapshot_csv.
  rewrite split_snapshot_lines by (exact Hrows || reflexivity).
  cbn [hd tl]. rewrite std_headerMap_headers.
  replace (length _ <? 2)%nat with false
    by (symmetry; apply Nat.ltb_ge; unfold snapshot_rows; simpl; lia).
  unfold snapshot_rows. rewrite !map_app. cbn [map app].
  rewrite (kv_row_read "meta" _ _ "m" "eta"), process_row_version by auto.
  cbn [bind]. fields.
  rewrite (kv_row_read "meta" _ _ "m" "eta"), process_row_exportDate by auto.
  cbn [bind]. fields.
  rewrite (kv_row_read "water" _ _ "w" "ater"), process_row_water_goal by auto.
  cbn [bind]. fields.
  rewrite (kv_row_read "water" _ _ "w" "ater"), process_row_water_intake by auto.
  cbn [bind]. fields.
  rewrite water_rows by auto. fields.
  rewrite (kv_row_read "protein" _ _ "p" "rotein"), process_row_protein_goal
    by auto.
  cbn [bind]. fields.
  rewrite (kv_row_read "protein" _ _ "p" "rotein"), process_row_protein_intake
    by auto.
  cbn [bind]. fields.
  rewrite protein_rows by auto. fields.
  rewrite workout_state_rows_read by auto. fields.
  rewrite workout_count_rows_read by auto. fields.
  rewrite workout_history_rows_read by auto. fields.
  rewrite habit_blocks_first by auto. fields.
  rewrite (kv_row_read "settings" _ _ "s" "ettings"), process_row_theme by auto.
  cbn [bind]. fields.
  rewrite (kv_row_read "settings" _ _ "s" "ettings"), process_row_reminder
    by auto.
  cbn [bind process_rows]. fields.
  f_equal. unfold to_import_format, reimported. fields.
  now rewrite !history_value_parsed, history_value_parsed_workout,
    habits_value_parsed, !read_back_text_of.
Qed.

(** ** The round trip *)




(** * Further properties of the codec *)

(** ** The tokenizer *)

Lemma field_ok_quotes (t : string) :
  field_ok t = true -> special t = true -> only_quotes t = false.
Proof.
  unfold field_ok. intros H Hs. apply orb_prop in H as [H|H].
  - apply String.eqb_eq in H. subst t. discriminate.
  - now apply negb_true_iff in H.
Qed.

Lemma loop_field (t tail cur : string) (res : list string) :
  field_ok t = true ->
  starts_with_quote tail = false ->
  parseCSVRow_loop (escape_text t +:+ tail) false cur res
  = parseCSVRow_loop tail false (cur +:+ t) res.
Proof.
  intros Ht Htail. unfold escape_text. destruct (special t) eqn:Hs.
  - change (String dquote (double_quotes t +:+ str1 dquote) +:+ tail)
      with (String dquote ((double_quotes t +:+ str1 dquote) +:+ tail)).
    rewrite append_str1. apply loop_quoted; auto using field_ok_quotes.
  - destruct (special_false t Hs) as [Hd Hc]. apply loop_plain; auto.
Qed.

Lemma loop_fields (texts : list string) (res : list string) :
  texts <> [] ->
  forallb field_ok texts = true ->
  parseCSVRow_loop (line_of texts) false EmptyString res = (res ++ texts)%list.
Proof.
  revert res. induction texts as [|t texts IH]; intros res Hne Hok; [congruence|].
  simpl in Hok. apply andb_prop in Hok as [Ht Hok].
  destruct texts as [|t' texts].
  - unfold line_of. simpl. rewrite <- (append_empty_r (escape_text t)).
    rewrite loop_field by auto. reflexivity.
  - unfold line_of. simpl map. rewrite join_cons.
    rewrite loop_field by auto.
    change (str1 comma +:+ join (str1 comma) (escape_text t' :: map escape_text texts))
      with (String comma (line_of (t' :: texts))).
    cbn [parseCSVRow_loop]. change (Ascii.eqb comma dquote) with false.
    change (Ascii.eqb comma comma && negb false) with true. cbv iota.
    rewrite IH by (auto; discriminate).
    now rewrite <- app_assoc.
Qed.

(** X1. A row written as [row.map(escapeCSV).join(',')] is tokenized
    back into the texts of its cells (the empty text for [null] and
    [undefined]), line feeds, commas and quotes included, as long as
    no cell is a non-empty run of double quotes only. *)
Theorem csv_line_then_parseCSVRow (row : list Value) :
  row <> [] ->
  forallb (fun v => field_ok (cell_text v)) row = true ->
  parseCSVRow (csv_line row) = map cell_text row.
Proof.
  intros Hne Hok. rewrite csv_line_texts. unfold parseCSVRow.
  rewrite loop_fields; [reflexivity | now destruct row |].
  clear Hne. induction row as [|v row IH]; [reflexivity|].
  cbn [forallb map] in *. apply andb_prop in Hok as [Hv Hok].
  now rewrite Hv, IH.
Qed.

Lemma csv_line_then_parseCSVRow_witness :
  parseCSVRow (csv_line sample_cells) = map cell_text sample_cells.
Proof.
  apply (csv_line_then_parseCSVRow sample_cells); [discriminate | reflexivity].
Defined.

Lemma loop_quote_pairs (n : nat) (cur : string) (res : list string) :
  parseCSVRow_loop (repeat_char dquote (2 * n)) false cur res
  = (res ++ [cur +:+ repeat_char dquote n])%list.
Proof.
  revert cur. induction n as [|n IH]; intros cur.
  - simpl. now rewrite append_empty_r.
  - replace (2 * S n)%nat with (S (S (2 * n))) by lia.
    cbn [repeat_char parseCSVRow_loop].
    rewrite Ascii.eqb_refl. rewrite IH. now rewrite append_str1.
Qed.

Lemma double_quotes_run (n : nat) :
  double_quotes (repeat_char dquote n) = repeat_char dquote (2 * n).
Proof.
  induction n as [|n IH]; [reflexivity|].
  replace (2 * S n)%nat with (S (S (2 * n))) by lia.
  cbn [repeat_char double_quotes]. rewrite Ascii.eqb_refl. now rewrite IH.
Qed.

Lemma repeat_char_snoc (c : ascii) (n : nat) :
  repeat_char c n +:+ str1 c = repeat_char c (S n).
Proof. induction n as [|n IH]; simpl; [reflexivity | now rewrite IH]. Qed.

(** X2. A field that is a run of [n] double quotes, [n] at least one,
    does not survive: [escapeCSV] writes [2n + 2] quotes, the tokenizer
    pairs them all, and the field comes back one quote longer. *)
Theorem quotes_only_field_grows (n : nat) :
  escapeCSV (VStr (repeat_char dquote (S n))) = repeat_char dquote (2 * S n + 2)
  /\ parseCSVRow (escapeCSV (VStr (repeat_char dquote (S n))))
     = [repeat_char dquote (S (S n))].
Proof.
  assert (He : escapeCSV (VStr (repeat_char dquote (S n)))
               = repeat_char dquote (2 * (S (S n)))).
  { unfold escapeCSV. cbn [String_].
    replace (includes (repeat_char dquote (S n)) dquote) with true
      by (cbn [repeat_char includes]; now rewrite Ascii.eqb_refl).
    rewrite orb_true_r. cbn [orb].
    rewrite double_quotes_run, repeat_char_snoc.
    replace (2 * S (S n))%nat with (S (S (2 * S n))) by lia. reflexivity. }
  split.
  - rewrite He. f_equal. lia.
  - rewrite He. unfold parseCSVRow. now rewrite loop_quote_pairs.
Qed.

Lemma split_on_loop (row cur : string) (res : list string) :
  includes row dquote = false ->
  parseCSVRow_loop row false cur res = (res ++ split_on comma row cur)%list.
Proof.
  revert cur res. induction row as [|a row IH]; intros cur res Hq; [reflexivity|].
  simpl in Hq. apply orb_false_elim in Hq as [Ha Hq].
  cbn [parseCSVRow_loop split_on]. rewrite Ha, andb_true_r.
  destruct (Ascii.eqb a comma).
  - rewrite IH by exact Hq. now rewrite <- app_assoc.
  - now apply IH.
Qed.

(** X3. On a row without double quotes the tokenizer is
    [row.split(',')]: every comma separates two fields. *)
Theorem parseCSVRow_without_quotes (row : string) :
  includes row dquote = false ->
  parseCSVRow row = split_on comma row EmptyString.
Proof. intros Hq. unfold parseCSVRow. now rewrite split_on_loop. Qed.

Lemma parseCSVRow_without_quotes_witness :
  parseCSVRow "water,goal,2000,," = ["water"; "goal"; "2000"; EmptyString; EmptyString].
Proof.
  rewrite (parseCSVRow_without_quotes "water,goal,2000,,"); reflexivity.
Defined.

(** ** The parser: what it rejects and what it skips *)

Lemma split_lines_nonempty (s cur : string) :
  (1 <= length (split_lines s cur))%nat.
Proof.
  revert cur. induction s as [|a s IH]; intros cur; [simpl; lia|].
  cbn [split_lines]. destruct (Ascii.eqb a newline); [simpl; lia|].
  destruct s as [|b s']; [apply IH|].
  destruct (Ascii.eqb a creturn && Ascii.eqb b newline); [simpl; lia | apply IH].
Qed.

Lemma split_lines_two (s cur : string) :
  includes s newline = true -> (2 <= length (split_lines s cur))%nat.
Proof.
  revert cur. induction s as [|a s IH]; intros cur H; [discriminate|].
  cbn [includes] in H. cbn [split_lines].
  destruct (Ascii.eqb a newline).
  - pose proof (split_lines_nonempty s EmptyString). simpl. lia.
  - cbn [orb] in H. destruct s as [|b s']; [discriminate|].
    destruct (Ascii.eqb a creturn && Ascii.eqb b newline).
    + pose proof (split_lines_nonempty s' EmptyString). simpl. lia.
    + now apply IH.
Qed.

Lemma push_entry_throws (date entry : Value) (h : JsObj (list Value)) (e : Exn) :
  push_entry date entry h = Throw e -> e = TypeError.
Proof.
  unfold push_entry. destruct (obj_get (String_ date) h); [discriminate|].
  destruct (inherited (String_ date)); [congruence | discriminate].
Qed.

Lemma habit_at_throws (idx : Number) (data : list HabitData) (e : Exn) :
  habit_at idx data = Throw e -> e = TypeError.
Proof.
  unfold habit_at. destruct idx as [|i]; [congruence|].
  destruct (i <? 0); [congruence|].
  destruct (data !! Z.to_nat i); [discriminate | congruence].
Qed.

Lemma bind_throws {A B} (r : Result A) (k : A -> Result B) (e : Exn) :
  (x <-- r ;; k x) = Throw e ->
  r = Throw e \/ exists a, r = Ok a /\ k a = Throw e.
Proof. destruct r as [a|e']; simpl; [eauto | intros [= ->]; auto]. Qed.

Lemma process_row_throws (hm : JsObj nat) (d : Imported) (row : list string)
    (e : Exn) :
  process_row hm d row = Throw e -> e = TypeError.
Proof.
  unfold process_row, case_tracker_history, case_workout_history, case_habit,
    case_habit_history.
  repeat match goal with
         | |- context [if ?b then _ else _] => destruct b
         end;
    try discriminate; intros H;
    repeat match goal with
           | H : (_ <-- _ ;; _) = Throw _ |- _ =>
               apply bind_throws in H as [H | (? & ? & H)]
           | H : push_entry _ _ _ = Throw _ |- _ => exact (push_entry_throws _ _ _ _ H)
           | H : habit_at _ _ = Throw _ |- _ => exact (habit_at_throws _ _ _ H)
           | H : match ?x with _ => _ end = Throw _ |- _ => destruct x
           | H : Ok _ = Throw _ |- _ => discriminate
           | H : Throw _ = Throw _ |- _ => congruence
           end.
Qed.

Lemma process_rows_throws (hm : JsObj nat) (rows : list string) :
  forall (d : Imported) (e : Exn),
    process_rows hm d rows = Throw e -> e = TypeError.
Proof.
  induction rows as [|r rows IH]; intros d e H; [discriminate|].
  cbn [process_rows] in H. destruct (is_blank r); [eauto|].
  apply bind_throws in H as [H | (d' & _ & H)]; [|eauto].
  eapply process_row_throws, H.
Qed.


Lemma process_rows_skip_blank (hm : JsObj nat) (d : Imported)
    (before after : list string) (r : string) :
  is_blank r = true ->
  process_rows hm d (before ++ r :: after) = process_rows hm d (before ++ after).
Proof.
  intros H. rewrite !process_rows_app.
  destruct (process_rows hm d before) as [d1|e]; simpl; [|reflexivity].
  now rewrite H.
Qed.

(** X5. A row of white space only, wherever it stands among the data
    rows (the empty row after a final line feed included), is skipped:
    the file parses to what it parses to without that row. *)
Theorem blank_row_skipped (P : Platform) (csvData header r : string)
    (before after : list string) :
  let headerMap := build_headerMap (parseCSVRow header) in
  split_lines csvData EmptyString = header :: (before ++ r :: after)%list ->
  is_blank r = true ->
  parseCSVData P csvData
  = (d <-- process_rows headerMap (initial_imported P) (before ++ after) ;;
     Ok (to_import_format P d)).
Proof.
  intros hm Hsplit Hb. unfold parseCSVData, parse_rows. rewrite Hsplit.
  replace (length (header :: before ++ r :: after) <? 2)%nat with false
    by (symmetry; apply Nat.ltb_ge; simpl; rewrite length_app; simpl; lia).
  cbn [hd tl]. fold hm. now rewrite process_rows_skip_blank.
Qed.

Lemma blank_row_skipped_witness :
  let P := roomy_platform false in
  let headerMap := build_headerMap (parseCSVRow "data_type,key,value") in
  parseCSVData P spaced_csv
  = (d <-- process_rows headerMap (initial_imported P)
             ["water,goal,2000"; EmptyString] ;;
     Ok (to_import_format P d)).
Proof.
  intros P headerMap.
  apply (blank_row_skipped P spaced_csv "data_type,key,value" "   " []
           ["water,goal,2000"; EmptyString]); reflexivity.
Defined.

(** ** The parser: a date that names an inherited property *)

Lemma obj_get_replace_ne {A} (k k' : string) (v : A) (o : JsObj A) :
  k' <> k -> obj_get k' (obj_replace k v o) = obj_get k' o.
Proof.
  intros Hne. induction o as [|[k0 v0] o IH]; [reflexivity|].
  cbn [obj_replace]. destruct (String.eqb k k0) eqn:E; cbn [obj_get].
  - apply String.eqb_eq in E. subst k0. apply String.eqb_neq in Hne.
    now rewrite Hne.
  - now rewrite IH.
Qed.

Lemma obj_get_insert_index_ne {A} (n : Z) (k k' : string) (v : A) (o : JsObj A) :
  k' <> k -> obj_get k' (obj_insert_index n k v o) = obj_get k' o.
Proof.
  intros Hne. apply String.eqb_neq in Hne.
  induction o as [|[k0 v0] o IH]; cbn [obj_insert_index obj_get].
  - now rewrite Hne.
  - destruct (array_index k0) as [n'|]; [destruct (n' <? n)|];
      cbn [obj_get]; rewrite ?Hne, ?IH; reflexivity.
Qed.

Lemma obj_get_set_ne {A} (k k' : string) (v : A) (o : JsObj A) :
  k' <> k -> obj_get k' (obj_set k v o) = obj_get k' o.
Proof.
  intros Hne. unfold obj_set, obj_define.
  destruct (String.eqb k "__proto__"); [reflexivity|].
  destruct (obj_get k o) eqn:Hg; [now apply obj_get_replace_ne|].
  destruct (array_index k); [now apply obj_get_insert_index_ne|].
  destruct (obj_get k' o) eqn:Hg'.
  - clear Hg. induction o as [|[k0 v0] o IH]; [discriminate|].
    cbn [obj_get app] in *. destruct (String.eqb k' k0); [exact Hg' | auto].
  - now apply obj_get_none_app.
Qed.

Lemma push_entry_clean (date entry : Value) (h h' : JsObj (list Value)) :
  own_clean h -> push_entry date entry h = Ok h' -> own_clean h'.
Proof.
  intros Hc. unfold push_entry.
  destruct (obj_get (String_ date) h) as [es|] eqn:Hg.
  - intros [= <-] k Hk. rewrite obj_get_replace_ne; [now apply Hc|].
    intros ->. rewrite (Hc _ Hk) in Hg. discriminate.
  - destruct (inherited (String_ date)) eqn:Hi; [discriminate|].
    intros [= <-] k Hk. rewrite obj_get_set_ne; [now apply Hc|].
    intros ->. congruence.
Qed.

Lemma process_row_clean (hm : JsObj nat) (d d' : Imported) (row : list string) :
  histories_clean d -> process_row hm d row = Ok d' -> histories_clean d'.
Proof.
  intros (Hw & Hp & Ho). unfold process_row, case_tracker_history,
    case_workout_history.
  repeat match goal with
         | |- context [if is_str ?v ?s then _ else _] => destruct (is_str v s)
         end;
    try (intros [= <-]; repeat split; assumption);
    match goal with
    | |- context [push_entry ?a ?b ?c] => destruct (push_entry a b c) eqn:E
    | |- context [case_habit ?a ?b ?c ?e] => destruct (case_habit a b c e)
    | |- context [case_habit_history ?a ?b ?c] =>
        destruct (case_habit_history a b c)
    end;
    cbn [bind]; try discriminate; intros [= <-]; repeat split;
    try assumption; (eapply push_entry_clean; [|exact E]); assumption.
Qed.

Lemma process_rows_clean (hm : JsObj nat) (rows : list string) :
  forall d d', histories_clean d -> process_rows hm d rows = Ok d' ->
               histories_clean d'.
Proof.
  induction rows as [|r rows IH]; intros d d' Hc H.
  - injection H as <-. exact Hc.
  - cbn [process_rows] in H. destruct (is_blank r); [eauto|].
    destruct (process_row hm d (parseCSVRow r)) as [d1|] eqn:E; [|discriminate].
    cbn [bind] in H. eapply IH; [|exact H]. eapply process_row_clean; eauto.
Qed.

Lemma process_row_inherited_date (hm : JsObj nat) (d : Imported)
    (row : list string) :
  histories_clean d ->
  history_kind (cell hm row "data_type") = true ->
  inherited (String_ (cell hm row "date")) = true ->
  process_row hm d row = Throw TypeError.
Proof.
  intros (Hw & Hp & Ho) Hk Hi. unfold history_kind in Hk.
  destruct (cell hm row "data_type") as [| | | |t| |] eqn:Hcell;
    try discriminate.
  cbn [is_str] in Hk.
  destruct (String.eqb t "water_history") eqn:E1.
  { apply String.eqb_eq in E1. subst t.
    replace (process_row hm d row)
      with (t <-- case_tracker_history hm row (water d) ;; Ok (set_water t d))
      by (unfold process_row; rewrite Hcell; reflexivity).
    unfold case_tracker_history, push_entry. now rewrite (Hw _ Hi), Hi. }
  destruct (String.eqb t "protein_history") eqn:E2.
  { apply String.eqb_eq in E2. subst t.
    replace (process_row hm d row)
      with (t <-- case_tracker_history hm row (protein d) ;; Ok (set_protein t d))
      by (unfold process_row; rewrite Hcell; reflexivity).
    unfold case_tracker_history, push_entry. now rewrite (Hp _ Hi), Hi. }
  destruct (String.eqb t "workout_history") eqn:E3; [|discriminate].
  apply String.eqb_eq in E3. subst t.
  replace (process_row hm d row)
    with (w <-- case_workout_history hm row (workout d) ;; Ok (set_workout w d))
    by (unfold process_row; rewrite Hcell; reflexivity).
  unfold case_workout_history, push_entry. now rewrite (Ho _ Hi), Hi.
Qed.

(** X6. A history row ([water_history], [protein_history] or
    [workout_history]) whose date cell is the name of a property every
    object inherits ([constructor], [toString], [valueOf], ...) ends
    the parse with a [TypeError], whatever rows follow: what is read
    under that name has no [push]. *)
Theorem inherited_date_aborts_parse (P : Platform) (csvData header r : string)
    (before after : list string) (d : Imported) :
  let headerMap := build_headerMap (parseCSVRow header) in
  split_lines csvData EmptyString = header :: (before ++ r :: after)%list ->
  process_rows headerMap (initial_imported P) before = Ok d ->
  history_kind (row_kind headerMap r) = true ->
  inherited (String_ (cell headerMap (parseCSVRow r) "date")) = true ->
  parseCSVData P csvData = Throw TypeError.
Proof.
  intros hm Hsplit Hbefore Hk Hi. unfold parseCSVData, parse_rows.
  rewrite Hsplit.
  replace (length (header :: before ++ r :: after) <? 2)%nat with false
    by (symmetry; apply Nat.ltb_ge; simpl; rewrite length_app; simpl; lia).
  cbn [hd tl]. fold hm. rewrite process_rows_app, Hbefore. cbn [bind process_rows].
  assert (Hb : is_blank r = false).
  { unfold history_kind in Hk.
    apply orb_prop in Hk as [Hk|Hk]; [apply orb_prop in Hk as [Hk|Hk]|];
      eapply tagged_row_not_blank; try exact Hk; reflexivity. }
  rewrite Hb, process_row_inherited_date; auto.
  eapply process_rows_clean; [|exact Hbefore].
  repeat split; intros k _; reflexivity.
Qed.

Lemma inherited_date_aborts_parse_witness :
  parseCSVData (roomy_platform false) method_date_csv = Throw TypeError.
Proof.
  apply (inherited_date_aborts_parse (roomy_platform false) method_date_csv
           (join (str1 comma) headers)
           "water_history,toString_0,,toString,250,08:00,,,,,," [] []
           (initial_imported (roomy_platform false)));
    reflexivity.
Defined.

(** * Further properties of the storage manager *)

Lemma usage_fold_perm (l1 l2 : list (string * string)) :
  l1 ≡ₚ l2 ->
  foldr (fun '(key, value) total =>
           if negb (String.eqb key EmptyString)
              && negb (String.eqb value EmptyString)
           then total + Z.of_nat (String.length key)
                + Z.of_nat (String.length value)
           else total) 0 l1
  = foldr (fun '(key, value) total =>
             if negb (String.eqb key EmptyString)
                && negb (String.eqb value EmptyString)
             then total + Z.of_nat (String.length key)
                  + Z.of_nat (String.length value)
             else total) 0 l2.
Proof.
  induction 1 as [|[k v] l1 l2 _ IH|[k1 v1] [k2 v2] l|l1 l2 l3 _ IH1 _ IH2].
  - reflexivity.
  - cbn [foldr]. now rewrite IH.
  - cbn [foldr].
    destruct (negb (String.eqb k1 EmptyString) && negb (String.eqb v1 EmptyString)),
      (negb (String.eqb k2 EmptyString) && negb (String.eqb v2 EmptyString));
      lia.
  - congruence.
Qed.

Lemma getUsage_insert_fresh (store : gmap string string) (k v : string) :
  store !! k = None ->
  getUsage (<[k := v]> store) = getUsage store + pair_size k v.
Proof.
  intros Hk. unfold getUsage.
  rewrite (usage_fold_perm _ _ (map_to_list_insert store k v Hk)).
  cbn [foldr]. unfold pair_size.
  destruct (negb (String.eqb k EmptyString) && negb (String.eqb v EmptyString));
    lia.
Qed.

Lemma getUsage_nonneg (store : gmap string string) : 0 <= getUsage store.
Proof.
  unfold getUsage. induction (map_to_list store) as [|[k v] l IH]; cbn [foldr].
  - lia.
  - destruct (negb (String.eqb k EmptyString) && negb (String.eqb v EmptyString));
      lia.
Qed.

(** X7. [getUsage] is the sum, over the stored pairs whose key and
    value are both non-empty, of key length plus value length: a write
    under [k] changes it to the usage of the other pairs plus what the
    new pair counts, and removing [k] takes away what its pair counted.
    It is never negative, so [getRemainingSpace] never exceeds the
    quota of the tier. *)
Theorem getUsage_after_write (P : Platform) (store : gmap string string)
    (k v : string) :
  getUsage (<[k := v]> store) = getUsage (delete k store) + pair_size k v
  /\ getUsage store
     = getUsage (delete k store)
       + match store !! k with Some old => pair_size k old | None => 0 end
  /\ 0 <= getUsage store
  /\ getRemainingSpace P store <= maxSize P.
Proof.
  split; [|split; [|split]].
  - rewrite <- (insert_delete_eq store k v).
    apply getUsage_insert_fresh, lookup_delete_eq.
  - destruct (store !! k) as [old|] eqn:Hk.
    + rewrite <- (insert_delete_id store k old Hk) at 1.
      now rewrite getUsage_insert_fresh by apply lookup_delete_eq.
    + rewrite delete_id by exact Hk. lia.
  - apply getUsage_nonneg.
  - unfold getRemainingSpace. pose proof (getUsage_nonneg store). lia.
Qed.

Lemma cleanup_habits_keeps_flag (keep : nat) (items : list Value) (c : bool) :
  c = true -> fst (cleanup_habits keep items c) = true.
Proof. intros ->. apply cleanup_habits_flag. Qed.

(** One key of the cleanup: the flag is never lowered, and while it is
    down nothing has been stored. *)
Lemma cleanup_key_flag (P : Platform) (key : string) (c : bool) (w : World) :
  (c = true -> fst (cleanup_key P key (c, w)) = true)
  /\ (fst (cleanup_key P key (c, w)) = false ->
      storage (snd (cleanup_key P key (c, w))) = storage w).
Proof.
  unfold cleanup_key.
  destruct (getItem (storage w) key) as [| | | |text| |]; try (split; auto; fail).
  destruct (String.eqb text EmptyString); [split; auto|].
  destruct (JSON_parse P text) as [history|]; [|split; auto].
  assert (Hstd :
    let r := if is_object history then
               match trim_dates (daysToKeep P) history with
               | Some history' =>
                   match setItem P key (JSON_stringify P history') w with
                   | (Ok _, w') => (true, w')
                   | (Throw _, w') => (c, w')
                   end
               | None => (c, w)
               end
             else (c, w) in
    (c = true -> fst r = true) /\ (fst r = false -> storage (snd r) = storage w)).
  { cbv zeta. destruct (is_object history); [|split; auto].
    destruct (trim_dates (daysToKeep P) history) as [history'|]; [|split; auto].
    unfold setItem.
    destruct (setItem_throws P (storage w) key (JSON_stringify P history'));
      cbn [fst snd]; split; auto; discriminate. }
  cbv zeta in Hstd.
  destruct history as [| | | | |items|]; try exact Hstd.
  destruct (String.eqb key "habits_data"); [|exact Hstd].
  pose proof (cleanup_habits_keeps_flag (daysToKeep P) items c) as Hflag.
  destruct (cleanup_habits (daysToKeep P) items c) as [c' r]. cbn [fst] in Hflag.
  destruct r as [items'|e]; [destruct c'|]; cbn [fst snd]; split; auto;
    discriminate.
Qed.

Lemma fold_cleanup_flag (P : Platform) (keys : list string) :
  forall (c : bool) (w : World),
    let r := fold_left (fun acc key => cleanup_key P key acc) keys (c, w) in
    (c = true -> fst r = true) /\ (fst r = false -> storage (snd r) = storage w).
Proof.
  induction keys as [|key keys IH]; intros c w; cbn [fold_left]; [split; auto|].
  destruct (cleanup_key_flag P key c w) as [Hup Hsame].
  destruct (cleanup_key P key (c, w)) as [c1 w1]. cbn [fst snd] in *.
  destruct (IH c1 w1) as [Hup' Hsame']. cbv zeta in *. split.
  - auto.
  - intros Hf. rewrite Hsame' by exact Hf. apply Hsame.
    destruct c1; [|reflexivity]. rewrite Hup' in Hf by reflexivity. discriminate.
Qed.

(** X8. [cleanupOldData] calls [setItem] for its four history keys
    only and leaves what is stored under every other key as it was;
    when it answers false, nothing at all was stored: the storage is
    the one it started with. *)
Theorem cleanupOldData_frame (P : Platform) (w : World) :
  only_wrote historyKeys w (snd (cleanupOldData P w))
  /\ (if fst (cleanupOldData P w) then True
      else storage (snd (cleanupOldData P w)) = storage w).
Proof.
  split; [apply cleanupOldData_only_wrote|].
  destruct (fst (cleanupOldData P w)) eqn:Hf; [exact I|].
  unfold cleanupOldData in *.
  now apply (fold_cleanup_flag P historyKeys false w).
Qed.

Lemma history_key_split (key : string) :
  In key historyKeys ->
  exists before after,
    historyKeys = (before ++ key :: after)%list
    /\ ~ In key before /\ ~ In key after.
Proof.
  unfold historyKeys. intros [<-|[<-|[<-|[<-|[]]]]].
  - exists [], ["history_protein"; "workout_history"; "habits_data"].
    split; [reflexivity|]. split; [intros []|].
    intros [H|[H|[H|[]]]]; discriminate.
  - exists ["history_water"], ["workout_history"; "habits_data"].
    split; [reflexivity|]. split; [intros [H|[]]; discriminate|].
    intros [H|[H|[]]]; discriminate.
  - exists ["history_water"; "history_protein"], ["habits_data"].
    split; [reflexivity|]. split; [intros [H|[H|[]]]; discriminate|].
    intros [H|[]]; discriminate.
  - exists ["history_water"; "history_protein"; "workout_history"], [].
    split; [reflexivity|]. split; [intros [H|[H|[H|[]]]]; discriminate|].
    intros [].
Qed.

Lemma cleanup_key_nothing_to_trim (P : Platform) (key : string) (c : bool)
    (w : World) :
  nothing_to_trim P (storage w !! key) ->
  storage (snd (cleanup_key P key (c, w))) !! key = storage w !! key.
Proof.
  unfold nothing_to_trim, cleanup_key, getItem.
  destruct (storage w !! key) as [text|] eqn:Hk; [|intros _; exact Hk].
  intros [->|H]; [exact Hk|].
  destruct (String.eqb text EmptyString); [exact Hk|].
  destruct H as [->|[(v & -> & Hv)|(h & -> & Hh)]]; [exact Hk| |].
  - destruct v; try discriminate; cbn [is_object]; exact Hk.
  - cbn [is_object]. rewrite trim_dates_obj.
    replace (daysToKeep P <? length h)%nat with false
      by (symmetry; apply Nat.ltb_ge; exact Hh).
    exact Hk.
Qed.



(** X10. [safeSetItem] calls [setItem] for its own key and, through
    the cleanup, for the four history keys only: what is stored under
    any other key is what it was. *)
Theorem safeSetItem_frame (P : Platform) (key value : string) (w : World) :
  only_wrote (key :: historyKeys) w (snd (safeSetItem P key value w)).
Proof. apply safeSetItem_only_wrote. Qed.

(** * Further properties of the import *)

Lemma not_history_key (k : string) :
  existsb (String.eqb k) historyKeys = false -> ~ In k historyKeys.
Proof.
  intros H Hin.
  assert (existsb (String.eqb k) historyKeys = true); [|congruence].
  apply existsb_exists. exists k. split; [exact Hin | apply String.eqb_refl].
Qed.

Lemma safeSetItem_keeps (P : Platform) (key value k : string) (w : World) :
  k <> key -> ~ In k historyKeys ->
  storage (snd (safeSetItem P key value w)) !! k = storage w !! k.
Proof.
  intros Hne Hnin.
  destruct (safeSetItem_only_wrote P key value w) as (_ & _ & _ & Hf).
  apply Hf. intros [<-|Hin]; [congruence | contradiction].
Qed.

Lemma safeSetItem_true_stored (P : Platform) (key value : string) (w : World) :
  fst (safeSetItem P key value w) = true ->
  storage (snd (safeSetItem P key value w)) !! key = Some value.
Proof.
  unfold safeSetItem.
  destruct (setItem P key value w) as [[u|e] w1] eqn:E1; cbn [fst snd].
  - intros _. eapply setItem_ok_stored, E1.
  - destruct (is_quota_error e); [|discriminate].
    destruct (cleanupOldData P w1) as [[|] w2]; [|discriminate].
    destruct (setItem P key value w2) as [[u|e2] w3] eqn:E3; cbn [fst snd];
      [|discriminate].
    intros _. change (storage w3 !! key = Some value).
    eapply setItem_ok_stored, E3.
Qed.

Lemma safeSetItem_false_kept (P : Platform) (key value : string) (w : World) :
  ~ In key historyKeys ->
  fst (safeSetItem P key value w) = false ->
  storage (snd (safeSetItem P key value w)) !! key = storage w !! key.
Proof.
  intros Hnin. unfold safeSetItem, setItem.
  destruct (setItem_throws P (storage w) key value) as [e|] eqn:E1;
    cbn [fst snd]; [|discriminate].
  destruct (is_quota_error e); [|reflexivity].
  pose proof (cleanupOldData_only_wrote P (emit (SetItem key value (Some e)) w))
    as (_ & _ & _ & Hf).
  destruct (cleanupOldData P (emit (SetItem key value (Some e)) w))
    as [[|] w2]; cbn [fst snd] in *.
  - destruct (setItem_throws P (storage w2) key value); cbn [fst snd];
      [|discriminate].
    intros _. now apply Hf.
  - intros _. now apply Hf.
Qed.

(** A step of the import that leaves [k] alone. *)
Lemma import_field_keeps (P : Platform) (label key k : string) (v : Value)
    (w : World) :
  k <> key -> ~ In k historyKeys ->
  storage (snd (import_field P label key v w)) !! k = storage w !! k.
Proof.
  intros Hne Hnin. unfold import_field. destruct (truthy v); [|reflexivity].
  pose proof (safeSetItem_keeps P key (String_ v) k w Hne Hnin) as H.
  now destruct (safeSetItem P key (String_ v) w) as [[|] w'].
Qed.

Lemma import_setting_keeps (P : Platform) (key k : string) (v : Value)
    (w : World) :
  k <> key -> ~ In k historyKeys ->
  storage (snd (import_setting P key v w)) !! k = storage w !! k.
Proof.
  intros Hne Hnin. unfold import_setting. destruct (truthy v); [|reflexivity].
  now apply safeSetItem_keeps.
Qed.

Lemma andThen_keeps (k : string) (a b : World -> Result unit * World) :
  (forall w, storage (snd (a w)) !! k = storage w !! k) ->
  (forall w, storage (snd (b w)) !! k = storage w !! k) ->
  forall w, storage (snd ((a >> b) w)) !! k = storage w !! k.
Proof.
  intros Ha Hb w. unfold andThen. pose proof (Ha w) as H1.
  destruct (a w) as [[u|e] w1]; cbn [snd] in *; [|exact H1].
  now rewrite Hb.
Qed.

(** What a step or a run of steps does for the field kept under [k]. *)
Lemma import_field_outcome (P : Platform) (label key : string) (v : Value)
    (w : World) :
  ~ In key historyKeys ->
  old_or_imported key v w (snd (import_field P label key v w))
  /\ (fst (import_field P label key v w) = Ok tt -> truthy v = true ->
      storage (snd (import_field P label key v w)) !! key = Some (String_ v)).
Proof.
  intros Hnin. unfold import_field, old_or_imported.
  destruct (truthy v) eqn:Hv; [|split; [now left | discriminate]].
  pose proof (safeSetItem_true_stored P key (String_ v) w) as Ht.
  pose proof (safeSetItem_false_kept P key (String_ v) w Hnin) as Hf.
  destruct (safeSetItem P key (String_ v) w) as [[|] w']; cbn [fst snd] in *.
  - split; [right|]; auto.
  - split; [left; auto | discriminate].
Qed.

Lemma outcome_then_keeps (k : string) (v : Value)
    (a b : World -> Result unit * World) :
  (forall w, old_or_imported k v w (snd (a w))
             /\ (fst (a w) = Ok tt -> truthy v = true ->
                 storage (snd (a w)) !! k = Some (String_ v))) ->
  (forall w, storage (snd (b w)) !! k = storage w !! k) ->
  forall w, old_or_imported k v w (snd ((a >> b) w))
            /\ (fst ((a >> b) w) = Ok tt -> truthy v = true ->
                storage (snd ((a >> b) w)) !! k = Some (String_ v)).
Proof.
  intros Ha Hb w. unfold andThen, old_or_imported in *.
  destruct (Ha w) as [H1 H2].
  destruct (a w) as [[[]|e] w1]; cbn [fst snd] in *.
  - rewrite Hb. split; [exact H1|]. intros _ Hv. now apply H2.
  - split; [exact H1 | discriminate].
Qed.

Lemma keeps_then_outcome (k : string) (v : Value)
    (a b : World -> Result unit * World) :
  (forall w, storage (snd (a w)) !! k = storage w !! k) ->
  (forall w, old_or_imported k v w (snd (b w))
             /\ (fst (b w) = Ok tt -> truthy v = true ->
                 storage (snd (b w)) !! k = Some (String_ v))) ->
  forall w, old_or_imported k v w (snd ((a >> b) w))
            /\ (fst ((a >> b) w) = Ok tt -> truthy v = true ->
                storage (snd ((a >> b) w)) !! k = Some (String_ v)).
Proof.
  intros Ha Hb w. unfold andThen, old_or_imported in *.
  pose proof (Ha w) as H1.
  destruct (a w) as [[[]|e] w1]; cbn [fst snd] in *.
  - destruct (Hb w1) as [H2 H3]. rewrite H1 in H2. auto.
  - split; [now left | discriminate].
Qed.

Ltac other_key :=
  first [ discriminate
        | apply not_history_key; reflexivity ].

Ltac keeps_steps :=
  repeat (apply andThen_keeps;
          [intros ?; apply import_field_keeps; other_key|]);
  first [ apply andThen_keeps;
          intros ?; apply import_setting_keeps; other_key
        | intros ?; apply import_field_keeps; other_key ].

Lemma import_writes_outcome (P : Platform) (d : ImportedData) (f : Field)
    (w : World) :
  In f scalar_fields ->
  old_or_imported (field_key f) (field_value d f) w (snd (import_writes P d w))
  /\ (fst (import_writes P d w) = Ok tt -> truthy (field_value d f) = true ->
      storage (snd (import_writes P d w)) !! field_key f
      = Some (String_ (field_value d f))).
Proof.
  intros Hin. revert w. unfold import_writes.
  cbn [scalar_fields In] in Hin.
  destruct Hin as [<-|[<-|[<-|[<-|[<-|[<-|[]]]]]]]; cbn [field_key field_value];
    repeat (apply keeps_then_outcome;
            [intros ?; apply import_field_keeps; other_key|]);
    (apply outcome_then_keeps;
     [intros ?; apply import_field_outcome, not_history_key; reflexivity
     | keeps_steps]).
Qed.

(** ** What an import leaves in the storage *)

Lemma performDataImport_storage (P : Platform) (d : ImportedData) (w : World) :
  storage (snd (performDataImport P d w)) = storage (snd (import_writes P d w))
  /\ (fst (performDataImport P d w) = true -> fst (import_writes P d w) = Ok tt).
Proof.
  unfold performDataImport.
  destruct (import_writes P d w) as [[[]|e] w']; cbn [fst snd];
    split; auto; discriminate.
Qed.

(** X11. The goals, the intakes, the workout state and the workout
    count are each written all or nothing: after [performDataImport],
    whatever it answers, the key of such a field holds what it held
    before or the imported value, never anything else; and when the
    import answers true, every such field that was truthy is stored. *)
Theorem import_scalar_field_outcome (P : Platform) (d : ImportedData)
    (w : World) (f : Field) :
  In f scalar_fields ->
  let r := performDataImport P d w in
  old_or_imported (field_key f) (field_value d f) w (snd r)
  /\ (if fst r && truthy (field_value d f)
      then storage (snd r) !! field_key f = Some (String_ (field_value d f))
      else True).
Proof.
  intros Hin r. subst r.
  destruct (performDataImport_storage P d w) as [Hs Hok].
  destruct (import_writes_outcome P d f w Hin) as [H1 H2].
  unfold old_or_imported in *. rewrite Hs. split; [exact H1|].
  destruct (fst (performDataImport P d w)); [|exact I].
  destruct (truthy (field_value d f)) eqn:Hv; [|exact I].
  cbn [andb]. auto.
Qed.

Lemma import_scalar_field_outcome_witness :
  let r := performDataImport (ref_platform false 14) goal_and_intake empty_world in
  old_or_imported "intake_water" (VStr "750") empty_world (snd r)
  /\ (if fst r && true then storage (snd r) !! "intake_water" = Some "750"
      else True).
Proof.
  apply (import_scalar_field_outcome (ref_platform false 14) goal_and_intake
           empty_world WaterIntake).
  unfold scalar_fields. simpl. auto.
Defined.

Lemma import_field_throws (P : Platform) (label key : string) (v : Value)
    (w : World) (e : Exn) :
  fst (import_field P label key v w) = Throw e ->
  e = Error ("Failed to import " +:+ label).
Proof.
  unfold import_field. destruct (truthy v); [|discriminate].
  destruct (safeSetItem P key (String_ v) w) as [[|] w']; cbn [fst];
    [discriminate | congruence].
Qed.

Lemma import_setting_never_throws (P : Platform) (key : string) (v : Value)
    (w : World) :
  fst (import_setting P key v w) = Ok tt.
Proof. unfold import_setting. now destruct (truthy v). Qed.

Lemma andThen_throws (a b : World -> Result unit * World) (w : World) (e : Exn) :
  fst ((a >> b) w) = Throw e ->
  fst (a w) = Throw e \/ exists w1, fst (b w1) = Throw e.
Proof.
  unfold andThen. destruct (a w) as [[u|e1] w1]; cbn [fst]; eauto.
Qed.

Lemma import_writes_throws (P : Platform) (d : ImportedData) (w : World)
    (e : Exn) :
  fst (import_writes P d w) = Throw e ->
  exists label, In label field_labels /\ e = Error ("Failed to import " +:+ label).
Proof.
  unfold import_writes. intros H.
  repeat (apply andThen_throws in H as [H|[? H]];
          [apply import_field_throws in H; eexists; split; [|exact H];
           unfold field_labels; simpl; tauto|]).
  apply andThen_throws in H as [H|[? H]];
    rewrite import_setting_never_throws in H; discriminate.
Qed.

(** X12. When [performDataImport] answers false, the last thing it did
    was to show the import-failed toast, and the message names one of
    the ten checked fields: never a setting, whose write is not
    checked. *)
Theorem failed_import_names_field (P : Platform) (d : ImportedData) (w : World) :
  if fst (performDataImport P d w) then True
  else exists label,
      In label field_labels
      /\ last (trace (snd (performDataImport P d w)))
         = Some (ShowToast (ImportFailed ("Failed to import " +:+ label))).
Proof.
  unfold performDataImport.
  destruct (import_writes P d w) as [[u|e] w'] eqn:E; cbn [fst snd]; [exact I|].
  destruct (import_writes_throws P d w e) as (label & Hin & ->);
    [now rewrite E|].
  exists label. split; [exact Hin|].
  unfold showToast, emit. cbn [trace message_of]. apply last_snoc.
Qed.

Lemma safeSetItem_accepted (P : Platform) (key value : string) (w : World) :
  setItem_throws P (storage w) key value = None ->
  safeSetItem P key value w
  = (true, {| storage := <[key := value]> (storage w);
              trace := (trace w ++ [SetItem key value None])%list |}).
Proof. intros H. unfold safeSetItem. now rewrite setItem_accepted. Qed.

Lemma import_field_accepted (P : Platform) (label key : string) (v : Value)
    (w : World) :
  (forall store k x, setItem_throws P store k x = None) ->
  fst (import_field P label key v w) = Ok tt
  /\ storage (snd (import_field P label key v w))
     = apply_field key v (storage w).
Proof.
  intros Hacc. unfold import_field, apply_field.
  destruct (truthy v); [|auto]. now rewrite safeSetItem_accepted by apply Hacc.
Qed.

Lemma import_setting_accepted (P : Platform) (key : string) (v : Value)
    (w : World) :
  (forall store k x, setItem_throws P store k x = None) ->
  fst (import_setting P key v w) = Ok tt
  /\ storage (snd (import_setting P key v w)) = apply_field key v (storage w).
Proof.
  intros Hacc. unfold import_setting, apply_field.
  destruct (truthy v); [|auto]. now rewrite safeSetItem_accepted by apply Hacc.
Qed.

Lemma andThen_ok (a b : World -> Result unit * World) (w : World) :
  fst (a w) = Ok tt -> (a >> b) w = b (snd (a w)).
Proof.
  unfold andThen. destruct (a w) as [[[]|e] w1]; cbn [fst snd];
    [reflexivity | discriminate].
Qed.

Lemma lookup_apply_field_ne (key k : string) (v : Value)
    (store : gmap string string) :
  k <> key -> apply_field key v store !! k = store !! k.
Proof.
  intros Hne. unfold apply_field. destruct (truthy v); [|reflexivity].
  now apply lookup_insert_ne.
Qed.

Lemma lookup_apply_field (key : string) (v : Value) (store : gmap string string) :
  apply_field key v store !! key
  = if truthy v then Some (String_ v) else store !! key.
Proof.
  unfold apply_field. destruct (truthy v); [apply lookup_insert_eq | reflexivity].
Qed.

Lemma import_writes_accepted (P : Platform) (d : ImportedData) (w : World) :
  (forall store k v, setItem_throws P store k v = None) ->
  fst (import_writes P d w) = Ok tt
  /\ storage (snd (import_writes P d w))
     = apply_field "global_reminder" (settings_reminder d)
         (apply_field "app_theme" (settings_theme d)
         (apply_field "habits_data" (VStr (habits_data d))
         (apply_field "workout_history" (VStr (workout_history d))
         (apply_field "workout_count" (VStr (workout_count d))
         (apply_field "workout_state" (VStr (workout_state d))
         (apply_field "history_protein" (VStr (protein_history d))
         (apply_field "intake_protein" (protein_intake d)
         (apply_field "goal_protein" (protein_goal d)
         (apply_field "history_water" (VStr (water_history d))
         (apply_field "intake_water" (water_intake d)
         (apply_field "goal_water" (water_goal d)
            (storage w)))))))))))).
Proof.
  intros Hacc. unfold import_writes.
  repeat (rewrite andThen_ok by now apply import_field_accepted).
  rewrite andThen_ok by now apply import_setting_accepted.
  split; [now apply import_setting_accepted|].
  rewrite !(fun w => proj2 (import_setting_accepted P _ _ w Hacc)).
  now rewrite !(fun w => proj2 (import_field_accepted P _ _ _ w Hacc)).
Qed.

(** X13. On a browser that accepts every write, [performDataImport]
    answers true, and afterwards each of the twelve keys holds the
    imported value of its field when that value is truthy, and what it
    held before when it is not. *)
Theorem import_into_roomy_storage (P : Platform) (d : ImportedData) (w : World) :
  (forall store k v, setItem_throws P store k v = None) ->
  fst (performDataImport P d w) = true
  /\ forall f,
      storage (snd (performDataImport P d w)) !! field_key f
      = if truthy (field_value d f) then Some (String_ (field_value d f))
        else storage w !! field_key f.
Proof.
  intros Hacc.
  destruct (import_writes_accepted P d w Hacc) as [Hok Hs].
  unfold performDataImport.
  destruct (import_writes P d w) as [[u|e] w']; cbn [fst snd] in *;
    [|discriminate].
  split; [reflexivity|]. intros f. rewrite Hs.
  destruct f; cbn [field_key field_value];
    repeat (rewrite lookup_apply_field_ne by discriminate);
    rewrite lookup_apply_field;
    destruct (truthy _); try reflexivity;
    repeat (rewrite lookup_apply_field_ne by discriminate); reflexivity.
Qed.

Lemma import_into_roomy_storage_witness :
  let r := performDataImport (roomy_platform false) goal_and_intake empty_world in
  fst r = true
  /\ storage (snd r) !! "goal_water" = Some "2000"
  /\ storage (snd r) !! "intake_water" = Some "750"
  /\ storage (snd r) !! "app_theme" = None.
Proof.
  intros r.
  destruct (import_into_roomy_storage (roomy_platform false) goal_and_intake
              empty_world) as [Hok Hs]; [reflexivity|].
  split; [exact Hok|].
  split; [exact (Hs WaterGoal)|].
  split; [exact (Hs WaterIntake) | exact (Hs SettingsTheme)].
Defined.

(** X14. Nothing is rolled back. Once the write of the water goal is
    accepted, the goal stays stored whatever happens to the writes
    that follow: an import that then fails and answers false leaves
    it in place. *)
Theorem written_goal_survives_failure (P : Platform) (d : ImportedData)
    (w : World) :
  truthy (water_goal d) = true ->
  setItem_throws P (storage w) "goal_water" (String_ (water_goal d)) = None ->
  storage (snd (performDataImport P d w)) !! "goal_water"
  = Some (String_ (water_goal d)).
Proof.
  intros Hv Hacc.
  destruct (performDataImport_storage P d w) as [-> _].
  unfold import_writes.
  set (rest := import_field P "water intake" "intake_water" (water_intake d) >> _).
  unfold andThen at 1. unfold import_field at 1.
  rewrite Hv, safeSetItem_accepted by exact Hacc.
  assert (Hrest : forall w0, storage (snd (rest w0)) !! "goal_water"
                             = storage w0 !! "goal_water").
  { subst rest. keeps_steps. }
  rewrite Hrest. cbn [storage]. apply lookup_insert_eq.
Qed.

Lemma written_goal_survives_failure_witness :
  let r := performDataImport (ref_platform false 14) goal_and_intake empty_world in
  fst r = false /\ storage (snd r) !! "goal_water" = Some "2000".
Proof.
  intros r. split; [vm_compute; reflexivity|].
  apply (written_goal_survives_failure (ref_platform false 14) goal_and_intake
           empty_world); reflexivity.
Defined.

(** * Further properties of the export *)

Lemma bucket_rows_width {E} (row : string -> nat -> E -> list string)
    (h : list (string * list E)) (r : list string) :
  (forall date i e, length (row date i e) = 12%nat) ->
  In r (bucket_rows row h) -> length r = 12%nat.
Proof.
  intros Hrow H. unfold bucket_rows in H.
  apply in_concat in H as (rows & Hrows & Hr).
  apply in_map_iff in Hrows as ([date es] & <- & _).
  apply in_map_iff in Hr as ([i e] & <- & _). apply Hrow.
Qed.

Lemma habits_rows_width (l : list HabitEntry) (r : list string) :
  forall start, In r (habits_rows_from start l) -> length r = 12%nat.
Proof.
  induction l as [|hb l IH]; intros start H; [destruct H|].
  unfold habits_rows_from in H. cbn [indexed_from map concat] in H.
  apply in_app_or in H as [H|H]; [|exact (IH (S start) H)].
  unfold habit_rows_of in H. destruct H as [<-|H]; [reflexivity|].
  apply in_map_iff in H as ([date status] & <- & _). reflexivity.
Qed.

Lemma snapshot_rows_width (P : Platform) (S : Snapshot) (r : list string) :
  In r (snapshot_rows P S) -> length r = 12%nat.
Proof.
  unfold snapshot_rows. intros H.
  repeat (apply in_app_or in H as [H|H]).
  - cbn [In] in H. destruct H as [<-|[<-|[<-|[<-|[]]]]]; reflexivity.
  - now apply (bucket_rows_width (tracker_entry_row "water_history")) in H.
  - cbn [In] in H. destruct H as [<-|[<-|[]]]; reflexivity.
  - now apply (bucket_rows_width (tracker_entry_row "protein_history")) in H.
  - apply in_map_iff in H as ([type st] & <- & _). reflexivity.
  - apply in_map_iff in H as ([type n] & <- & _). reflexivity.
  - now apply (bucket_rows_width workout_entry_row) in H.
  - eapply habits_rows_width, H.
  - cbn [In] in H. destruct H as [<-|[<-|[]]]; reflexivity.
Qed.

(** X15. Every line of the export of a snapshot the format carries,
    the header line included, is tokenized into exactly twelve
    fields: the twelve columns. *)
Theorem exported_rows_have_twelve_fields (P : Platform)
    (store : gmap string string) (S : Snapshot) :
  valid S = true ->
  text_ok (now P) = true ->
  holds P store S ->
  exists csv,
    convertDataToCSV P store = Ok csv
    /\ Forall (fun line => length (parseCSVRow line) = 12%nat)
              (split_lines csv EmptyString).
Proof.
  intros HS Hnow Hstore. exists (snapshot_csv P S).
  split; [now apply convertDataToCSV_typed|].
  pose proof (snapshot_rows_ok P S HS Hnow) as Hrows.
  unfold snapshot_csv.
  rewrite split_snapshot_lines by (exact Hrows || reflexivity).
  constructor; [reflexivity|].
  apply Forall_map. rewrite forallb_forall in Hrows.
  apply List.Forall_forall. intros r Hr.
  destruct (row_ok_parts r (Hrows r Hr)) as (Hok & Hne & _ & _).
  rewrite parse_line_of by assumption.
  eapply snapshot_rows_width, Hr.
Qed.

Lemma exported_rows_have_twelve_fields_witness :
  exists csv,
    convertDataToCSV (roomy_platform false) (store_of one_day) = Ok csv
    /\ Forall (fun line => length (parseCSVRow line) = 12%nat)
              (split_lines csv EmptyString).
Proof.
  apply (exported_rows_have_twelve_fields (roomy_platform false)
           (store_of one_day) one_day).
  - reflexivity.
  - reflexivity.
  - repeat split; vm_compute; reflexivity.
Defined.

(** ** What the export raises *)

Lemma get_prop_throws (p : string) (v : Value) (e : Exn) :
  get_prop p v = Throw e -> e = TypeError.
Proof. destruct v; simpl; congruence. Qed.

Lemma forEach_items_throws (v : Value) (e : Exn) :
  forEach_items v = Throw e -> e = TypeError.
Proof. destruct v; simpl; congruence. Qed.

Lemma Object_entries_throws (v : Value) (e : Exn) :
  Object_entries v = Throw e -> e = TypeError.
Proof. destruct v; simpl; congruence. Qed.

Lemma read_json_throws (P : Platform) (store : gmap string string)
    (k fallback : string) (e : Exn) :
  read_json P store k fallback = Throw e -> e = SyntaxError.
Proof. unfold read_json. destruct (JSON_parse P _); congruence. Qed.

Lemma mapM_throws {A B} (f : A -> Result B) (e0 : Exn) (l : list A) (e : Exn) :
  (forall x e', f x = Throw e' -> e' = e0) ->
  mapM f l = Throw e -> e = e0.
Proof.
  intros Hf. induction l as [|a l IH]; [discriminate|].
  cbn [mapM]. intros H.
  apply bind_throws in H as [H | (b & _ & H)]; [eauto|].
  apply bind_throws in H as [H | (bs & _ & H)]; [auto | discriminate].
Qed.

Lemma mapM_throws_at {A B} (f : A -> Result B) (e0 : Exn) (l : list A) (x : A) :
  (forall y e', f y = Throw e' -> e' = e0) ->
  In x l -> f x = Throw e0 -> mapM f l = Throw e0.
Proof.
  intros Hf Hin Hx. induction l as [|a l IH]; [destruct Hin|].
  cbn [mapM]. destruct (f a) as [b|e] eqn:Ea.
  - destruct Hin as [->|Hin]; [congruence|].
    cbn [bind]. now rewrite IH.
  - cbn [bind]. f_equal. eauto.
Qed.

Ltac only_type_errors H :=
  repeat match type of H with
         | (_ <-- _ ;; _) = Throw _ =>
             apply bind_throws in H as [H | (? & _ & H)]
         | get_prop _ _ = Throw _ => exact (get_prop_throws _ _ _ H)
         | forEach_items _ = Throw _ => exact (forEach_items_throws _ _ H)
         | Object_entries _ = Throw _ => exact (Object_entries_throws _ _ H)
         | Ok _ = Throw _ => discriminate H
         | (if ?b then _ else _) = Throw _ => destruct b
         end.

Lemma tracker_entries_throws (tag date : string) (es : Value) (e : Exn) :
  (items <-- forEach_items es ;;
   mapM (fun '(index, entry) =>
           amount <-- get_prop "amount" entry ;;
           timestamp <-- get_prop "timestamp" entry ;;
           Ok (csv_line (make_row
                 [(0%nat, VStr tag);
                  (1%nat, VStr (entry_key date index));
                  (3%nat, VStr date);
                  (4%nat, amount);
                  (5%nat, timestamp)])))
        (indexed items)) = Throw e ->
  e = TypeError.
Proof.
  intros H. apply bind_throws in H as [H | (items & _ & H)];
    [exact (forEach_items_throws _ _ H)|].
  eapply mapM_throws; [|exact H]. intros [i entry] e' H'.
  only_type_errors H'.
Qed.

Lemma tracker_history_rows_throws (tag : string) (v : Value) (e : Exn) :
  tracker_history_rows tag v = Throw e -> e = TypeError.
Proof.
  unfold tracker_history_rows. intros H.
  apply bind_throws in H as [H | (dates & _ & H)];
    [exact (Object_entries_throws _ _ H)|].
  apply bind_throws in H as [H | (rows & _ & H)]; [|discriminate].
  eapply mapM_throws; [|exact H]. intros [date es] e'.
  apply tracker_entries_throws.
Qed.

Lemma workout_state_rows_throws (v : Value) (e : Exn) :
  workout_state_rows v = Throw e -> e = TypeError.
Proof.
  unfold workout_state_rows. intros H.
  apply bind_throws in H as [H | (types & _ & H)];
    [exact (Object_entries_throws _ _ H)|].
  eapply mapM_throws; [|exact H]. intros [type st] e' H'.
  only_type_errors H'.
Qed.

Lemma workout_count_rows_throws (v : Value) (e : Exn) :
  workout_count_rows v = Throw e -> e = TypeError.
Proof. unfold workout_count_rows. intros H. only_type_errors H. Qed.

Lemma workout_history_rows_throws (v : Value) (e : Exn) :
  workout_history_rows v = Throw e -> e = TypeError.
Proof.
  unfold workout_history_rows. intros H.
  apply bind_throws in H as [H | (dates & _ & H)];
    [exact (Object_entries_throws _ _ H)|].
  apply bind_throws in H as [H | (rows & _ & H)]; [|discriminate].
  eapply mapM_throws; [|exact H]. intros [date es] e' H'.
  apply bind_throws in H' as [H' | (items & _ & H')];
    [exact (forEach_items_throws _ _ H')|].
  eapply mapM_throws; [|exact H']. intros [i entry] e2 H2.
  only_type_errors H2.
Qed.

Lemma habits_rows_throws (v : Value) (e : Exn) :
  habits_rows v = Throw e -> e = TypeError.
Proof.
  unfold habits_rows. intros H.
  apply bind_throws in H as [H | (items & _ & H)];
    [exact (forEach_items_throws _ _ H)|].
  apply bind_throws in H as [H | (rows & _ & H)]; [|discriminate].
  eapply mapM_throws; [|exact H]. intros [i habit] e' H'.
  unfold habit_rows in H'. only_type_errors H'.
Qed.

(** X16. Whatever [convertDataToCSV] raises is a [SyntaxError] (a
    stored history that [JSON.parse] rejects) or a [TypeError] (a
    stored history of the wrong shape); [exportData] then hands over
    no file and shows the export-error toast, and in no case does it
    change the storage. *)
Theorem export_failures (P : Platform) (w : World) :
  match convertDataToCSV P (storage w) with
  | Ok csv =>
      exists name, exportData P w
                   = (Some {| fileName := name; content := csv |},
                      showToast ExportSucceeded w)
  | Throw e =>
      (e = SyntaxError \/ e = TypeError)
      /\ exportData P w = (None, showToast (ExportFailed e) w)
  end
  /\ storage (snd (exportData P w)) = storage w.
Proof.
  unfold exportData.
  destruct (convertDataToCSV P (storage w)) as [csv|e] eqn:E.
  - split; [eauto | reflexivity].
  - split; [|reflexivity]. split; [|reflexivity].
    unfold convertDataToCSV in E.
    repeat match type of E with
           | (_ <-- read_json _ _ _ _ ;; _) = Throw _ =>
               apply bind_throws in E as [E | (? & _ & E)];
               [left; exact (read_json_throws _ _ _ _ _ E)|]
           | (_ <-- tracker_history_rows _ _ ;; _) = Throw _ =>
               apply bind_throws in E as [E | (? & _ & E)];
               [right; exact (tracker_history_rows_throws _ _ _ E)|]
           | (_ <-- workout_state_rows _ ;; _) = Throw _ =>
               apply bind_throws in E as [E | (? & _ & E)];
               [right; exact (workout_state_rows_throws _ _ E)|]
           | (_ <-- workout_count_rows _ ;; _) = Throw _ =>
               apply bind_throws in E as [E | (? & _ & E)];
               [right; exact (workout_count_rows_throws _ _ E)|]
           | (_ <-- workout_history_rows _ ;; _) = Throw _ =>
               apply bind_throws in E as [E | (? & _ & E)];
               [right; exact (workout_history_rows_throws _ _ E)|]
           | (_ <-- habits_rows _ ;; _) = Throw _ =>
               apply bind_throws in E as [E | (? & _ & E)];
               [right; exact (habits_rows_throws _ _ E)|]
           end.
    discriminate.
Qed.

(** X17. A water history in which some date does not hold an array
    (a number, a text, an object) ends the export with a [TypeError]:
    no file, one export-error toast. *)
Theorem export_aborts_on_misshapen_history (P : Platform) (w : World)
    (h : JsObj Value) (date : string) (v : Value) :
  read_json P (storage w) "history_water" "{}" = Ok (VObj h) ->
  In (date, v) h ->
  is_array v = false ->
  convertDataToCSV P (storage w) = Throw TypeError
  /\ exportData P w = (None, showToast (ExportFailed TypeError) w).
Proof.
  intros Hread Hin Hv.
  assert (Hc : convertDataToCSV P (storage w) = Throw TypeError).
  { unfold convertDataToCSV. rewrite Hread. cbn [bind].
    unfold tracker_history_rows. cbn [Object_entries bind].
    rewrite (mapM_throws_at _ TypeError h (date, v)); auto.
    - intros [date' es] e'. apply tracker_entries_throws.
    - now destruct v. }
  split; [exact Hc|]. unfold exportData. now rewrite Hc.
Qed.

Lemma export_aborts_on_misshapen_history_witness :
  let w := {| storage := misshapen_store; trace := [] |} in
  convertDataToCSV (roomy_platform false) (storage w) = Throw TypeError
  /\ exportData (roomy_platform false) w
     = (None, showToast (ExportFailed TypeError) w).
Proof.
  intros w.
  apply (export_aborts_on_misshapen_history (roomy_platform false) w
           [("2024-03-04", VNum (Num 250))] "2024-03-04" (VNum (Num 250))).
  - vm_compute. reflexivity.
  - now left.
  - reflexivity.
Defined.

(** * The theme colour *)

Lemma hex_digit_facts (c : ascii) (k : Z) :
  digit_value 16 c = Some k ->
  is_space c = false /\ Ascii.eqb c "-" = false /\ Ascii.eqb c "+" = false
  /\ Ascii.eqb c "x" = false /\ Ascii.eqb c "X" = false
  /\ 0 <= k <= 15.
Proof.
  destruct c as [[] [] [] [] [] [] [] []]; vm_compute; intros H;
    try discriminate; injection H as <-; repeat split; congruence.
Qed.

Lemma parseInt_16_pair (a b : ascii) (v : Z) :
  hex_pair a b = Some v ->
  parseInt_16 (String a (String b EmptyString)) = Num v /\ 0 <= v <= 255.
Proof.
  unfold hex_pair.
  destruct (digit_value 16 a) as [x|] eqn:Ha; [|discriminate].
  destruct (digit_value 16 b) as [y|] eqn:Hb; [|discriminate].
  intros [= <-].
  destruct (hex_digit_facts a x Ha) as (Hs & Hm & Hp & _ & _ & Hx).
  destruct (hex_digit_facts b y Hb) as (_ & _ & _ & Hbx & HbX & Hy).
  split; [|lia].
  unfold parseInt_16. cbn [skip_spaces]. rewrite Hs, Hm, Hp.
  cbn [strip_hex_prefix]. rewrite Hbx, HbX, andb_false_r.
  rewrite read_digits_cons, Ha. cbv iota.
  rewrite read_digits_cons, Hb. cbn [read_digits]. do 2 f_equal. lia.
Qed.

Lemma substring_nothing (s : string) : String.substring 0 0 s = EmptyString.
Proof. now destruct s. Qed.

(** X18. For a colour written [#rrggbb] (six hexadecimal digits after
    the sharp, anything after them ignored), [getColorBrightness] is
    [(299 r + 587 g + 114 b) / 1000] for the three bytes read, a value
    between 0 and 255. *)
Theorem brightness_of_hex_colour (r1 r2 g1 g2 b1 b2 : ascii) (rest : string)
    (r g b : Z) :
  hex_pair r1 r2 = Some r ->
  hex_pair g1 g2 = Some g ->
  hex_pair b1 b2 = Some b ->
  getColorBrightness
    (VStr (String "#" (String r1 (String r2 (String g1 (String g2
             (String b1 (String b2 rest))))))))
  = Thousandths (r * 299 + g * 587 + b * 114)
  /\ 0 <= r * 299 + g * 587 + b * 114 <= 255000.
Proof.
  intros Hr Hg Hb.
  destruct (parseInt_16_pair r1 r2 r Hr) as [Pr Br].
  destruct (parseInt_16_pair g1 g2 g Hg) as [Pg Bg].
  destruct (parseInt_16_pair b1 b2 b Hb) as [Pb Bb].
  split; [|lia].
  unfold getColorBrightness. cbn [remove_first].
  rewrite Ascii.eqb_refl. cbn [String.substring].
  now rewrite !substring_nothing, Pr, Pg, Pb.
Qed.

Lemma brightness_of_hex_colour_witness :
  getColorBrightness (VStr "#4CAF50") = Thousandths 134569.
Proof.
  apply (brightness_of_hex_colour "4" "C" "A" "F" "5" "0" EmptyString 76 175 80);
    reflexivity.
Defined.

Lemma substring_past_end (s : string) (n m : nat) :
  (String.length s <= n)%nat -> String.substring n m s = EmptyString.
Proof.
  revert n. induction s as [|c s IH]; intros n H.
  - now destruct n, m.
  - destruct n as [|n]; [simpl in H; lia|]. cbn [String.substring].
    apply IH. simpl in H. lia.
Qed.

Lemma weighted_sum_nan (r g : Number) : weighted_sum r g NaN = NotANumber.
Proof. now destruct r, g. Qed.

(** X19. A colour in the short form ([#rgb], or any text with at most
    four characters after the sharp) has no blue byte to read: the
    brightness is [NaN], so [changeThemeColor] on iOS picks the dark
    status bar for it, white included. *)
Theorem short_colour_has_no_brightness (P : Platform) (s : string)
    (m : MetaTags) (style : string) :
  (String.length s <= 4)%nat ->
  isIOS P = true ->
  status_bar_meta m = Some style ->
  getColorBrightness (VStr (String "#" s)) = NotANumber
  /\ status_bar_meta (changeThemeColor P (VStr (String "#" s)) m)
     = Some "black-translucent".
Proof.
  intros Hlen Hios Hm.
  assert (Hb : getColorBrightness (VStr (String "#" s)) = NotANumber).
  { unfold getColorBrightness. cbn [remove_first]. rewrite Ascii.eqb_refl.
    rewrite (substring_past_end s 4 2 Hlen).
    apply weighted_sum_nan. }
  split; [exact Hb|].
  unfold changeThemeColor. cbn [status_bar_meta]. now rewrite Hios, Hm, Hb.
Qed.

Lemma short_colour_has_no_brightness_witness :
  status_bar_meta
    (changeThemeColor (roomy_platform true) (VStr "#fff")
       {| theme_color_meta := None; status_bar_meta := Some "default" |})
  = Some "black-translucent".
Proof.
  apply (short_colour_has_no_brightness (roomy_platform true) "fff"
           {| theme_color_meta := None; status_bar_meta := Some "default" |}
           "default"); [simpl; lia | reflexivity | reflexivity].
Defined.

(** X20. The last call of [changeThemeColor] wins: after two calls
    the tags are what the second call alone would leave, and a call
    repeated changes nothing more. Off iOS the status bar style is
    never touched. *)
Theorem changeThemeColor_last_wins (P : Platform) (c1 c2 : Value) (m : MetaTags) :
  changeThemeColor P c2 (changeThemeColor P c1 m) = changeThemeColor P c2 m
  /\ (if isIOS P then True
      else status_bar_meta (changeThemeColor P c1 m) = status_bar_meta m).
Proof.
  unfold changeThemeColor. cbn [status_bar_meta theme_color_meta].
  destruct (isIOS P); [|split; reflexivity].
  split; [|exact I]. now destruct (status_bar_meta m).
Qed.

(** * Choosing a file to import *)

(** X21. [importData] changes the world only at the end of one path:
    the file is no larger than the quota of the tier, it has the CSV
    type or a name ending in [.csv], the reader delivers its text, the
    text parses, the parsed data is not estimated above nine tenths of
    the quota, and the user confirms. Then the world is the one
    [performDataImport] leaves, and the page is reloaded exactly when
    that answered true. On every other path the world is untouched. *)
Theorem importData_gate (P : Platform) (file : option File) (confirmed : bool)
    (w : World) :
  let r := importData P file confirmed w in
  (run_world r = w /\ run_reload r = false)
  \/ exists f csvData d,
      file = Some f
      /\ file_accepted P f = true
      /\ file_text f = Some csvData
      /\ parseCSVData P csvData = Ok d
      /\ Z.of_nat (String.length (JSON_stringify P (import_value d))) * 10
         <= maxSize P * 9
      /\ confirmed = true
      /\ run_world r = snd (performDataImport P d w)
      /\ run_reload r = fst (performDataImport P d w).
Proof.
  intros r. subst r. unfold importData.
  destruct file as [f|]; [|now left].
  destruct (maxSize P <? file_size f) eqn:Hsize; [now left|].
  destruct (negb (String.eqb (file_type f) "text/csv")
            && negb (endsWith (file_name f) ".csv")) eqn:Htype; [now left|].
  destruct (file_text f) as [csvData|] eqn:Htext; [|now left].
  unfold import_text.
  destruct (parseCSVData P csvData) as [d|e] eqn:Hparse; [|now left].
  destruct (maxSize P * 9 <? _) eqn:Hest; [now left|].
  destruct confirmed; [|now left].
  right. exists f, csvData, d.
  destruct (performDataImport P d w) as [success w'].
  repeat split; auto.
  - unfold file_accepted. apply andb_true_intro. split.
    + apply Z.leb_le. apply Z.ltb_ge in Hsize. exact Hsize.
    + rewrite <- negb_orb in Htype. now apply negb_false_iff in Htype.
  - now apply Z.ltb_ge in Hest.
Qed.

(** X22. A text that does not parse is reported and nothing else
    happens: [importData] shows the import error with the exception of
    [parseCSVData], clears the file input, leaves storage and trace as
    they were and schedules no reload, whatever the user would have
    answered. *)
Theorem unparsable_file_changes_nothing (P : Platform) (f : File)
    (csvData : string) (e : Exn) (confirmed : bool) (w : World) :
  file_accepted P f = true ->
  file_text f = Some csvData ->
  parseCSVData P csvData = Throw e ->
  importData P (Some f) confirmed w
  = {| run_world := w; run_notice := Some (ImportError e);
       run_cleared := true; run_reload := false |}.
Proof.
  unfold file_accepted. intros Hacc Htext Hparse.
  apply andb_prop in Hacc as [Hsize Htype].
  unfold importData.
  replace (maxSize P <? file_size f) with false
    by (symmetry; apply Z.ltb_ge; now apply Z.leb_le).
  rewrite <- negb_orb, Htype. cbn [negb]. rewrite Htext.
  unfold import_text. now rewrite Hparse.
Qed.

Lemma unparsable_file_changes_nothing_witness :
  let f := {| file_size := 19; file_type := "text/csv"; file_name := "notes";
              file_text := Some "data_type,key,value" |} in
  importData (roomy_platform false) (Some f) true empty_world
  = {| run_world := empty_world;
       run_notice := Some (ImportError (Error "Invalid CSV file format"));
       run_cleared := true; run_reload := false |}.
Proof.
  intros f.
  apply (unparsable_file_changes_nothing (roomy_platform false) f
           "data_type,key,value" (Error "Invalid CSV file format") true
           empty_world); reflexivity.
Defined.

(** * Dates as keys *)

Lemma length_append (a b : string) :
  String.length (a +:+ b) = (String.length a + String.length b)%nat.
Proof. induction a as [|c a IH]; simpl; [reflexivity | now rewrite IH]. Qed.

Lemma append_inj_same_length (a b x y : string) :
  String.length a = String.length b ->
  a +:+ x = b +:+ y -> a = b /\ x = y.
Proof.
  revert b. induction a as [|c a IH]; intros [|c' b] Hl H;
    try discriminate; [auto|].
  simpl in H. injection H as -> H. injection Hl as Hl.
  destruct (IH b Hl H) as [-> ->]. auto.
Qed.

Lemma compare_refl (a : string) : String.compare a a = Eq.
Proof.
  pose proof (ltb_irrefl a) as H. unfold String.ltb in H.
  pose proof (String.compare_antisym a a) as Ha.
  destruct (String.compare a a); [reflexivity | discriminate | discriminate].
Qed.

Lemma ascii_compare_refl (c : ascii) : Ascii.compare c c = Eq.
Proof.
  pose proof (Ascii.compare_antisym c c) as H.
  destruct (Ascii.compare c c); [reflexivity | discriminate | discriminate].
Qed.

(** Two texts with prefixes of the same length compare by their
    prefixes first. *)
Lemma compare_append (a b x y : string) :
  String.length a = String.length b ->
  String.compare (a +:+ x) (b +:+ y)
  = match String.compare a b with
    | Eq => String.compare x y
    | c => c
    end.
Proof.
  revert b. induction a as [|c a IH]; intros [|c' b] Hl; try discriminate.
  - reflexivity.
  - injection Hl as Hl. cbn [String.append String.compare].
    destruct (Ascii.compare c c'); [now apply IH | reflexivity | reflexivity].
Qed.

Lemma padded_spec (n i j : nat) :
  padded_in_order n = true -> (i < n)%nat -> (j < n)%nat ->
  String.length (padStart2 (nat_to_string i)) = 2%nat
  /\ String.compare (padStart2 (nat_to_string i)) (padStart2 (nat_to_string j))
     = Nat.compare i j.
Proof.
  unfold padded_in_order. intros H Hi Hj.
  rewrite forallb_forall in H.
  specialize (H i). rewrite in_seq in H. specialize (H ltac:(lia)).
  apply andb_prop in H as [Hlen H]. apply Nat.eqb_eq in Hlen.
  split; [exact Hlen|].
  rewrite forallb_forall in H.
  specialize (H j). rewrite in_seq in H. specialize (H ltac:(lia)).
  destruct (String.compare _ _), (Nat.compare i j); try discriminate; reflexivity.
Qed.

Lemma padded_32 : padded_in_order 32 = true.
Proof. vm_compute. reflexivity. Qed.

Lemma in_Z_range (count : nat) :
  forall first y,
    first <= y < first + Z.of_nat count -> In y (Z_range first count).
Proof.
  induction count as [|n IH]; intros first y H; [lia|].
  cbn [Z_range]. destruct (Z.eq_dec first y) as [->|Hne]; [now left|].
  right. apply IH. lia.
Qed.

Lemma years_spec (first : Z) (count : nat) (y : Z) :
  years_in_order first count = true ->
  first <= y < first + Z.of_nat count ->
  String.length (Z_to_string y) = 4%nat
  /\ (y + 1 < first + Z.of_nat count ->
      String.ltb (Z_to_string y) (Z_to_string (y + 1)) = true).
Proof.
  unfold years_in_order. intros H Hy.
  rewrite forallb_forall in H. specialize (H y (in_Z_range count first y Hy)).
  apply andb_prop in H as [Hl Hs]. apply Nat.eqb_eq in Hl.
  split; [exact Hl|]. intros Hy'.
  apply orb_prop in Hs as [Hs|Hs]; [|exact Hs].
  apply Z.leb_le in Hs. lia.
Qed.

Lemma years_1000_9999 : years_in_order 1000 (Z.to_nat 9000) = true.
Proof. vm_cast_no_check (eq_refl true). Qed.

Lemma year_step (y : Z) :
  1000 <= y <= 9999 ->
  String.length (Z_to_string y) = 4%nat
  /\ (y <= 9998 ->
      String.ltb (Z_to_string y) (Z_to_string (y + 1)) = true).
Proof.
  intros Hy.
  destruct (years_spec 1000 (Z.to_nat 9000) y years_1000_9999) as [Hl Hs];
    [lia|].
  split; [exact Hl|]. intros Hy'. apply Hs. lia.
Qed.

Lemma years_ascend (y : Z) (k : nat) :
  1000 <= y -> y + Z.of_nat (S k) <= 9999 ->
  String.ltb (Z_to_string y) (Z_to_string (y + Z.of_nat (S k))) = true.
Proof.
  intros Hlo. induction k as [|k IH]; intros Hhi.
  - replace (y + Z.of_nat 1) with (y + 1) by lia. apply year_step; lia.
  - eapply ltb_trans; [apply IH; lia|].
    replace (y + Z.of_nat (S (S k))) with (y + Z.of_nat (S k) + 1) by lia.
    apply year_step; lia.
Qed.

Lemma year_compare (y1 y2 : Z) :
  1000 <= y1 <= 9999 -> 1000 <= y2 <= 9999 ->
  String.compare (Z_to_string y1) (Z_to_string y2) = Z.compare y1 y2.
Proof.
  intros H1 H2. destruct (Z.compare_spec y1 y2) as [->|Hlt|Hgt].
  - apply compare_refl.
  - pose proof (years_ascend y1 (Z.to_nat (y2 - y1 - 1)) ltac:(lia) ltac:(lia))
      as H.
    replace (y1 + Z.of_nat (S (Z.to_nat (y2 - y1 - 1)))) with y2 in H by lia.
    unfold String.ltb in H.
    now destruct (String.compare (Z_to_string y1) (Z_to_string y2)).
  - pose proof (years_ascend y2 (Z.to_nat (y1 - y2 - 1)) ltac:(lia) ltac:(lia))
      as H.
    replace (y2 + Z.of_nat (S (Z.to_nat (y1 - y2 - 1)))) with y1 in H by lia.
    unfold String.ltb in H. rewrite String.compare_antisym.
    now destruct (String.compare (Z_to_string y2) (Z_to_string y1)).
Qed.

Lemma calendar_ok_parts (d : LocalDate) :
  calendar_ok d = true ->
  (date_month d + 1 < 32)%nat /\ (date_day d < 32)%nat.
Proof.
  unfold calendar_ok. intros H. apply andb_prop in H as [H Hd].
  apply andb_prop in H as [Hm _].
  apply Nat.ltb_lt in Hm. apply Nat.leb_le in Hd. lia.
Qed.

(** X23. For dates with a year of four digits, the texts [formatDate]
    gives compare, character by character, as the dates do on the
    calendar: sorting the keys [YYYY-MM-DD] as strings sorts the days,
    which is what the cleanup relies on. Each text has ten
    characters. *)
Theorem formatDate_order (today a b : LocalDate) :
  calendar_ok a = true -> four_digit_year a = true ->
  calendar_ok b = true -> four_digit_year b = true ->
  String.compare (formatDate today (ValidDate a)) (formatDate today (ValidDate b))
  = date_compare a b
  /\ String.length (formatDate today (ValidDate a)) = 10%nat.
Proof.
  intros Ca Ya Cb Yb.
  destruct (calendar_ok_parts a Ca) as [Ma Da].
  destruct (calendar_ok_parts b Cb) as [Mb Db].
  unfold four_digit_year in *.
  apply andb_prop in Ya as [Ya1 Ya2]. apply andb_prop in Yb as [Yb1 Yb2].
  apply Z.leb_le in Ya1, Ya2, Yb1, Yb2.
  destruct a as [ya ma da], b as [yb mb db]. cbn [date_year date_month date_day] in *.
  unfold formatDate, date_text, date_compare. cbn [date_year date_month date_day].
  destruct (year_step ya ltac:(lia)) as [La _].
  destruct (year_step yb ltac:(lia)) as [Lb _].
  destruct (padded_spec 32 (ma + 1) (mb + 1) padded_32 Ma Mb) as [Lma Cm].
  destruct (padded_spec 32 (mb + 1) (ma + 1) padded_32 Mb Ma) as [Lmb _].
  destruct (padded_spec 32 da db padded_32 Da Db) as [Lda Cd].
  split.
  - rewrite compare_append by congruence.
    rewrite year_compare by lia.
    destruct (ya ?= yb); try reflexivity.
    change ("-" +:+ ?x) with (String "-" x).
    cbn [String.compare]. rewrite ascii_compare_refl.
    rewrite compare_append by congruence. rewrite Cm.
    replace (ma + 1 ?= mb + 1)%nat with (ma ?= mb)%nat
      by (rewrite !Nat.add_1_r; symmetry; apply Nat.compare_succ).
    destruct (ma ?= mb)%nat; try reflexivity.
    cbn [String.compare String.append]. rewrite ascii_compare_refl. exact Cd.
  - rewrite !length_append, La, Lma, Lda. reflexivity.
Qed.

Lemma formatDate_order_witness :
  let today := {| date_year := 2024; date_month := 2; date_day := 5 |} in
  let a := {| date_year := 2023; date_month := 11; date_day := 31 |} in
  let b := {| date_year := 2024; date_month := 0; date_day := 1 |} in
  String.compare (formatDate today (ValidDate a)) (formatDate today (ValidDate b))
  = Lt
  /\ String.length (formatDate today (ValidDate a)) = 10%nat.
Proof.
  intros today a b.
  apply (formatDate_order today a b); reflexivity.
Defined.

Lemma append_inj_suffix (a b x y : string) :
  String.length x = String.length y ->
  a +:+ x = b +:+ y -> a = b /\ x = y.
Proof.
  intros Hl H. apply append_inj_same_length; [|exact H].
  apply (f_equal String.length) in H. rewrite !length_append in H. lia.
Qed.

Lemma Z_to_string_inj (a b : Z) : Z_to_string a = Z_to_string b -> a = b.
Proof.
  intros H. apply (f_equal parseInt_string) in H.
  rewrite !parseInt_Z_to_string in H. congruence.
Qed.

Lemma padded_inj (i j : nat) :
  (i < 32)%nat -> (j < 32)%nat ->
  padStart2 (nat_to_string i) = padStart2 (nat_to_string j) -> i = j.
Proof.
  intros Hi Hj H.
  destruct (padded_spec 32 i j padded_32 Hi Hj) as [_ Hc].
  rewrite H, compare_refl in Hc. symmetry in Hc.
  now apply Nat.compare_eq_iff in Hc.
Qed.

Lemma date_text_inj (a b : LocalDate) :
  calendar_ok a = true -> calendar_ok b = true ->
  date_text a = date_text b -> a = b.
Proof.
  intros Ca Cb H.
  destruct (calendar_ok_parts a Ca) as [Ma Da].
  destruct (calendar_ok_parts b Cb) as [Mb Db].
  destruct (padded_spec 32 (date_month a + 1) 0 padded_32 Ma ltac:(lia))
    as [Lma _].
  destruct (padded_spec 32 (date_month b + 1) 0 padded_32 Mb ltac:(lia))
    as [Lmb _].
  destruct (padded_spec 32 (date_day a) 0 padded_32 Da ltac:(lia)) as [Lda _].
  destruct (padded_spec 32 (date_day b) 0 padded_32 Db ltac:(lia)) as [Ldb _].
  unfold date_text in H.
  apply append_inj_suffix in H as [Hy H];
    [|rewrite !length_append, Lma, Lmb, Lda, Ldb; reflexivity].
  change ("-" +:+ ?x) with (String "-" x) in H. injection H as H.
  apply append_inj_same_length in H as [Hm H]; [|congruence].
  injection H as H.
  apply Z_to_string_inj in Hy. apply padded_inj in Hm, H; try assumption.
  destruct a as [ya ma da], b as [yb mb db].
  cbn [date_year date_month date_day] in *.
  f_equal; lia.
Qed.

(** X24. Two valid dates are the same day for [isSameDay] exactly
    when [formatDate] gives them the same text, whatever the year; an
    invalid date is the same day as none, although [formatDate] gives
    it the text of today. *)
Theorem isSameDay_iff_same_text (today a b : LocalDate) :
  calendar_ok a = true -> calendar_ok b = true ->
  isSameDay (ValidDate a) (ValidDate b)
  = String.eqb (formatDate today (ValidDate a)) (formatDate today (ValidDate b))
  /\ isSameDay InvalidDate (ValidDate today) = false
  /\ formatDate today InvalidDate = formatDate today (ValidDate today).
Proof.
  intros Ca Cb. split; [|split; reflexivity].
  cbn [formatDate isSameDay].
  destruct (String.eqb (date_text a) (date_text b)) eqn:E.
  - apply String.eqb_eq in E. apply date_text_inj in E; try assumption.
    subst b. now rewrite Z.eqb_refl, !Nat.eqb_refl.
  - destruct ((date_year a =? date_year b)
              && (date_month a =? date_month b)%nat
              && (date_day a =? date_day b)%nat) eqn:S; [|reflexivity].
    apply andb_prop in S as [S Hd]. apply andb_prop in S as [Hy Hm].
    apply Z.eqb_eq in Hy. apply Nat.eqb_eq in Hm, Hd.
    destruct a as [ya ma da], b as [yb mb db].
  cbn [date_year date_month date_day] in *. subst.
    now rewrite String.eqb_refl in E.
Qed.

Lemma isSameDay_iff_same_text_witness :
  let today := {| date_year := 2024; date_month := 2; date_day := 5 |} in
  let a := {| date_year := 2024; date_month := 0; date_day := 1 |} in
  let b := {| date_year := 2024; date_month := 0; date_day := 11 |} in
  isSameDay (ValidDate a) (ValidDate b) = false
  /\ isSameDay InvalidDate (ValidDate today) = false
  /\ formatDate today InvalidDate = "2024-03-05".
Proof.
  intros today a b.
  destruct (isSameDay_iff_same_text today a b) as (H1 & H2 & H3);
    [reflexivity | reflexivity|].
  split; [rewrite H1; reflexivity|]. split; [exact H2|].
  rewrite H3. reflexivity.
Defined.

(** * Parsing and importing together *)

Lemma process_rows_all_unrecognized (hm : JsObj nat) (rows : list string)
    (d : Imported) :
  (forall r, recognized (row_kind hm r) = false) ->
  process_rows hm d rows = Ok d.
Proof.
  intros H. induction rows as [|r rows IH]; [reflexivity|].
  cbn [process_rows]. destruct (is_blank r); [exact IH|].
  rewrite process_row_unrecognized by apply H. exact IH.
Qed.

(** X25. The columns are found by their names in the header row. A
    file with at least two lines whose header has no [data_type]
    column is not rejected: every row is passed over, and the result
    is the empty snapshot [parseCSVData] starts from. *)
Theorem header_without_data_type (P : Platform) (csvData : string) :
  includes csvData newline = true ->
  obj_get "data_type"
    (build_headerMap (parseCSVRow (hd EmptyString
                                      (split_lines csvData EmptyString))))
  = None ->
  parseCSVData P csvData = Ok (to_import_format P (initial_imported P)).
Proof.
  intros Hn Hh. unfold parseCSVData, parse_rows.
  replace (length (split_lines csvData EmptyString) <? 2)%nat with false
    by (symmetry; apply Nat.ltb_ge; now apply split_lines_two).
  rewrite process_rows_all_unrecognized; [reflexivity|].
  intros r. unfold row_kind, cell. now rewrite Hh.
Qed.

Lemma header_without_data_type_witness :
  parseCSVData (roomy_platform false) foreign_csv
  = Ok (to_import_format (roomy_platform false)
          (initial_imported (roomy_platform false))).
Proof.
  apply (header_without_data_type (roomy_platform false) foreign_csv);
    reflexivity.
Defined.

Lemma json_field_of_parse (P : Platform) (csvData : string) (d : ImportedData)
    (f : Field) :
  parseCSVData P csvData = Ok d ->
  In f json_fields ->
  exists v, field_value d f = VStr (JSON_stringify P v).
Proof.
  unfold parseCSVData. intros H Hin.
  destruct (parse_rows P csvData) as [i|]; [|discriminate].
  injection H as <-. unfold json_fields in Hin. cbn [In] in Hin.
  destruct Hin as [<-|[<-|[<-|[<-|[<-|[<-|[]]]]]]];
    cbn [field_value to_import_format water_history protein_history
         workout_state workout_count workout_history habits_data];
    eauto.
Qed.

(** X26. What [parseCSVData] returns always carries a text for the
    three histories, the workout state, the workout count and the
    habits, [{}] or [[]] when the file has no row for them. Where
    [JSON.stringify] never gives the empty text, these six fields are
    therefore truthy, and on a browser that accepts the writes
    [performDataImport] replaces what was stored under all six keys:
    an import never merges, and a file without history rows empties
    the histories. *)
Theorem import_replaces_json_keys (P : Platform) (csvData : string)
    (d : ImportedData) (w : World) (f : Field) :
  parseCSVData P csvData = Ok d ->
  (forall v, JSON_stringify P v <> EmptyString) ->
  (forall store k v, setItem_throws P store k v = None) ->
  In f json_fields ->
  truthy (field_value d f) = true
  /\ storage (snd (performDataImport P d w)) !! field_key f
     = Some (String_ (field_value d f)).
Proof.
  intros Hparse Hjson Hacc Hin.
  destruct (json_field_of_parse P csvData d f Hparse Hin) as [v Hv].
  assert (Ht : truthy (field_value d f) = true).
  { rewrite Hv. cbn [truthy]. apply negb_true_iff, String.eqb_neq, Hjson. }
  split; [exact Ht|].
  destruct (import_writes_accepted P d w Hacc) as [_ Hs].
  destruct (performDataImport_storage P d w) as [-> _]. rewrite Hs.
  unfold json_fields in Hin. cbn [In] in Hin.
  destruct Hin as [<-|[<-|[<-|[<-|[<-|[<-|[]]]]]]];
    cbn [field_key field_value] in *;
    repeat (rewrite lookup_apply_field_ne by discriminate);
    rewrite lookup_apply_field, Ht; reflexivity.
Qed.

Lemma import_replaces_json_keys_witness :
  let P := roomy_platform false in
  exists d,
    parseCSVData P foreign_csv = Ok d
    /\ storage (snd (performDataImport P d full_january)) !! "history_water"
       = Some "{}".
Proof.
  intros P.
  exists (to_import_format P (initial_imported P)).
  split; [reflexivity|].
  apply (import_replaces_json_keys P foreign_csv
           (to_import_format P (initial_imported P)) full_january WaterHistory).
  - reflexivity.
  - intros v. destruct v as [| |[]|[|z]|s|items|props]; try discriminate.
    unfold JSON_stringify, P, roomy_platform, RefJSON.stringify.
    destruct (Z_to_string_nonempty z) as (c & rest & -> & _). discriminate.
  - reflexivity.
  - unfold json_fields. simpl. auto.
Defined.
